(** * SmartCashFlowManager backend: ingestion, classification and budgeting

    A shallow embedding of [transaction_processor.py] and
    [budget_analyzer.py] (with the sibling scripts [1.py], [4.py] and
    [home_page.py] where they differ), and the properties of the
    ingestion -> extraction -> classification -> dedup -> aggregation ->
    budget-allocation pipeline.

    Modelling conventions.
    - A Python [str] is given by its bytes ([string]); case folding, the
      regex classes [\d], [\s], [\w] and the number parsers act on the
      ASCII range, so what depends on them is stated for ASCII text
      ([Text.is_ascii]).
    - A Python [float] is an IEEE 754 binary64 number ([Double.double],
      the primitive floats): the aggregator, the current-spend scan and
      the allocation add, divide, multiply and round in that arithmetic,
      [sum] adding from the left, and [float(s)] and [round(x, 2)] are
      correctly rounded. A number stored in a document is given by its
      exact value ([PyFloat]). The ceilings and the savings potential,
      whose sign is the matter, are studied over the exact values, and
      so is the amount the message parser stores.
    - A Python [dict] is a [gmap]; a [set] is a [gset]; a MongoDB
      collection read with [find] is the list of its documents in cursor
      order, and an upsert keyed by [_id] appends when no document has
      that [_id].
    - Exceptions are explicit: a computation returns an [outcome]. *)

From Stdlib Require Import Ascii String NArith ZArith QArith Qround Qabs Lqa Lia.
From Stdlib Require Import DecimalString.
From Stdlib Require Import PrimFloat FloatOps SpecFloat.
From stdpp Require Import base option list gmap strings.

Open Scope string_scope.
Set Warnings "-clear-no-such-hyp".

(** ** Text helpers: [str.lower], [in], [str.strip], [str.replace] *)

Module Text.

Definition code (c : ascii) : N := N_of_ascii c.

Definition is_upper (c : ascii) : bool := (65 <=? code c)%N && (code c <=? 90)%N.
Definition is_lower (c : ascii) : bool := (97 <=? code c)%N && (code c <=? 122)%N.
Definition is_alpha (c : ascii) : bool := is_upper c || is_lower c.
Definition is_digit (c : ascii) : bool := (48 <=? code c)%N && (code c <=? 57)%N.

(** [\s] on [str] patterns and [str.isspace]: tab, newline, vertical tab,
    form feed, carriage return, the separators 0x1c-0x1f, and space. *)
Definition is_space (c : ascii) : bool :=
  ((9 <=? code c)%N && (code c <=? 13)%N)
  || ((28 <=? code c)%N && (code c <=? 31)%N)
  || (code c =? 32)%N.

(** [\w]: letters, digits and the underscore. *)
Definition is_word (c : ascii) : bool :=
  is_alpha c || is_digit c || (code c =? 95)%N.

Definition lower_char (c : ascii) : ascii :=
  if is_upper c then ascii_of_N (code c + 32) else c.

Fixpoint map_chars (f : ascii -> ascii) (s : string) : string :=
  match s with
  | EmptyString => EmptyString
  | String c s' => String (f c) (map_chars f s')
  end.

Fixpoint filter_chars (p : ascii -> bool) (s : string) : string :=
  match s with
  | EmptyString => EmptyString
  | String c s' => if p c then String c (filter_chars p s') else filter_chars p s'
  end.

Fixpoint all_chars (p : ascii -> bool) (s : string) : bool :=
  match s with
  | EmptyString => true
  | String c s' => p c && all_chars p s'
  end.

(** [s.lower()] *)
Definition lower (s : string) : string := map_chars lower_char s.

(** [needle in hay] *)
Fixpoint contains (needle hay : string) : bool :=
  String.prefix needle hay ||
  match hay with
  | EmptyString => false
  | String _ hay' => contains needle hay'
  end.

(** [s.replace(c, '')] for a one-character [c] *)
Definition remove_char (c : ascii) (s : string) : string :=
  filter_chars (fun a => negb (Ascii.eqb a c)) s.

Fixpoint lstrip (s : string) : string :=
  match s with
  | EmptyString => EmptyString
  | String c s' => if is_space c then lstrip s' else s
  end.

Fixpoint rstrip (s : string) : string :=
  match s with
  | EmptyString => EmptyString
  | String c s' =>
      match rstrip s' with
      | EmptyString => if is_space c then EmptyString else String c EmptyString
      | t => String c t
      end
  end.

(** [s.strip()] *)
Definition strip (s : string) : string := rstrip (lstrip s).

(** The text holds ASCII characters only. *)
Definition is_ascii (s : string) : bool := all_chars (fun c => (code c <? 128)%N) s.

(** [any(k in text for k in keywords)] *)
Definition any_in (keywords : list string) (text : string) : bool :=
  existsb (fun k => contains k text) keywords.

End Text.

(** ** A backtracking matcher for the fragment of [re] the code uses

    Alternation tries its branches left to right, [?], [*] and [+] are
    greedy, and a failed continuation backtracks into the last choice:
    the order in which CPython's engine explores matches. *)

Module Re.

Inductive regex : Type :=
| Eps
| Chr (c : ascii)
| Cls (p : ascii -> bool)
| Seq (r1 r2 : regex)
| Alt (r1 r2 : regex)
| Opt (r : regex)
| Star (r : regex)
| Grp (n : nat) (r : regex).

Definition Plus (r : regex) : regex := Seq r (Star r).

Fixpoint Lit (s : string) : regex :=
  match s with
  | EmptyString => Eps
  | String c s' => Seq (Chr c) (Lit s')
  end.

Definition captures := list (nat * string).

(** The text consumed between the suffixes [s] and [s'] of the subject. *)
Definition consumed (s s' : string) : string :=
  String.substring 0 (String.length s - String.length s') s.

Definition set_group (n : nat) (m : string) (caps : captures) : captures :=
  (n, m) :: List.filter (fun p => negb (Nat.eqb (fst p) n)) caps.

Definition group (n : nat) (caps : captures) : option string :=
  snd <$> List.find (fun p => Nat.eqb (fst p) n) caps.

Definition char_eq (ignorecase : bool) (a c : ascii) : bool :=
  if ignorecase then Ascii.eqb (Text.lower_char a) (Text.lower_char c)
  else Ascii.eqb a c.

Section Matcher.
Context {R : Type}.
Variable ignorecase : bool.

Fixpoint run (r : regex) (s : string) (caps : captures)
    (k : string -> captures -> option R) {struct r} : option R :=
  match r with
  | Eps => k s caps
  | Chr c =>
      match s with
      | String a s' => if char_eq ignorecase a c then k s' caps else None
      | EmptyString => None
      end
  | Cls p =>
      match s with
      | String a s' => if p a then k s' caps else None
      | EmptyString => None
      end
  | Seq r1 r2 => run r1 s caps (fun s1 c1 => run r2 s1 c1 k)
  | Alt r1 r2 =>
      match run r1 s caps k with
      | Some x => Some x
      | None => run r2 s caps k
      end
  | Opt r1 =>
      match run r1 s caps k with
      | Some x => Some x
      | None => k s caps
      end
  | Star r1 =>
      (fix loop (fuel : nat) (s : string) (caps : captures) : option R :=
         match fuel with
         | O => k s caps
         | S fuel' =>
             match run r1 s caps (fun s1 c1 =>
                     if (String.length s1 <? String.length s)%nat
                     then loop fuel' s1 c1 else None) with
             | Some x => Some x
             | None => k s caps
             end
         end) (String.length s) s caps
  | Grp n r1 =>
      run r1 s caps (fun s1 c1 => k s1 (set_group n (consumed s s1) c1))
  end.
End Matcher.

(** [re.match]: anchored at the start of [s]. *)
Definition rmatch (ignorecase : bool) (r : regex) (s : string) : option captures :=
  run ignorecase r s [] (fun _ caps => Some caps).

(** [re.search]: the first start offset at which the pattern matches. *)
Fixpoint search (ignorecase : bool) (r : regex) (s : string) : option captures :=
  match rmatch ignorecase r s with
  | Some caps => Some caps
  | None =>
      match s with
      | EmptyString => None
      | String _ s' => search ignorecase r s'
      end
  end.

(** The texts a pattern can match, independently of the search order. *)
Inductive lang (ignorecase : bool) : regex -> string -> Prop :=
| lang_eps : lang ignorecase Eps EmptyString
| lang_chr a c :
    char_eq ignorecase a c = true -> lang ignorecase (Chr c) (String a EmptyString)
| lang_cls (p : ascii -> bool) a :
    p a = true -> lang ignorecase (Cls p) (String a EmptyString)
| lang_seq r1 r2 m1 m2 :
    lang ignorecase r1 m1 -> lang ignorecase r2 m2 ->
    lang ignorecase (Seq r1 r2) (String.append m1 m2)
| lang_alt_l r1 r2 m : lang ignorecase r1 m -> lang ignorecase (Alt r1 r2) m
| lang_alt_r r1 r2 m : lang ignorecase r2 m -> lang ignorecase (Alt r1 r2) m
| lang_opt_none r : lang ignorecase (Opt r) EmptyString
| lang_opt_some r m : lang ignorecase r m -> lang ignorecase (Opt r) m
| lang_star_nil r : lang ignorecase (Star r) EmptyString
| lang_star_cons r m1 m2 :
    lang ignorecase r m1 -> lang ignorecase (Star r) m2 ->
    lang ignorecase (Star r) (String.append m1 m2)
| lang_grp n r m : lang ignorecase r m -> lang ignorecase (Grp n r) m.

End Re.

(** ** Numbers: [float(str)] and [round(x, 2)] over exact rationals *)

Module Num.

Definition pow10 (n : nat) : positive := Nat.iter n (Pos.mul 10) 1%positive.

Definition digit_value (c : ascii) : N := (Text.code c - 48)%N.

Fixpoint digits_value (acc : N) (s : string) : option N :=
  match s with
  | EmptyString => Some acc
  | String c s' =>
      if Text.is_digit c then digits_value (acc * 10 + digit_value c)%N s' else None
  end.

(** The text before the first ['.'] and, when there is one, the text after it. *)
Fixpoint split_dot (s : string) : string * option string :=
  match s with
  | EmptyString => (EmptyString, None)
  | String c s' =>
      if Ascii.eqb c "."%char then (EmptyString, Some s')
      else let '(a, b) := split_dot s' in (String c a, b)
  end.

(** The decimal literals [12], [12.], [12.5] and [.5]. *)
Definition unsigned_float (s : string) : option Q :=
  let '(ip, fp) := split_dot s in
  let fp := default EmptyString fp in
  if (String.length ip + String.length fp =? 0)%nat then None
  else
    match digits_value 0 ip, digits_value 0 fp with
    | Some i, Some f =>
        Some ((Z.of_N i # 1) + (Z.of_N f # pow10 (String.length fp)))%Q
    | _, _ => None
    end.

(** [float(s)] on decimal literals with an optional sign, surrounding
    white space allowed; [None] stands for [ValueError]. Exponents,
    [inf], [nan] and digit separators are outside the model. *)
Definition float_of_string (s : string) : option Q :=
  match Text.strip s with
  | EmptyString => None
  | String c rest as t =>
      if Ascii.eqb c "-"%char then Qopp <$> unsigned_float rest
      else if Ascii.eqb c "+"%char then unsigned_float rest
      else unsigned_float t
  end.

Definition round_half_even (q : Q) : Z :=
  let f := Qfloor q in
  match (q - inject_Z f ?= 1 # 2)%Q with
  | Lt => f
  | Gt => (f + 1)%Z
  | Eq => if Z.even f then f else (f + 1)%Z
  end.

End Num.

(** ** Exceptions and the values of an amount field *)

Inductive outcome (A : Type) : Type :=
| Returned (a : A)
| Raised (e : string).
Arguments Returned {A} a.
Arguments Raised {A} e.

#[global] Instance outcome_ret : MRet outcome := fun A a => Returned a.
#[global] Instance outcome_bind : MBind outcome := fun A B f m =>
  match m with
  | Returned a => f a
  | Raised e => Raised e
  end.

(** [for x in xs: acc = step(x, acc)], stopping at the first exception. *)
Fixpoint fold_outcome {A B : Type} (step : A -> B -> outcome B) (xs : list A) (acc : B)
    : outcome B :=
  match xs with
  | [] => Returned acc
  | x :: xs' => acc' ← step x acc; fold_outcome step xs' acc'
  end.

(** What a document holds in a numeric field: a number, a string, or null.
    A number is given by its exact value; read as a float it is the
    double nearest to it. *)
Inductive pyval : Type :=
| PyFloat (q : Q)
| PyStr (s : string)
| PyNone.

(** The value, when it is a text, is ASCII. *)
Definition ascii_value (v : pyval) : bool :=
  match v with
  | PyStr s => Text.is_ascii s
  | _ => true
  end.

(** [float(v)], as an exact value, for the decimal literals the message
    parser produces. *)
Definition py_float (v : pyval) : outcome Q :=
  match v with
  | PyFloat q => Returned q
  | PyStr s =>
      match Num.float_of_string s with
      | Some q => Returned q
      | None => Raised "ValueError"
      end
  | PyNone => Raised "TypeError"
  end.

(** ** Python [float]: IEEE 754 binary64 *)

Module Double.

Abbreviation double := PrimFloat.float.

(** The double nearest to a rational, ties to even; past the largest
    double it is an infinity. The quotient is taken with enough binary
    digits for every double, and a sticky bit records a remainder. *)
Definition of_Q (q : Q) : double :=
  let n := Qnum q in
  let d := Z.pos (Qden q) in
  let k := (1080 + Z.log2 d)%Z in
  let scaled := (Z.abs n * 2 ^ k)%Z in
  let quotient := (scaled / d)%Z in
  let sticky := if (scaled mod d =? 0)%Z then 0%Z else 1%Z in
  let m := (2 * quotient + sticky)%Z in
  SF2Prim (binary_normalize 53 1024 (if (n <? 0)%Z then - m else m)%Z (- k - 1) false).

(** The exact value of a finite double. *)
Definition to_Q (x : double) : option Q :=
  match Prim2SF x with
  | S754_zero _ => Some 0%Q
  | S754_finite s m e =>
      let v := (inject_Z (Z.pos m) * (if (0 <=? e)%Z then inject_Z (2 ^ e)
                                      else / inject_Z (2 ^ (- e))))%Q in
      Some (if s then - v else v)%Q
  | S754_infinity _ | S754_nan => None
  end.

(** [round(x, 2)]: the exact value is rounded to the nearest hundredth,
    ties to even, and the hundredth read back as a double; the sign is
    kept, and an infinity or [nan] is returned as it is. *)
Definition round2 (x : double) : double :=
  match to_Q x with
  | Some q =>
      let r := of_Q (Num.round_half_even (Qabs q * 100) # 100) in
      if get_sign x then (- r)%float else r
  | None => x
  end.

(** [sum(l)], and a running total [t += x]: the additions are made from
    the left, each one rounded. *)
Definition sum (l : list double) : double := foldl PrimFloat.add 0%float l.

(** [float(n)] for an [int]. *)
Definition float_of_int (n : Z) : outcome double :=
  let x := of_Q (inject_Z n) in
  if is_infinity x then Raised "OverflowError" else Returned x.

(** [a / b] on floats. *)
Definition py_div (a b : double) : outcome double :=
  if (b =? 0)%float then Raised "ZeroDivisionError" else Returned (a / b)%float.

(** [a / n] for a float by an [int]: the integer is converted first, which
    raises when it is beyond the doubles; then a zero divisor raises, and
    the converted integer is zero exactly when the integer is. *)
Definition div_int (a : double) (n : Z) : outcome double :=
  b ← float_of_int n;
  if (n =? 0)%Z then Raised "ZeroDivisionError" else Returned (a / b)%float.

(** White space that [float] skips around its argument. *)
Definition is_blank (c : ascii) : bool :=
  ((9 <=? Text.code c)%N && (Text.code c <=? 13)%N) || (Text.code c =? 32)%N.

Fixpoint skip_blanks (s : string) : string :=
  match s with
  | EmptyString => EmptyString
  | String c s' => if is_blank c then skip_blanks s' else s
  end.

Fixpoint drop_trailing_blanks (s : string) : string :=
  match s with
  | EmptyString => EmptyString
  | String c s' =>
      match drop_trailing_blanks s' with
      | EmptyString => if is_blank c then EmptyString else String c EmptyString
      | t => String c t
      end
  end.

(** Digit separators: an underscore must stand between two digits; the
    text without them. *)
Fixpoint drop_underscores (after_digit : bool) (s : string) : option string :=
  match s with
  | EmptyString => Some EmptyString
  | String c s' =>
      if Ascii.eqb c "_"%char then
        match s' with
        | String d _ =>
            if after_digit && Text.is_digit d then drop_underscores false s' else None
        | EmptyString => None
        end
      else String c <$> drop_underscores (Text.is_digit c) s'
  end.

(** A leading sign and the text after it. *)
Definition split_sign (s : string) : bool * string :=
  match s with
  | String c rest =>
      if Ascii.eqb c "-"%char then (true, rest)
      else if Ascii.eqb c "+"%char then (false, rest)
      else (false, s)
  | EmptyString => (false, s)
  end.

(** The text before the first [e] or [E] and, when there is one, the text
    after it. *)
Fixpoint split_exponent (s : string) : string * option string :=
  match s with
  | EmptyString => (EmptyString, None)
  | String c s' =>
      if Ascii.eqb c "e"%char || Ascii.eqb c "E"%char then (EmptyString, Some s')
      else let '(a, b) := split_exponent s' in (String c a, b)
  end.

(** An exponent: an optional sign and at least one digit. *)
Definition exponent_value (s : string) : option Z :=
  let '(negative, digits) := split_sign s in
  if (String.length digits =? 0)%nat then None
  else n ← Num.digits_value 0 digits;
       Some (if negative then - Z.of_N n else Z.of_N n)%Z.

(** The double nearest to [m * 10 ^ e]. Exponents beyond the range of a
    double are settled without computing the power. *)
Definition scale10 (m : N) (e : Z) : double :=
  if (m =? 0)%N then 0%float
  else if (400 <? e)%Z then infinity
  else if (e + Z.log2 (Z.of_N m) + 1 <? -400)%Z then 0%float
  else if (0 <=? e)%Z then of_Q (inject_Z (Z.of_N m * 10 ^ e))
  else of_Q (Z.of_N m # Z.to_pos (10 ^ (- e))).

(** The literals [12], [12.], [.5], [12.5], each with an optional
    exponent [e3], [E-3]. *)
Definition decimal (s : string) : option double :=
  let '(mantissa, exponent) := split_exponent s in
  let '(ip, fp) := Num.split_dot mantissa in
  let fp := default EmptyString fp in
  if (String.length ip + String.length fp =? 0)%nat then None
  else
    i ← Num.digits_value 0 ip;
    f ← Num.digits_value 0 fp;
    e ← match exponent with
        | Some t => exponent_value t
        | None => Some 0%Z
        end;
    Some (scale10 (i * 10 ^ N.of_nat (String.length fp) + f)
                  (e - Z.of_nat (String.length fp))).

(** [float(s)] on ASCII text: surrounding blanks are skipped, then come an
    optional sign and a decimal literal, [inf], [infinity] or [nan] in any
    case; [None] stands for [ValueError]. *)
Definition float_of_string (s : string) : option double :=
  t ← drop_underscores false (drop_trailing_blanks (skip_blanks s));
  let '(negative, body) := split_sign t in
  magnitude ←
    (if String.eqb (Text.lower body) "inf" || String.eqb (Text.lower body) "infinity"
     then Some infinity
     else if String.eqb (Text.lower body) "nan" then Some nan
     else decimal body);
  Some (if negative then - magnitude else magnitude)%float.

(** [float(v)] *)
Definition py_float (v : pyval) : outcome double :=
  match v with
  | PyFloat q => Returned (of_Q q)
  | PyStr s =>
      match float_of_string s with
      | Some x => Returned x
      | None => Raised "ValueError"
      end
  | PyNone => Raised "TypeError"
  end.

End Double.

(** ** Documents of the collections *)

Abbreviation Id := N.

(** [raw_sms], a message whose body, when it has one, is a text: every
    field but [_id] is read with [.get] and a default. *)
Record Sms : Type := {
  sms_id : Id;
  sms_body : option string;
  sms_address : option string;
  sms_readable_date : option string
}.

(** [expenses]: manual entries, produced outside the pipeline. *)
Record Expense : Type := {
  expense_id : Id;
  expenseName : option string;
  expenseAmount : option pyval
}.

(** [transactions]; the amount is the exact value of the parsed text, which
    the store holds as the double nearest to it. *)
Record Transaction : Type := {
  t_id : Id;
  t_Date : string;
  t_Address : string;
  t_Amount : Q;
  t_Recipient : string;
  t_Transaction_Type : string;
  t_Body : string
}.

(** [categorized_transactions]: read back by the aggregator and the budget
    analyzer, so the fields they read may be absent or of another type. *)
Record Categorized : Type := {
  c_id : Id;
  c_Date : string;
  c_Address : string;
  c_Amount : option pyval;
  c_Recipient : string;
  c_Transaction_Type : option string;
  c_Body : string;
  c_Category : option string;
  c_Verified : bool
}.

(** [categorycharts], keyed by its [_id], the display category. *)
Record Chart : Type := {
  chart_category : string;
  chart_value : Double.double
}.

(** ** transaction_processor.py *)

Module TransactionProcessor.

Import Text.

(** The fitted vectorizer, model and label encoder as one black box:
    cleaned text to label, or an exception. *)
Definition Predictor : Type := string -> outcome string.

Record Processor : Type := {
  raw_collection : list Sms;
  manual_collection : list Expense;
  processed_collection : list Transaction;
  categorized_collection : list Categorized;
  combined_collection : gmap string Chart;
  model : option Predictor;
  processed_ids : gset N;
  (** ghost: the texts handed to the model so far *)
  model_calls : list string
}.

Definition set_raw_collection (v : list Sms) (p : Processor) : Processor :=
  {| raw_collection := v; manual_collection := manual_collection p;
     processed_collection := processed_collection p;
     categorized_collection := categorized_collection p;
     combined_collection := combined_collection p; model := model p;
     processed_ids := processed_ids p; model_calls := model_calls p |}.

Definition set_manual_collection (v : list Expense) (p : Processor) : Processor :=
  {| raw_collection := raw_collection p; manual_collection := v;
     processed_collection := processed_collection p;
     categorized_collection := categorized_collection p;
     combined_collection := combined_collection p; model := model p;
     processed_ids := processed_ids p; model_calls := model_calls p |}.

Definition set_processed_collection (v : list Transaction) (p : Processor) : Processor :=
  {| raw_collection := raw_collection p; manual_collection := manual_collection p;
     processed_collection := v; categorized_collection := categorized_collection p;
     combined_collection := combined_collection p; model := model p;
     processed_ids := processed_ids p; model_calls := model_calls p |}.

Definition set_categorized_collection (v : list Categorized) (p : Processor) : Processor :=
  {| raw_collection := raw_collection p; manual_collection := manual_collection p;
     processed_collection := processed_collection p; categorized_collection := v;
     combined_collection := combined_collection p; model := model p;
     processed_ids := processed_ids p; model_calls := model_calls p |}.

Definition set_combined_collection (v : gmap string Chart) (p : Processor) : Processor :=
  {| raw_collection := raw_collection p; manual_collection := manual_collection p;
     processed_collection := processed_collection p;
     categorized_collection := categorized_collection p;
     combined_collection := v; model := model p;
     processed_ids := processed_ids p; model_calls := model_calls p |}.

Definition set_processed_ids (v : gset N) (p : Processor) : Processor :=
  {| raw_collection := raw_collection p; manual_collection := manual_collection p;
     processed_collection := processed_collection p;
     categorized_collection := categorized_collection p;
     combined_collection := combined_collection p; model := model p;
     processed_ids := v; model_calls := model_calls p |}.

Definition set_model_calls (v : list string) (p : Processor) : Processor :=
  {| raw_collection := raw_collection p; manual_collection := manual_collection p;
     processed_collection := processed_collection p;
     categorized_collection := categorized_collection p;
     combined_collection := combined_collection p; model := model p;
     processed_ids := processed_ids p; model_calls := v |}.

(** Methods run in a state-and-exception monad over the processor: an
    exception keeps the mutations made before it. *)
Definition M (A : Type) : Type := Processor -> outcome A * Processor.

#[global] Instance M_ret : MRet M := fun A a p => (Returned a, p).
#[global] Instance M_bind : MBind M := fun A B f m p =>
  match m p with
  | (Returned a, p') => f a p'
  | (Raised e, p') => (Raised e, p')
  end.

Definition get : M Processor := fun p => (Returned p, p).
Definition modify (f : Processor -> Processor) : M unit := fun p => (Returned tt, f p).
Definition lift {A : Type} (o : outcome A) : M A := fun p => (o, p).

(** [try: m except Exception as e: handler(e)] *)
Definition try_except {A : Type} (m : M A) (handler : string -> M A) : M A := fun p =>
  match m p with
  | (Returned a, p') => (Returned a, p')
  | (Raised e, p') => handler e p'
  end.

Fixpoint for_each {A : Type} (xs : list A) (body : A -> M unit) : M unit :=
  match xs with
  | [] => mret tt
  | x :: xs' => body x;; for_each xs' body
  end.

Definition category_mapping : gmap string string :=
  list_to_map [
    ("Essentials", "Essentials");
    ("Food & Dining", "Food");
    ("Shopping", "Shopping");
    ("Entertainment & Lifestyle", "Lifestyle");
    ("Savings & Transfers", "Savings");
    ("Travel & Transportation", "Travel");
    ("Subscriptions & Services", "Subscription");
    ("Miscellaneous", "Misc.")
  ].

Definition transaction_categories : list string :=
  ["debited"; "credited"; "sent"; "received"; "payment successful"; "amount sent"].

Definition non_transactional : list string :=
  ["offer"; "promotion"; "hurry"; "discount"; "click here"; "thanks for recharge"].

(** [re.sub(r'[^\w\s]', '', str(text)).lower()] *)
Definition clean_text (text : string) : string :=
  lower (filter_chars (fun c => is_word c || is_space c) text).

Definition initialize_processed_ids (processed : list Transaction)
    (categorized : list Categorized) (manual : list Expense) : gset N :=
  let processed_ids : gset N := ∅ in
  let processed_ids := foldl (fun ids doc => ids ∪ {[ t_id doc ]}) processed_ids processed in
  let processed_ids := foldl (fun ids doc => ids ∪ {[ c_id doc ]}) processed_ids categorized in
  let processed_ids := foldl (fun ids doc => ids ∪ {[ expense_id doc ]}) processed_ids manual in
  processed_ids.

(** [(INR|Rs\.?|₹)] without its group *)
Definition currency_pattern : Re.regex :=
  Re.Alt (Re.Lit "INR")
    (Re.Alt (Re.Seq (Re.Lit "Rs") (Re.Opt (Re.Chr "."%char)))
            (Re.Lit "₹")).

Definition is_separator (c : ascii) : bool :=
  Ascii.eqb c ","%char || Ascii.eqb c "."%char.

(** [\d+[,.]?\d*] *)
Definition number_pattern : Re.regex :=
  Re.Seq (Re.Plus (Re.Cls is_digit))
    (Re.Seq (Re.Opt (Re.Cls is_separator)) (Re.Star (Re.Cls is_digit))).

(** The pattern [(?i)(INR|Rs\.?|₹)\s?(\d+[,.]?\d* )]: a currency marker,
    an optional white space, and the number as group 2. *)
Definition money_pattern : Re.regex :=
  Re.Seq (Re.Grp 1 currency_pattern)
    (Re.Seq (Re.Opt (Re.Cls is_space)) (Re.Grp 2 number_pattern)).

(** The pattern [to\s([A-Za-z\s]+)], searched with [re.IGNORECASE]. *)
Definition recipient_pattern : Re.regex :=
  Re.Seq (Re.Lit "to")
    (Re.Seq (Re.Cls is_space)
       (Re.Grp 1 (Re.Plus (Re.Cls (fun c => is_alpha c || is_space c))))).

(** [m.group(n)] of a group that took part in the match. *)
Definition group_text (n : nat) (caps : Re.captures) : string :=
  default EmptyString (Re.group n caps).

Definition parse_transaction_details (body : string) : string * string * string :=
  let money_match := Re.search true money_pattern body in
  let amount :=
    match money_match with
    | Some m => remove_char ","%char (group_text 2 m)
    | None => "0"
    end in
  let recipient_match := Re.search true recipient_pattern body in
  let recipient :=
    match recipient_match with
    | Some m => strip (group_text 1 m)
    | None => "N/A"
    end in
  let transaction_type :=
    if contains "credited" (lower body) || contains "received" (lower body) then "credited"
    else if contains "debited" (lower body) || contains "sent" (lower body) then "debited"
    else "N/A" in
  (amount, recipient, transaction_type).

(** [vectorizer.transform], [model.predict] and [inverse_transform] on the
    cleaned text; the call is recorded in [model_calls]. *)
Definition predict (cleaned_text : string) : M string := fun p =>
  match model p with
  | Some f => (f cleaned_text, set_model_calls (model_calls p ++ [cleaned_text]) p)
  | None => (Raised "AttributeError", p)
  end.

Definition classify_transaction (body transaction_type : string) : M string :=
  self ← get;
  if bool_decide (model self = None) || String.eqb transaction_type "N/A"
  then mret "Miscellaneous"
  else
    try_except
      (let cleaned_text := clean_text body in
       category ← predict cleaned_text;
       mret (if String.eqb (lower transaction_type) "credited"
             then "Savings & Transfers" else category))
      (fun e => mret "Miscellaneous").

(** [update_one({"_id": id}, {"$setOnInsert": doc}, upsert=True)] *)
Definition upsert_set_on_insert {D : Type} (key : D -> N) (id : N) (doc : D)
    (collection : list D) : list D :=
  if existsb (fun d => N.eqb (key d) id) collection then collection
  else collection ++ [doc].

Definition save_transaction (now : string) (sms : Sms) (amount : Q)
    (recipient transaction_type category body : string) : M unit :=
  let transaction_data :=
    {| t_id := sms_id sms;
       t_Date := default now (sms_readable_date sms);
       t_Address := default "Unknown" (sms_address sms);
       t_Amount := amount;
       t_Recipient := recipient;
       t_Transaction_Type := transaction_type;
       t_Body := body |} in
  modify (fun p => set_processed_collection
            (upsert_set_on_insert t_id (sms_id sms) transaction_data (processed_collection p)) p);;
  let categorized_data :=
    {| c_id := t_id transaction_data;
       c_Date := t_Date transaction_data;
       c_Address := t_Address transaction_data;
       c_Amount := Some (PyFloat (t_Amount transaction_data));
       c_Recipient := t_Recipient transaction_data;
       c_Transaction_Type := Some (t_Transaction_Type transaction_data);
       c_Body := t_Body transaction_data;
       c_Category := Some category;
       c_Verified := negb (String.eqb category "Miscellaneous") |} in
  modify (fun p => set_categorized_collection
            (upsert_set_on_insert c_id (sms_id sms) categorized_data (categorized_collection p)) p).

Definition is_transactional (sms_body : string) : bool :=
  negb (negb (any_in transaction_categories (lower sms_body))
        || any_in non_transactional (lower sms_body)).

Definition process_single_sms (now : string) (sms : Sms) : M bool :=
  let sms_body := default EmptyString (sms_body sms) in
  if negb (any_in transaction_categories (lower sms_body))
     || any_in non_transactional (lower sms_body)
  then mret false
  else
    let '(amount, recipient, transaction_type) := parse_transaction_details sms_body in
    amount_float ← (if negb (String.eqb amount EmptyString)
                    then lift (py_float (PyStr amount)) else mret 0%Q);
    category ← classify_transaction sms_body transaction_type;
    save_transaction now sms amount_float recipient transaction_type category sms_body;;
    mret true.

(** One step of either summing loop of [update_combined_transactions]. *)
Definition add_to_total (original_cat : string) (amount : pyval)
    (category_totals : gmap string Double.double)
    : outcome (gmap string Double.double) :=
  match category_mapping !! original_cat with
  | Some new_cat =>
      amt ← Double.py_float amount;
      mret (<[new_cat := (default 0 (category_totals !! new_cat) + amt)%float]>
              category_totals)
  | None => mret category_totals
  end.

Definition category_totals_of (categorized : list Categorized) (manual : list Expense)
    : outcome (gmap string Double.double) :=
  let category_totals : gmap string Double.double := ∅ in
  category_totals ←
    fold_outcome (fun doc =>
        add_to_total (default "Miscellaneous" (c_Category doc))
                     (default (PyFloat 0) (c_Amount doc)))
      categorized category_totals;
  fold_outcome (fun doc =>
      add_to_total (default "Miscellaneous" (expenseName doc))
                   (default (PyFloat 0) (expenseAmount doc)))
    manual category_totals.

(** What the aggregator reads from a categorized transaction and from a
    manual entry: the source category and the amount field. *)
Definition categorized_entry (doc : Categorized) : string * pyval :=
  (default "Miscellaneous" (c_Category doc), default (PyFloat 0) (c_Amount doc)).

Definition expense_entry (doc : Expense) : string * pyval :=
  (default "Miscellaneous" (expenseName doc), default (PyFloat 0) (expenseAmount doc)).

Definition aggregation_entries (categorized : list Categorized) (manual : list Expense)
    : list (string * pyval) :=
  (categorized_entry <$> categorized) ++ (expense_entry <$> manual).

(** The amounts of all records whose renamed category is [bucket]. *)
Definition bucket_amounts (bucket : string) (entries : list (string * pyval))
    : list Double.double :=
  omap (fun e : string * pyval =>
          if bool_decide (category_mapping !! e.1 = Some bucket)
          then match Double.py_float e.2 with
               | Returned amt => Some amt
               | Raised _ => None
               end
          else None)
       entries.

Definition update_combined_transactions : M unit :=
  modify (set_combined_collection ∅);;
  self ← get;
  category_totals ← lift (category_totals_of (categorized_collection self)
                                              (manual_collection self));
  modify (fun p =>
    set_combined_collection
      (map_fold (fun category total collection =>
                   <[category := {| chart_category := category;
                                    chart_value := Double.round2 total |}]> collection)
                (combined_collection p) category_totals) p).

(** The statement
    [if self.process_single_sms(sms): self.processed_ids.add(sms["_id"])];
    the result tells whether the message was stored. *)
Definition process_and_mark (now : string) (sms : Sms) : M bool :=
  ok ← process_single_sms now sms;
  (if ok : bool
   then modify (fun p => set_processed_ids (processed_ids p ∪ {[ sms_id sms ]}) p)
   else mret tt);;
  mret ok.

(** [find({"_id": {"$nin": list(processed_ids)}})] *)
Definition find_not_in (ids : gset N) (raw : list Sms) : list Sms :=
  List.filter (fun sms => bool_decide (sms_id sms ∉ ids)) raw.

Definition manual_id_set (manual : list Expense) : gset N :=
  list_to_set (expense_id <$> manual).

Definition process_manual_entries : M unit :=
  self ← get;
  let manual_ids := manual_id_set (manual_collection self) in
  modify (fun p => set_processed_ids (processed_ids p ∪ manual_ids) p);;
  update_combined_transactions.

Definition process_sms_messages (now : string) : M unit :=
  self ← get;
  new_sms_processed ←
    foldl (fun acc sms =>
             new_sms_processed ← acc;
             ok ← process_and_mark now sms;
             mret (if ok : bool then true else new_sms_processed))
          (mret false)
          (find_not_in (processed_ids self) (raw_collection self));
  if new_sms_processed : bool then update_combined_transactions else mret tt.

(** [process_new_data], first half: the manual entries not yet marked are
    marked, and the totals recomputed when there were any. *)
Definition mark_new_manual_entries : M nat :=
  self ← get;
  let manual_ids := manual_id_set (manual_collection self) in
  let new_manual_ids := manual_ids ∖ processed_ids self in
  (if bool_decide (new_manual_ids ≠ ∅)
   then modify (fun p => set_processed_ids (processed_ids p ∪ new_manual_ids) p);;
        update_combined_transactions
   else mret tt);;
  mret (size new_manual_ids).

(** [process_new_data], second half: the raw messages not yet marked. *)
Definition ingest_new_sms (now : string) : M nat :=
  self ← get;
  let new_sms := find_not_in (processed_ids self) (raw_collection self) in
  (if negb (bool_decide (new_sms = []))
   then for_each new_sms (fun sms => process_and_mark now sms;; mret tt);;
        update_combined_transactions
   else mret tt);;
  mret (length new_sms).

Definition process_new_data (now : string) : M nat :=
  new_manual_ids ← mark_new_manual_entries;
  new_sms ← ingest_new_sms now;
  mret (new_manual_ids + new_sms).

(** [__init__]: the collections as found, the model loaded or trained, and
    the processed ids seeded from the three stores. *)
Definition init (raw : list Sms) (manual : list Expense) (processed : list Transaction)
    (categorized : list Categorized) (combined : gmap string Chart)
    (fitted : option Predictor) : Processor :=
  {| raw_collection := raw; manual_collection := manual;
     processed_collection := processed; categorized_collection := categorized;
     combined_collection := combined; model := fitted;
     processed_ids := initialize_processed_ids processed categorized manual;
     model_calls := [] |}.

End TransactionProcessor.

(** ** The dedup tracker and the life of a processor *)

Module Dedup.

Import TransactionProcessor.

Definition transaction_ids (p : Processor) : gset N :=
  list_to_set (t_id <$> processed_collection p).

Definition categorized_ids (p : Processor) : gset N :=
  list_to_set (c_id <$> categorized_collection p).

Definition manual_ids (p : Processor) : gset N :=
  manual_id_set (manual_collection p).

(** Ids with a record written by the pipeline. *)
Definition stored_ids (p : Processor) : gset N :=
  transaction_ids p ∪ categorized_ids p.

(** Ids with a persisted Transaction, CategorizedTransaction or ManualEntry. *)
Definition persisted_ids (p : Processor) : gset N :=
  stored_ids p ∪ manual_ids p.

(** Every raw message is marked or is one the keyword filter discards. *)
Definition settled (p : Processor) : Prop :=
  forall sms, sms ∈ raw_collection p ->
    sms_id sms ∈ processed_ids p
    \/ is_transactional (default EmptyString (sms_body sms)) = false.

(** One event in the life of a processor: a record arrives from outside,
    or one of the ingestion methods runs. *)
Inductive step : Processor -> Processor -> Prop :=
| step_sms_arrives p sms :
    step p (set_raw_collection (raw_collection p ++ [sms]) p)
| step_expense_arrives p e :
    step p (set_manual_collection (manual_collection p ++ [e]) p)
| step_process_new_data p now :
    step p (snd (process_new_data now p))
| step_process_manual_entries p :
    step p (snd (process_manual_entries p))
| step_process_sms_messages p now :
    step p (snd (process_sms_messages now p)).

Inductive reachable : Processor -> Prop :=
| reachable_init raw manual processed categorized combined fitted :
    reachable (init raw manual processed categorized combined fitted)
| reachable_step p p' : reachable p -> step p p' -> reachable p'.

(** How an ingestion method may change a processor: the sources and the
    model stay, the two stores only grow at their end, unique ids stay
    unique, and every id newly stored is marked. *)
Definition extends (p p' : Processor) : Prop :=
  raw_collection p' = raw_collection p
  /\ manual_collection p' = manual_collection p
  /\ model p' = model p
  /\ processed_collection p `prefix_of` processed_collection p'
  /\ categorized_collection p `prefix_of` categorized_collection p'
  /\ (NoDup (t_id <$> processed_collection p) ->
      NoDup (t_id <$> processed_collection p'))
  /\ (NoDup (c_id <$> categorized_collection p) ->
      NoDup (c_id <$> categorized_collection p'))
  /\ processed_ids p ⊆ processed_ids p'
  /\ stored_ids p' ⊆ stored_ids p ∪ processed_ids p'.

(** The two stores written by the pipeline are the same in both states. *)
Definition same_stores (p p' : Processor) : Prop :=
  processed_collection p' = processed_collection p
  /\ categorized_collection p' = categorized_collection p.

(** A method keeps a relation when its final state, whether it returned
    or raised, is related to the state it started from. *)
Definition preserves {A : Type} (R : relation Processor) (m : M A) : Prop :=
  forall p, R p (snd (m p)).

End Dedup.


(** ** home_page.py: the script the processor class was refactored from

    Its helper functions are the same text as the methods above; its SMS
    loop differs in how it marks a filtered message. *)

Module HomePage.

Import Text TransactionProcessor.

Definition sms_loop_body (now : string) (flag : bool) (sms : Sms) : M bool :=
  let sms_id := sms_id sms in
  let sms_body := default EmptyString (sms_body sms) in
  if negb (any_in transaction_categories (lower sms_body))
     || any_in non_transactional (lower sms_body)
  then modify (fun p => set_processed_ids (processed_ids p ∪ {[ sms_id ]}) p);;
       mret flag
  else
    let '(amount, recipient, transaction_type) := parse_transaction_details sms_body in
    amount_float ← (if negb (String.eqb amount EmptyString)
                    then lift (py_float (PyStr amount)) else mret 0%Q);
    category ← classify_transaction sms_body transaction_type;
    save_transaction now sms amount_float recipient transaction_type category sms_body;;
    modify (fun p => set_processed_ids (processed_ids p ∪ {[ sms_id ]}) p);;
    mret true.

Definition process_new_sms (now : string) : M unit :=
  self ← get;
  new_sms_processed ←
    foldl (fun acc sms => flag ← acc; sms_loop_body now flag sms)
          (mret false)
          (find_not_in (processed_ids self) (raw_collection self));
  if new_sms_processed : bool then update_combined_transactions else mret tt.

End HomePage.

(** ** budget_analyzer.py *)

Module BudgetAnalyzer.

(** A value of the [goals] dictionary built by [get_user_goals]. *)
Record Goal : Type := {
  goalName : string;
  targetAmount : Double.double;
  timeframe : Z
}.

(** [aicategories], keyed by its [_id], the category. *)
Record Recommendation : Type := {
  rec_category : string;
  rec_current : Double.double;
  rec_recommended : Double.double
}.

Definition excluded_categories : gset string :=
  {[ "Healthcare"; "Education"; "Essentials" ]}.


(** [doc[field]] *)
Definition field {A : Type} (v : option A) : outcome A :=
  match v with
  | Some a => Returned a
  | None => Raised "KeyError"
  end.






(** [g["targetAmount"] / g["timeframe"]], a float by an [int]. *)
Definition monthly_target (g : Goal) : outcome Double.double :=
  Double.div_int (targetAmount g) (timeframe g).

(** [sum(g["targetAmount"] / g["timeframe"] for g in valid_goals.values())] *)
Definition total_monthly_target (valid_goals : list (N * Goal)) : outcome Double.double :=
  fold_outcome (fun ig acc => t ← monthly_target (snd ig); mret (acc + t)%float)
               valid_goals 0%float.

(** [goals] is the dictionary in insertion order: a later goal with the
    name of an earlier one overwrites its entry of [allocated]. *)
Definition allocate_savings_to_goals (total_savings : Double.double)
    (goals : list (N * Goal)) : outcome (gmap string Double.double) :=
  let valid_goals := List.filter (fun ig => (0 <? timeframe (snd ig))%Z) goals in
  total_monthly_target ← total_monthly_target valid_goals;
  if (total_monthly_target =? 0)%float then mret ∅
  else
    fold_outcome (fun ig allocated =>
        let g := snd ig in
        monthly_target ← monthly_target g;
        share ← Double.py_div monthly_target total_monthly_target;
        mret (<[goalName g := (share * total_savings)%float]> allocated))
      valid_goals ∅.

(** The body of the loop of [get_current_spending]. *)
Definition current_spending_step (item : Categorized)
    (current : gmap string Double.double) : outcome (gmap string Double.double) :=
  transaction_type ← field (c_Transaction_Type item);
  if String.eqb transaction_type "debited"
  then
    cat ← field (c_Category item);
    if bool_decide (cat ∈ excluded_categories) then mret current
    else
      match amount ← field (c_Amount item); Double.py_float amount with
      | Returned amt => mret (<[cat := (default 0 (current !! cat) + amt)%float]> current)
      | Raised _ => mret current
      end
  else mret current.

Definition get_current_spending (data : list Categorized)
    : outcome (gmap string Double.double) :=
  fold_outcome current_spending_step data ∅.

(** The amounts that count towards the current spend of [category]: those
    of the debited transactions of that category, unless it is excluded,
    whose amount converts with [float]. *)
Definition debited_amounts (category : string) (data : list Categorized)
    : list Double.double :=
  omap (fun item =>
          if bool_decide (c_Transaction_Type item = Some "debited"
                          /\ c_Category item = Some category
                          /\ category ∉ excluded_categories)
          then match amount ← field (c_Amount item); Double.py_float amount with
               | Returned amt => Some amt
               | Raised _ => None
               end
          else None)
       data.

(** The amount of the document, when it is a text, is ASCII. *)
Definition ascii_amount (item : Categorized) : bool :=
  from_option ascii_value true (c_Amount item).

(** The same transaction under another date. *)
Definition set_date (date : string) (item : Categorized) : Categorized :=
  {| c_id := c_id item; c_Date := date; c_Address := c_Address item;
     c_Amount := c_Amount item; c_Recipient := c_Recipient item;
     c_Transaction_Type := c_Transaction_Type item; c_Body := c_Body item;
     c_Category := c_Category item; c_Verified := c_Verified item |}.

(** The [aicategories] collection after [delete_many] and the inserts. *)
Definition save_recommendations (current recommended : gmap string Double.double)
    : gmap string Recommendation :=
  map_fold (fun category amount collection =>
              <[category := {| rec_category := category;
                               rec_current :=
                                 Double.round2 (default 0%float (current !! category));
                               rec_recommended := Double.round2 amount |}]> collection)
           ∅ recommended.

End BudgetAnalyzer.

(** ** 4.py: the stand-alone budgeting script *)

Module Script4.

Import BudgetAnalyzer.

(** As above, without the test on a zero total. *)
Definition allocate_savings_to_goals (total_savings_potential : Double.double)
    (goals : list (N * Goal)) : outcome (gmap string Double.double) :=
  let valid_goals := List.filter (fun ig => (0 <? timeframe (snd ig))%Z) goals in
  total_monthly_target ← total_monthly_target valid_goals;
  fold_outcome (fun ig allocated_savings =>
      let g := snd ig in
      monthly_target ← monthly_target g;
      share ← Double.py_div monthly_target total_monthly_target;
      mret (<[goalName g := (share * total_savings_potential)%float]> allocated_savings))
    valid_goals ∅.

End Script4.

(** ** Sample data used by the examples below *)

Module Samples.

Import TransactionProcessor.

Definition empty_processor (m : option Predictor) : Processor :=
  {| raw_collection := []; manual_collection := []; processed_collection := [];
     categorized_collection := []; combined_collection := ∅; model := m;
     processed_ids := ∅; model_calls := [] |}.

(** A fitted model that labels every text "Shopping". *)
Definition always_shopping : Predictor := fun _ => Returned "Shopping".

(** A model whose vectorizer was never fitted. *)
Definition not_fitted : Predictor := fun _ => Raised "NotFittedError".

(** A promotional message: the keyword filter discards it. *)
Definition promo_sms : Sms :=
  {| sms_id := 7; sms_body := Some "Hurry! 50% discount offer, click here";
     sms_address := Some "AD-SHOP"; sms_readable_date := Some "2025-01-05 10:00:00" |}.

(** A payment notification. *)
Definition payment_sms : Sms :=
  {| sms_id := 8; sms_body := Some "Rs. 1,500 sent to John Doe";
     sms_address := Some "AX-BANK"; sms_readable_date := None |}.

Definition lunch_expense : Expense :=
  {| expense_id := 5; expenseName := Some "Food & Dining";
     expenseAmount := Some (PyFloat 120) |}.





Definition categorized_doc (id : N) (transaction_type category : string) (amount : Q)
    : Categorized :=
  {| c_id := id; c_Date := "2025-01-05 10:00:00"; c_Address := "AX-BANK";
     c_Amount := Some (PyFloat amount); c_Recipient := "N/A";
     c_Transaction_Type := Some transaction_type; c_Body := EmptyString;
     c_Category := Some category; c_Verified := true |}.

(** A processor whose categorized store holds the given documents. *)
Definition with_categorized (docs : list Categorized) : Processor :=
  {| raw_collection := []; manual_collection := []; processed_collection := [];
     categorized_collection := docs; combined_collection := ∅; model := None;
     processed_ids := ∅; model_calls := [] |}.

(** A small transaction and one of another category, both debited. *)
Definition small_and_other : list Categorized :=
  [categorized_doc 1 "debited" "Shopping" (4 # 1000);
   categorized_doc 2 "debited" "Food & Dining" 50].

Definition shopping_budget : gmap string Double.double := {[ "Shopping" := 80%float ]}.

End Samples.

(** * Specification vocabulary and further code *)

Module TextSpec.
Import Text.
(** The characters [clean_text] can leave: lower-case letters, digits, the
    underscore and white space. *)
Definition is_clean (c : ascii) : bool :=
  is_lower c || is_digit c || (code c =? 95)%N || is_space c.

(** The characters an amount text is made of. *)
Definition is_amount_char (c : ascii) : bool :=
  is_digit c || Ascii.eqb c "."%char.

(** The characters the recipient group can hold. *)
Definition is_name_char (c : ascii) : bool := is_alpha c || is_space c.
End TextSpec.

Module StoreSpec.
Import Text TransactionProcessor Dedup.

(** The [transaction_data] dictionary that [save_transaction] builds. *)
Definition transaction_of (now : string) (sms : Sms) (amount : Q)
    (recipient transaction_type body : string) : Transaction :=
  {| t_id := sms_id sms;
     t_Date := default now (sms_readable_date sms);
     t_Address := default "Unknown" (sms_address sms);
     t_Amount := amount;
     t_Recipient := recipient;
     t_Transaction_Type := transaction_type;
     t_Body := body |}.

(** The [categorized_data] dictionary built from it. *)
Definition categorized_of (t : Transaction) (category : string) : Categorized :=
  {| c_id := t_id t;
     c_Date := t_Date t;
     c_Address := t_Address t;
     c_Amount := Some (PyFloat (t_Amount t));
     c_Recipient := t_Recipient t;
     c_Transaction_Type := Some (t_Transaction_Type t);
     c_Body := t_Body t;
     c_Category := Some category;
     c_Verified := negb (String.eqb category "Miscellaneous") |}.

(** A categorized record is the copy of a transaction record with a
    category added. *)
Definition mirrors (t : Transaction) (c : Categorized) : Prop :=
  exists category, c = categorized_of t category.

(** The two stores hold the same transactions in the same order. *)
Definition paired (p : Processor) : Prop :=
  Forall2 mirrors (processed_collection p) (categorized_collection p).

(** A state property kept from one state to a later one. *)
Definition keeps (I : Processor -> Prop) : relation Processor :=
  fun p p' => I p -> I p'.

End StoreSpec.

Module ViewSpec.
Import Text TransactionProcessor Dedup StoreSpec.

(** The aggregator gets past an entry when its category is outside the
    renaming table, or its amount converts with [float]. *)
Definition entry_converts (e : string * pyval) : bool :=
  match category_mapping !! e.1, Double.py_float e.2 with
  | Some _, Raised _ => false
  | _, _ => true
  end.

(** The amount of the entry, when it is a text, is ASCII. *)
Definition ascii_entry (e : string * pyval) : bool := ascii_value e.2.

(** The stores are paired and no manual entry stops the aggregator. *)
Definition summable (p : Processor) : Prop :=
  paired p /\ forallb entry_converts (expense_entry <$> manual_collection p) = true.

(** From a state with [I] the method returns, in a state with [I]. *)
Definition safe {A : Type} (I : Processor -> Prop) (m : M A) : Prop :=
  forall p, I p -> exists a, fst (m p) = Returned a /\ I (snd (m p)).

End ViewSpec.

Module BudgetSpec.
Import BudgetAnalyzer.

(** The historical amounts of the categories outside the excluded set. *)
Definition non_excluded (monthly_spending : gmap string Q) : gmap string Q :=
  filter (fun kv => kv.1 ∉ excluded_categories) monthly_spending.

(** The scan of [get_current_spending] can read a document when it has a
    "Transaction Type" and, if that is "debited", a "Category". *)
Definition scannable (item : Categorized) : bool :=
  match c_Transaction_Type item with
  | None => false
  | Some transaction_type =>
      if String.eqb transaction_type "debited"
      then bool_decide (is_Some (c_Category item)) else true
  end.

End BudgetSpec.

(** ** raw_sms as it is stored *)

Module RawSms.
Import TransactionProcessor.

(** What a stored message holds under "body": nothing, a text, or a value
    of another type (null, a number), which has no [lower]. *)
Inductive body_value : Type :=
| body_missing
| body_text (s : string)
| body_other.

(** A document of [raw_sms] before its body is read. *)
Record Doc : Type := {
  doc_id : Id;
  doc_body : body_value;
  doc_address : option string;
  doc_readable_date : option string
}.

(** The body is a text, or there is none. *)
Definition readable (d : Doc) : bool :=
  match doc_body d with
  | body_other => false
  | _ => true
  end.

(** The message the methods work on, for a readable document. *)
Definition sms_of (d : Doc) : Sms :=
  {| sms_id := doc_id d;
     sms_body := match doc_body d with
                 | body_text s => Some s
                 | _ => None
                 end;
     sms_address := doc_address d;
     sms_readable_date := doc_readable_date d |}.

(** [process_single_sms] from the stored document: [sms.get("body", "")]
    returns a body that is not a text as it is, and [sms_body.lower()], the
    first thing done with it, raises. *)
Definition process_single_sms (now : string) (d : Doc) : M bool :=
  if readable d then TransactionProcessor.process_single_sms now (sms_of d)
  else lift (Raised "AttributeError").

(** The body of the loop of [home_page.py], likewise. *)
Definition sms_loop_body (now : string) (flag : bool) (d : Doc) : M bool :=
  if readable d then HomePage.sms_loop_body now flag (sms_of d)
  else lift (Raised "AttributeError").

End RawSms.

Module StoreSamples.
Import TransactionProcessor StoreSpec Samples.

(** The record the pipeline writes for [payment_sms]. *)
Definition paid_transaction : Transaction :=
  {| t_id := 8; t_Date := "2025-01-05 10:00:01"; t_Address := "AX-BANK";
     t_Amount := 1500; t_Recipient := "John Doe"; t_Transaction_Type := "debited";
     t_Body := "Rs. 1,500 sent to John Doe" |}.

(** A processor that has stored [payment_sms] and leaves the promotion
    unmarked. *)
Definition paired_processor : Processor :=
  {| raw_collection := [payment_sms; promo_sms]; manual_collection := [lunch_expense];
     processed_collection := [paid_transaction];
     categorized_collection := [categorized_of paid_transaction "Shopping"];
     combined_collection := ∅; model := Some always_shopping;
     processed_ids := {[ 5%N; 8%N ]}; model_calls := [] |}.

(** A processor with every id marked. *)
Definition quiet_processor : Processor :=
  {| raw_collection := [payment_sms; promo_sms]; manual_collection := [lunch_expense];
     processed_collection := [paid_transaction];
     categorized_collection := [categorized_of paid_transaction "Shopping"];
     combined_collection := ∅; model := Some always_shopping;
     processed_ids := {[ 5%N; 7%N; 8%N ]}; model_calls := [] |}.

(** The promotion and the payment notification as they are stored, and a
    message whose body is null. *)
Definition promo_doc : RawSms.Doc :=
  {| RawSms.doc_id := 7;
     RawSms.doc_body := RawSms.body_text "Hurry! 50% discount offer, click here";
     RawSms.doc_address := Some "AD-SHOP";
     RawSms.doc_readable_date := Some "2025-01-05 10:00:00" |}.

Definition payment_doc : RawSms.Doc :=
  {| RawSms.doc_id := 8; RawSms.doc_body := RawSms.body_text "Rs. 1,500 sent to John Doe";
     RawSms.doc_address := Some "AX-BANK"; RawSms.doc_readable_date := None |}.

Definition null_body_doc : RawSms.Doc :=
  {| RawSms.doc_id := 9; RawSms.doc_body := RawSms.body_other;
     RawSms.doc_address := Some "AX-BANK"; RawSms.doc_readable_date := None |}.

(** A manual entry whose amount is not a number. *)
Definition bad_expense : Expense :=
  {| expense_id := 6; expenseName := Some "Shopping";
     expenseAmount := Some (PyStr "abc") |}.

End StoreSamples.

(** ** transaction_processor.py: the polling loop *)

Module Polling.

Import Text TransactionProcessor.

(** The two local counters of [process_transactions]. *)
Record Counts : Type := {
  last_sms_count : nat;
  last_manual_count : nat
}.

(** One turn of the loop of [process_transactions]: the body of [try];
    an exception ends the turn with the counters as assigned so far. *)
Definition process_transactions_turn (now : string) (counts : Counts) (p : Processor)
    : Counts * Processor :=
  let current_manual_count := length (manual_collection p) in
  let '(manual_outcome, p) :=
    if negb (current_manual_count =? last_manual_count counts)%nat
    then process_manual_entries p else (Returned tt, p) in
  match manual_outcome with
  | Raised _ => (counts, p)
  | Returned _ =>
      let counts :=
        if negb (current_manual_count =? last_manual_count counts)%nat
        then {| last_sms_count := last_sms_count counts;
                last_manual_count := current_manual_count |}
        else counts in
      let current_sms_count := length (raw_collection p) in
      if negb (current_sms_count =? last_sms_count counts)%nat
      then
        match process_sms_messages now p with
        | (Returned _, p) =>
            ({| last_sms_count := current_sms_count;
                last_manual_count := last_manual_count counts |}, p)
        | (Raised _, p) => (counts, p)
        end
      else (counts, p)
  end.

(** What reaches the sources between two turns. *)
Inductive arrival : Type :=
| sms_arrives (sms : Sms)
| expense_arrives (e : Expense).

Definition arrive (a : arrival) (p : Processor) : Processor :=
  match a with
  | sms_arrives sms => set_raw_collection (raw_collection p ++ [sms]) p
  | expense_arrives e => set_manual_collection (manual_collection p ++ [e]) p
  end.

(** The loop over a finite number of turns, each at its time and after the
    arrivals that preceded it. *)
Fixpoint process_transactions_turns (turns : list (list arrival * string))
    (counts : Counts) (p : Processor) : Counts * Processor :=
  match turns with
  | [] => (counts, p)
  | (arrivals, now) :: turns' =>
      let '(counts, p) :=
        process_transactions_turn now counts (foldl (fun p a => arrive a p) p arrivals) in
      process_transactions_turns turns' counts p
  end.

(** [process_transactions] up to its loop: the counters start at the sizes
    of the two sources. *)
Definition process_transactions (turns : list (list arrival * string)) (p : Processor)
    : Counts * Processor :=
  let last_sms_count := length (raw_collection p) in
  let last_manual_count := length (manual_collection p) in
  process_transactions_turns turns
    {| last_sms_count := last_sms_count; last_manual_count := last_manual_count |} p.

End Polling.
(** * Properties *)

(** ** Numbers and exceptions *)

Module NumFacts.

Lemma fold_outcome_cons {A B : Type} (step : A -> B -> outcome B) (x : A) (xs : list A)
    (acc : B) :
  fold_outcome step (x :: xs) acc = step x acc ≫= fold_outcome step xs.
Proof. reflexivity. Qed.

Lemma bind_returned {A B : Type} (a : A) (f : A -> outcome B) : (Returned a ≫= f) = f a.
Proof. reflexivity. Qed.

Lemma fold_outcome_app {A B : Type} (step : A -> B -> outcome B) (xs ys : list A) (acc : B) :
  fold_outcome step (xs ++ ys) acc = fold_outcome step xs acc ≫= fold_outcome step ys.
Proof.
  revert acc. induction xs as [|x xs IH]; intros acc; [done|].
  rewrite <- app_comm_cons, !fold_outcome_cons.
  destruct (step x acc) as [acc'|e]; [|done]. rewrite !bind_returned. apply IH.
Qed.

Lemma fold_outcome_fmap {A A' B : Type} (g : A -> A') (step : A' -> B -> outcome B)
    (xs : list A) (acc : B) :
  fold_outcome step (g <$> xs) acc = fold_outcome (fun x => step (g x)) xs acc.
Proof.
  revert acc. induction xs as [|x xs IH]; intros acc; [done|].
  rewrite fmap_cons, !fold_outcome_cons.
  destruct (step (g x) acc) as [acc'|e]; [|done]. rewrite !bind_returned. apply IH.
Qed.

End NumFacts.

(** ** The matcher only reports texts of the pattern's language *)

Module ReFacts.

Import Re.

Lemma append_cons (x : ascii) (a b : string) :
  String.append (String x a) b = String x (String.append a b).
Proof. reflexivity. Qed.

Lemma append_nil_l (b : string) : String.append EmptyString b = b.
Proof. reflexivity. Qed.

Lemma append_assoc (a b c : string) :
  String.append (String.append a b) c = String.append a (String.append b c).
Proof.
  induction a as [|x a IH]; [reflexivity|].
  rewrite !append_cons. by rewrite IH.
Qed.

Lemma append_nil_r (a : string) : String.append a EmptyString = a.
Proof.
  induction a as [|x a IH]; [reflexivity|].
  rewrite append_cons. by rewrite IH.
Qed.

Lemma length_append (a b : string) :
  String.length (String.append a b) = (String.length a + String.length b)%nat.
Proof.
  induction a as [|x a IH]; [reflexivity|].
  rewrite append_cons. simpl. by rewrite IH.
Qed.

Lemma substring_append (a b : string) :
  String.substring 0 (String.length a) (String.append a b) = a.
Proof.
  induction a as [|x a IH]; [by destruct b|].
  rewrite append_cons. simpl. by rewrite IH.
Qed.

Lemma consumed_append (m s1 : string) : consumed (String.append m s1) s1 = m.
Proof.
  unfold consumed. rewrite length_append.
  replace (String.length m + String.length s1 - String.length s1)%nat
    with (String.length m) by lia.
  apply substring_append.
Qed.

(** Whenever the matcher succeeds, it called its continuation on a suffix
    of the subject, and the text in between belongs to the pattern. *)
Lemma run_sound {R : Type} (ic : bool) (r : regex) :
  forall (s : string) (caps : captures) (k : string -> captures -> option R) (x : R),
    run ic r s caps k = Some x ->
    exists m s1 c1, s = String.append m s1 /\ lang ic r m /\ k s1 c1 = Some x.
Proof.
  induction r as [| c | p | r1 IH1 r2 IH2 | r1 IH1 r2 IH2 | r1 IH1 | r1 IH1 | n r1 IH1];
    intros s caps k x H; simpl in H.
  - exists EmptyString, s, caps. repeat split; [constructor | done].
  - destruct s as [|a s']; [discriminate|].
    destruct (char_eq ic a c) eqn:E; [|discriminate].
    exists (String a EmptyString), s', caps. repeat split; [by constructor | done].
  - destruct s as [|a s']; [discriminate|].
    destruct (p a) eqn:E; [|discriminate].
    exists (String a EmptyString), s', caps. repeat split; [by constructor | done].
  - apply IH1 in H as (m1 & s1 & c1 & -> & L1 & H).
    apply IH2 in H as (m2 & s2 & c2 & -> & L2 & H).
    exists (String.append m1 m2), s2, c2. rewrite append_assoc.
    repeat split; [by constructor | done].
  - destruct (run ic r1 s caps k) as [y|] eqn:E.
    + inversion H; subst y. apply IH1 in E as (m & s1 & c1 & -> & L & E).
      exists m, s1, c1. repeat split; [by apply lang_alt_l | done].
    + apply IH2 in H as (m & s1 & c1 & -> & L & H).
      exists m, s1, c1. repeat split; [by apply lang_alt_r | done].
  - destruct (run ic r1 s caps k) as [y|] eqn:E.
    + inversion H; subst y. apply IH1 in E as (m & s1 & c1 & -> & L & E).
      exists m, s1, c1. repeat split; [by apply lang_opt_some | done].
    + exists EmptyString, s, caps. repeat split; [apply lang_opt_none | done].
  - remember (String.length s) as fuel eqn:Hfuel. clear Hfuel. revert s caps H.
    induction fuel as [|fuel IHf]; intros s caps H.
    + exists EmptyString, s, caps. repeat split; [apply lang_star_nil | done].
    + match type of H with
      | match ?call with _ => _ end = _ => destruct call as [y|] eqn:E
      end.
      * inversion H; subst y.
        apply IH1 in E as (m1 & s1 & c1 & -> & L1 & E).
        destruct (String.length s1 <? String.length (String.append m1 s1))%nat;
          [|discriminate].
        apply IHf in E as (m2 & s2 & c2 & -> & L2 & E).
        exists (String.append m1 m2), s2, c2. rewrite append_assoc.
        repeat split; [by apply lang_star_cons | done].
      * exists EmptyString, s, caps. repeat split; [apply lang_star_nil | done].
  - apply IH1 in H as (m & s1 & c1 & -> & L & H).
    exists m, s1, (set_group n (consumed (String.append m s1) s1) c1).
    repeat split; [by constructor | done].
Qed.

End ReFacts.

(** ** Extraction *)

Module ExtractionFacts.

Import Text TransactionProcessor ReFacts.

Lemma search_is_match (ic : bool) (r : Re.regex) (s : string) (caps : Re.captures) :
  Re.search ic r s = Some caps -> exists s', Re.rmatch ic r s' = Some caps.
Proof.
  induction s as [|a s IH]; simpl; intros H.
  - destruct (Re.rmatch ic r EmptyString) eqn:E; [|discriminate].
    inversion H; subst. eauto.
  - destruct (Re.rmatch ic r (String a s)) eqn:E.
    + inversion H; subst. eauto.
    + auto.
Qed.

(** Group 2 of a match of the money pattern is a text of the number pattern. *)
Lemma money_match_group2 (body : string) (caps : Re.captures) :
  Re.search true money_pattern body = Some caps ->
  exists m, Re.group 2 caps = Some m /\ Re.lang true number_pattern m.
Proof.
  intros H. apply search_is_match in H as [s H].
  unfold Re.rmatch, money_pattern in H.
  change (Re.run true (Re.Grp 1 currency_pattern) s []
            (fun s1 c1 => Re.run true (Re.Opt (Re.Cls is_space)) s1 c1
               (fun s2 c2 => Re.run true number_pattern s2 c2
                  (fun s3 c3 => Some (Re.set_group 2 (Re.consumed s2 s3) c3))))
          = Some caps) in H.
  apply run_sound in H as (m1 & s1 & c1 & -> & _ & H).
  apply run_sound in H as (m2 & s2 & c2 & -> & _ & H).
  apply run_sound in H as (m & s3 & c3 & -> & L & H).
  rewrite consumed_append in H. inversion H; subst caps.
  exists m. split; [reflexivity | exact L].
Qed.

Lemma lang_star_class (ic : bool) (p : ascii -> bool) (m : string) :
  Re.lang ic (Re.Star (Re.Cls p)) m -> all_chars p m = true.
Proof.
  remember (Re.Star (Re.Cls p)) as r eqn:Hr. intros L.
  induction L; try discriminate; [reflexivity|].
  inversion Hr; subst r. inversion L1; subst.
  rewrite append_cons, append_nil_l. simpl.
  rewrite IHL2 by reflexivity. by rewrite H0.
Qed.

(** A text of the number pattern: digits, at most one separator, digits. *)
Lemma lang_number_pattern (m : string) :
  Re.lang true number_pattern m ->
  exists d ds sep fs,
    m = String d (String.append ds (String.append sep fs))
    /\ is_digit d = true /\ all_chars is_digit ds = true
    /\ (sep = EmptyString \/ sep = "," \/ sep = ".")
    /\ all_chars is_digit fs = true.
Proof.
  unfold number_pattern, Re.Plus. intros L.
  inversion L as [| | |r1 r2 ma mb La Lb| | | | | | |]; subst.
  inversion La as [| | |r1 r2 md mds Ld Lds| | | | | | |]; subst.
  inversion Ld; subst.
  inversion Lb as [| | |r1 r2 msep mfs Lsep Lfs| | | | | | |]; subst.
  apply lang_star_class in Lds. apply lang_star_class in Lfs.
  rewrite append_cons, append_nil_l, append_cons.
  inversion Lsep as [| | | | | |r|r ms Ls| | |]; subst.
  - exists a, mds, EmptyString, mfs. repeat split; auto.
  - inversion Ls as [| |pp c Hc| | | | | | | |]; subst.
    exists a, mds, (String c EmptyString), mfs. repeat split; auto.
    unfold is_separator in Hc. apply orb_true_iff in Hc as [Hc | Hc];
      apply Ascii.eqb_eq in Hc; subst; auto.
Qed.

Lemma digit_not_space (c : ascii) : is_digit c = true -> is_space c = false.
Proof.
  unfold is_digit, is_space. intros H.
  apply andb_true_iff in H as [H1 H2].
  apply N.leb_le in H1. apply N.leb_le in H2.
  repeat (apply orb_false_iff; split); try apply andb_false_iff.
  - right. apply N.leb_gt. lia.
  - right. apply N.leb_gt. lia.
  - apply N.eqb_neq. lia.
Qed.

Lemma digit_not_comma (c : ascii) : is_digit c = true -> Ascii.eqb c ","%char = false.
Proof.
  intros H. destruct (Ascii.eqb_spec c ","%char) as [->|]; [|done].
  vm_compute in H. discriminate.
Qed.

Lemma digit_not_dot (c : ascii) : is_digit c = true -> Ascii.eqb c "."%char = false.
Proof.
  intros H. destruct (Ascii.eqb_spec c "."%char) as [->|]; [|done].
  vm_compute in H. discriminate.
Qed.

Lemma digit_not_sign (c : ascii) :
  is_digit c = true -> Ascii.eqb c "-"%char = false /\ Ascii.eqb c "+"%char = false.
Proof.
  intros H. split.
  - destruct (Ascii.eqb_spec c "-"%char) as [->|]; [|done]. vm_compute in H. discriminate.
  - destruct (Ascii.eqb_spec c "+"%char) as [->|]; [|done]. vm_compute in H. discriminate.
Qed.

Lemma remove_char_append (c : ascii) (a b : string) :
  remove_char c (String.append a b) = String.append (remove_char c a) (remove_char c b).
Proof.
  unfold remove_char. induction a as [|x a IH]; [reflexivity|].
  rewrite append_cons. simpl. destruct (negb (Ascii.eqb x c)); [|done].
  by rewrite append_cons, IH.
Qed.

Lemma remove_comma_digits (s : string) :
  all_chars is_digit s = true -> remove_char ","%char s = s.
Proof.
  unfold remove_char. induction s as [|x s IH]; simpl; [done|].
  intros H. apply andb_true_iff in H as [Hx Hs].
  rewrite (digit_not_comma _ Hx). simpl. by rewrite IH.
Qed.

Lemma rstrip_no_space (s : string) :
  all_chars (fun c => negb (is_space c)) s = true -> rstrip s = s.
Proof.
  induction s as [|x s IH]; simpl; [done|].
  intros H. apply andb_true_iff in H as [Hx Hs]. rewrite IH by done.
  destruct s; [|done]. apply negb_true_iff in Hx. by rewrite Hx.
Qed.

Lemma all_chars_append (p : ascii -> bool) (a b : string) :
  all_chars p (String.append a b) = all_chars p a && all_chars p b.
Proof.
  induction a as [|x a IH]; [reflexivity|].
  rewrite append_cons. simpl. rewrite IH. by rewrite andb_assoc.
Qed.

Lemma all_chars_impl (p q : ascii -> bool) (s : string) :
  (forall c, p c = true -> q c = true) -> all_chars p s = true -> all_chars q s = true.
Proof.
  intros Hpq. induction s as [|x s IH]; simpl; [done|].
  intros H. apply andb_true_iff in H as [Hx Hs]. by rewrite (Hpq _ Hx), IH.
Qed.

Lemma digits_value_digits (s : string) (acc : N) :
  all_chars is_digit s = true -> exists n, Num.digits_value acc s = Some n.
Proof.
  revert acc. induction s as [|x s IH]; simpl; intros acc H; [eauto|].
  apply andb_true_iff in H as [Hx Hs]. rewrite Hx. auto.
Qed.

Lemma split_dot_digits (s : string) :
  all_chars is_digit s = true -> Num.split_dot s = (s, None).
Proof.
  induction s as [|x s IH]; simpl; [done|].
  intros H. apply andb_true_iff in H as [Hx Hs].
  rewrite (digit_not_dot _ Hx), IH by done. reflexivity.
Qed.

Lemma split_dot_digits_dot (a b : string) :
  all_chars is_digit a = true ->
  Num.split_dot (String.append a (String "."%char b)) = (a, Some b).
Proof.
  induction a as [|x a IH]; [reflexivity|].
  rewrite append_cons. simpl.
  intros H. apply andb_true_iff in H as [Hx Hs].
  rewrite (digit_not_dot _ Hx), IH by done. reflexivity.
Qed.

(** [float] accepts every amount text the number pattern can produce. *)
Lemma float_of_number (m : string) :
  Re.lang true number_pattern m ->
  remove_char ","%char m <> EmptyString
  /\ exists q, Num.float_of_string (remove_char ","%char m) = Some q.
Proof.
  intros L. apply lang_number_pattern in L
    as (d & ds & sep & fs & -> & Hd & Hds & Hsep & Hfs).
  assert (Hhead : remove_char ","%char (String d (String.append ds (String.append sep fs)))
                  = String d (String.append ds
                                (String.append (remove_char ","%char sep) fs))).
  { change (String d (String.append ds (String.append sep fs)))
      with (String.append (String d EmptyString)
              (String.append ds (String.append sep fs))).
    rewrite !remove_char_append.
    rewrite (remove_comma_digits ds), (remove_comma_digits fs) by done.
    unfold remove_char at 1. simpl. rewrite (digit_not_comma _ Hd). reflexivity. }
  rewrite Hhead. split; [discriminate|].
  assert (Hsep' : remove_char ","%char sep = EmptyString \/ remove_char ","%char sep = ".").
  { destruct Hsep as [-> | [-> | ->]]; auto. }
  destruct (digit_not_sign _ Hd) as [Hminus Hplus].
  unfold Num.float_of_string, strip.
  assert (Hl : lstrip (String d (String.append ds
                         (String.append (remove_char ","%char sep) fs)))
               = String d (String.append ds
                             (String.append (remove_char ","%char sep) fs))).
  { simpl. by rewrite (digit_not_space _ Hd). }
  rewrite Hl. clear Hl.
  assert (Hnospace : forall c, is_digit c = true -> negb (is_space c) = true).
  { intros c Hc. by rewrite (digit_not_space _ Hc). }
  destruct Hsep' as [-> | ->].
  - rewrite append_nil_l.
    set (w := String d (String.append ds fs)).
    assert (Hw : all_chars is_digit w = true).
    { unfold w. simpl. by rewrite Hd, all_chars_append, Hds, Hfs. }
    rewrite rstrip_no_space by (eapply all_chars_impl; eauto).
    unfold w at 1. cbv beta iota. rewrite Hminus, Hplus. fold w.
    unfold Num.unsigned_float.
    rewrite split_dot_digits by done. simpl default.
    destruct (digits_value_digits w 0 Hw) as [n Hn]. rewrite Hn.
    unfold w at 1. simpl. eauto.
  - set (ip := String d ds).
    assert (Hip : all_chars is_digit ip = true).
    { unfold ip. simpl. by rewrite Hd, Hds. }
    change (String d (String.append ds (String.append "." fs)))
      with (String.append ip (String "."%char fs)).
    rewrite rstrip_no_space.
    2:{ rewrite all_chars_append. simpl.
        rewrite (Hnospace _ Hd), (all_chars_impl is_digit _ ds Hnospace Hds).
        rewrite (all_chars_impl is_digit _ fs Hnospace Hfs). reflexivity. }
    change (String.append ip (String "."%char fs))
      with (String d (String.append ds (String "."%char fs))).
    cbv beta iota. rewrite Hminus, Hplus.
    change (String d (String.append ds (String "."%char fs)))
      with (String.append ip (String "."%char fs)).
    unfold Num.unsigned_float.
    rewrite split_dot_digits_dot by done. simpl default.
    destruct (digits_value_digits ip 0 Hip) as [n Hn]. rewrite Hn.
    destruct (digits_value_digits fs 0 Hfs) as [k Hk]. rewrite Hk.
    unfold ip at 1. simpl. eauto.
Qed.

(** The amount text returned by extraction is never empty and always
    converts with [float]. *)
Lemma parsed_amount_is_a_number (body : string) :
  let amount := fst (fst (parse_transaction_details body)) in
  String.eqb amount EmptyString = false
  /\ exists q, py_float (PyStr amount) = Returned q.
Proof.
  unfold parse_transaction_details. simpl fst.
  destruct (Re.search true money_pattern body) as [caps|] eqn:E.
  - apply money_match_group2 in E as (m & Hg & L).
    unfold group_text. rewrite Hg. simpl default.
    apply float_of_number in L as [Hne [q Hq]].
    split; [by apply String.eqb_neq|].
    exists q. simpl. by rewrite Hq.
  - split; [reflexivity|]. exists 0%Q. reflexivity.
Qed.

(** C7: on "Rs. 1,500 sent to John Doe" extraction returns the amount
    "1500" (group 2 of the first currency-prefixed number, "1,500", with
    the comma removed), the counterpart "John Doe" and the direction
    "debited"; neither credit keyword and not "debited" occur in the
    lowered text, "sent" does. Being a function of the text alone, the
    result is the same at every call. *)
Theorem parse_transaction_details_john_doe :
  let body := "Rs. 1,500 sent to John Doe" in
  parse_transaction_details body = ("1500", "John Doe", "debited")
  /\ (Re.search true money_pattern body ≫= Re.group 2) = Some "1,500"
  /\ (Re.search true recipient_pattern body ≫= Re.group 1) = Some "John Doe"
  /\ contains "credited" (lower body) = false
  /\ contains "received" (lower body) = false
  /\ contains "debited" (lower body) = false
  /\ contains "sent" (lower body) = true.
Proof. vm_compute. repeat split; reflexivity. Qed.

End ExtractionFacts.

(** ** Classification *)

Module ClassifierFacts.

Import Text TransactionProcessor Samples.

Lemma credited_is_not_unknown (transaction_type : string) :
  lower transaction_type = "credited" -> String.eqb transaction_type "N/A" = false.
Proof.
  intros H. destruct (String.eqb_spec transaction_type "N/A") as [->|]; [|done].
  vm_compute in H. discriminate.
Qed.

(** C3, as the code has it: for a credit the model is consulted first.
    With a trained model whose prediction completes the result is
    "Savings & Transfers" whatever the predicted label, and the call is
    recorded; with no model the result is "Miscellaneous" and the model is
    not called; when the prediction raises the result is "Miscellaneous". *)
Theorem classify_credit_override (p : Processor) (body transaction_type : string) :
  lower transaction_type = "credited" ->
  (forall f label, model p = Some f -> f (clean_text body) = Returned label ->
     classify_transaction body transaction_type p
     = (Returned "Savings & Transfers",
        set_model_calls (model_calls p ++ [clean_text body]) p))
  /\ (model p = None ->
      classify_transaction body transaction_type p = (Returned "Miscellaneous", p))
  /\ (forall f e, model p = Some f -> f (clean_text body) = Raised e ->
      fst (classify_transaction body transaction_type p) = Returned "Miscellaneous").
Proof.
  intros Hcredit. pose proof (credited_is_not_unknown _ Hcredit) as Hna.
  unfold classify_transaction, try_except, predict, get, mbind, M_bind, mret, M_ret.
  rewrite Hna. repeat split.
  - intros f label Hm Hf. rewrite bool_decide_eq_false_2 by congruence. simpl.
    rewrite Hm, Hf, Hcredit. reflexivity.
  - intros Hm. rewrite bool_decide_eq_true_2 by done. reflexivity.
  - intros f e Hm Hf. rewrite bool_decide_eq_false_2 by congruence. simpl.
    rewrite Hm, Hf. reflexivity.
Qed.

Lemma classify_credit_override_witness :
  classify_transaction "Rs. 500 credited to your account" "credited"
    (empty_processor (Some always_shopping))
  = (Returned "Savings & Transfers",
     set_model_calls ["rs 500 credited to your account"]
       (empty_processor (Some always_shopping))).
Proof.
  exact (proj1 (classify_credit_override (empty_processor (Some always_shopping))
                  "Rs. 500 credited to your account" "credited" eq_refl)
           always_shopping "Shopping" eq_refl eq_refl).
Defined.

(** C3 as stated fails: an untrained processor answers "Miscellaneous" for
    a credit, and a trained one calls the model before overriding. *)
Lemma classify_credit_counterexample :
  fst (classify_transaction "Rs. 500 credited to your account" "credited"
         (empty_processor None)) = Returned "Miscellaneous"
  /\ fst (classify_transaction "Rs. 500 credited to your account" "credited"
            (empty_processor None)) <> Returned "Savings & Transfers"
  /\ model_calls (snd (classify_transaction "Rs. 500 credited to your account" "credited"
                         (empty_processor (Some always_shopping))))
     = ["rs 500 credited to your account"].
Proof. vm_compute. repeat split; [discriminate]. Qed.

(** C6: classification always returns a category, never an exception.
    With no model, or with the direction "N/A", it returns "Miscellaneous"
    and leaves the processor as it was, the record of model calls
    included; and when the prediction raises, the exception is caught and
    the result is "Miscellaneous". *)
Theorem classify_never_raises (p : Processor) (body transaction_type : string) :
  (exists category p', classify_transaction body transaction_type p = (Returned category, p'))
  /\ (model p = None \/ transaction_type = "N/A" ->
      classify_transaction body transaction_type p = (Returned "Miscellaneous", p))
  /\ (forall f e, model p = Some f -> f (clean_text body) = Raised e ->
      fst (classify_transaction body transaction_type p) = Returned "Miscellaneous").
Proof.
  unfold classify_transaction, try_except, predict, get, mbind, M_bind, mret, M_ret.
  repeat split.
  - destruct (model p) as [f|] eqn:Hm.
    + rewrite bool_decide_eq_false_2 by congruence. simpl.
      destruct (String.eqb transaction_type "N/A"); [eauto|].
      rewrite Hm. destruct (f (clean_text body)); eauto.
    + rewrite bool_decide_eq_true_2 by done. simpl. eauto.
  - intros [Hm | ->].
    + rewrite bool_decide_eq_true_2 by done. reflexivity.
    + rewrite String.eqb_refl, orb_true_r. reflexivity.
  - intros f e Hm Hf. rewrite bool_decide_eq_false_2 by congruence. simpl.
    destruct (String.eqb transaction_type "N/A"); [reflexivity|].
    rewrite Hm, Hf. reflexivity.
Qed.

Lemma classify_never_raises_witness :
  classify_transaction "paid 40 at the kiosk" "N/A" (empty_processor (Some not_fitted))
  = (Returned "Miscellaneous", empty_processor (Some not_fitted))
  /\ fst (classify_transaction "Rs. 40 sent to Kiosk" "debited"
            (empty_processor (Some not_fitted))) = Returned "Miscellaneous".
Proof.
  split.
  - exact (proj1 (proj2 (classify_never_raises (empty_processor (Some not_fitted))
                           "paid 40 at the kiosk" "N/A"))
             (or_intror eq_refl)).
  - exact (proj2 (proj2 (classify_never_raises (empty_processor (Some not_fitted))
                           "Rs. 40 sent to Kiosk" "debited"))
             not_fitted "NotFittedError" eq_refl eq_refl).
Defined.

End ClassifierFacts.

(** ** Ingestion *)

Module PipelineFacts.

Import Text TransactionProcessor Dedup Samples.

Lemma bind_run {A B : Type} (m : M A) (f : A -> M B) (p : Processor) :
  (m ≫= f) p = match m p with
               | (Returned a, p') => f a p'
               | (Raised e, p') => (Raised e, p')
               end.
Proof. reflexivity. Qed.

Lemma bind_get {B : Type} (f : Processor -> M B) (p : Processor) :
  (get ≫= f) p = f p p.
Proof. reflexivity. Qed.

Lemma bind_modify {B : Type} (g : Processor -> Processor) (f : unit -> M B) (p : Processor) :
  (modify g ≫= f) p = f tt (g p).
Proof. reflexivity. Qed.

Section Preserves.
Context (R : relation Processor) `{!PreOrder R}.

Lemma preserves_ret {A : Type} (a : A) : preserves R (mret a).
Proof. intros p. reflexivity. Qed.

Lemma preserves_get : preserves R get.
Proof. intros p. reflexivity. Qed.

Lemma preserves_lift {A : Type} (o : outcome A) : preserves R (lift o).
Proof. intros p. reflexivity. Qed.

Lemma preserves_modify (g : Processor -> Processor) :
  (forall p, R p (g p)) -> preserves R (modify g).
Proof. intros H p. apply H. Qed.

Lemma preserves_bind {A B : Type} (m : M A) (f : A -> M B) :
  preserves R m -> (forall a, preserves R (f a)) -> preserves R (m ≫= f).
Proof.
  intros Hm Hf p. rewrite bind_run. specialize (Hm p).
  destruct (m p) as [[a|e] p1]; simpl in *; [|done].
  etrans; [exact Hm | apply Hf].
Qed.

Lemma preserves_for_each {A : Type} (xs : list A) (body : A -> M unit) :
  (forall x, preserves R (body x)) -> preserves R (for_each xs body).
Proof.
  intros Hb. induction xs as [|x xs IH]; simpl.
  - apply preserves_ret.
  - apply preserves_bind; [apply Hb | intros _; exact IH].
Qed.

Lemma preserves_foldl {A B : Type} (xs : list A) (f : B -> A -> M B) (acc : M B) :
  (forall b x, preserves R (f b x)) -> preserves R acc ->
  preserves R (foldl (fun acc x => b ← acc; f b x) acc xs).
Proof.
  intros Hf. revert acc. induction xs as [|x xs IH]; simpl; intros acc Hacc; [done|].
  apply IH. apply preserves_bind; [done | intros b; apply Hf].
Qed.
End Preserves.

(** *** Insert-if-absent *)

Section Upsert.
Context {D : Type} (key : D -> N).

Lemma existsb_key (id : N) (collection : list D) :
  existsb (fun d => N.eqb (key d) id) collection = true <-> id ∈ key <$> collection.
Proof.
  rewrite existsb_exists, list_elem_of_fmap. split.
  - intros (d & Hin & Heq). apply N.eqb_eq in Heq.
    exists d. split; [done | by apply list_elem_of_In].
  - intros (d & -> & Hin). exists d.
    split; [by apply list_elem_of_In | apply N.eqb_refl].
Qed.

(** A record whose id is already there is left alone. *)
Lemma upsert_present (id : N) (doc : D) (collection : list D) :
  id ∈ key <$> collection -> upsert_set_on_insert key id doc collection = collection.
Proof.
  intros H. unfold upsert_set_on_insert.
  apply existsb_key in H. by rewrite H.
Qed.

Lemma upsert_prefix (id : N) (doc : D) (collection : list D) :
  collection `prefix_of` upsert_set_on_insert key id doc collection.
Proof.
  unfold upsert_set_on_insert.
  destruct (existsb _ collection); [done | by apply prefix_app_r].
Qed.

Lemma upsert_NoDup (id : N) (doc : D) (collection : list D) :
  key doc = id -> NoDup (key <$> collection) ->
  NoDup (key <$> upsert_set_on_insert key id doc collection).
Proof.
  intros Hk Hnd. unfold upsert_set_on_insert.
  destruct (existsb _ collection) eqn:E; [done|].
  rewrite fmap_app. simpl. apply NoDup_app. split; [done|]. split.
  - intros x Hx Hx'. apply list_elem_of_singleton in Hx'. subst x. rewrite Hk in Hx.
    apply existsb_key in Hx. congruence.
  - apply NoDup_singleton.
Qed.

Lemma upsert_ids (id : N) (doc : D) (collection : list D) :
  key doc = id ->
  list_to_set (C := gset N) (key <$> upsert_set_on_insert key id doc collection)
  = list_to_set (key <$> collection) ∪ {[ id ]}.
Proof.
  intros Hk. unfold upsert_set_on_insert.
  destruct (existsb _ collection) eqn:E.
  - apply existsb_key in E. apply set_eq. intros x.
    rewrite elem_of_union, elem_of_singleton, !elem_of_list_to_set.
    split; [auto | intros [?| ->]; done].
  - rewrite fmap_app, list_to_set_app_L. simpl. rewrite Hk.
    by rewrite (right_id_L ∅ (∪)).
Qed.
End Upsert.

(** *** One message *)

Lemma process_single_sms_filtered (now : string) (sms : Sms) (p : Processor) :
  is_transactional (default EmptyString (sms_body sms)) = false ->
  process_single_sms now sms p = (Returned false, p).
Proof.
  unfold is_transactional, process_single_sms. intros H.
  apply negb_false_iff in H. rewrite H. reflexivity.
Qed.

Lemma classify_transaction_run (body transaction_type : string) (p : Processor) :
  exists category calls,
    classify_transaction body transaction_type p
    = (Returned category, set_model_calls calls p).
Proof.
  assert (Hp : p = set_model_calls (model_calls p) p) by (by destruct p).
  unfold classify_transaction, try_except, predict, get, mbind, M_bind, mret, M_ret.
  destruct (model p) as [f|] eqn:Hm.
  - rewrite bool_decide_eq_false_2 by congruence. simpl.
    destruct (String.eqb transaction_type "N/A").
    + exists "Miscellaneous", (model_calls p). by rewrite <- Hp.
    + rewrite Hm. destruct (f (clean_text body)); eauto.
  - rewrite bool_decide_eq_true_2 by done. simpl.
    exists "Miscellaneous", (model_calls p). by rewrite <- Hp.
Qed.

(** A message that passes the filter is stored under its id in both
    collections, insert-if-absent, and the method returns [True]; it never
    raises. *)
Lemma process_single_sms_stored (now : string) (sms : Sms) (p : Processor) :
  is_transactional (default EmptyString (sms_body sms)) = true ->
  exists tdoc cdoc calls,
    t_id tdoc = sms_id sms /\ c_id cdoc = sms_id sms
    /\ process_single_sms now sms p
       = (Returned true,
          set_categorized_collection
            (upsert_set_on_insert c_id (sms_id sms) cdoc (categorized_collection p))
            (set_processed_collection
               (upsert_set_on_insert t_id (sms_id sms) tdoc (processed_collection p))
               (set_model_calls calls p))).
Proof.
  unfold is_transactional, process_single_sms. intros H.
  apply negb_true_iff in H. rewrite H.
  pose proof (ExtractionFacts.parsed_amount_is_a_number
                (default EmptyString (sms_body sms))) as Hamount.
  destruct (parse_transaction_details (default EmptyString (sms_body sms)))
    as [[amount recipient] transaction_type].
  cbv zeta in Hamount. cbn [fst] in Hamount. destruct Hamount as [Hne [q Hq]].
  rewrite Hne. simpl negb. cbv iota.
  rewrite bind_run. unfold lift at 1. rewrite Hq.
  rewrite bind_run.
  destruct (classify_transaction_run (default EmptyString (sms_body sms))
              transaction_type p) as (category & calls & Hc).
  rewrite Hc.
  eexists _, _, calls. split; [|split]; [| |reflexivity]; reflexivity.
Qed.

(** *** The ingestion methods only extend the stores *)

#[local] Instance extends_preorder : PreOrder extends.
Proof.
  split.
  - intros p. unfold extends. repeat split; try done. set_solver.
  - intros p1 p2 p3 (Hr1 & Hm1 & Hf1 & Ht1 & Hc1 & Hn1 & Hd1 & Hi1 & Hs1)
                    (Hr2 & Hm2 & Hf2 & Ht2 & Hc2 & Hn2 & Hd2 & Hi2 & Hs2).
    unfold extends. repeat split; try congruence; try (by etrans); auto.
    clear -Hs1 Hs2 Hi2. intros x Hx.
    apply Hs2, elem_of_union in Hx as [Hx | Hx].
    + apply Hs1, elem_of_union in Hx as [Hx | Hx]; apply elem_of_union; auto.
    + apply elem_of_union; auto.
Qed.

Lemma extends_stored (p p' : Processor) :
  extends p p' -> stored_ids p ⊆ processed_ids p -> stored_ids p' ⊆ processed_ids p'.
Proof. intros (_ & _ & _ & _ & _ & _ & _ & Hi & Hs) H. set_solver. Qed.

Lemma extends_grow_ids (ids : gset N) (p : Processor) :
  extends p (set_processed_ids (processed_ids p ∪ ids) p).
Proof. unfold extends. simpl. repeat split; try done; set_solver. Qed.

Lemma update_combined_run (p : Processor) :
  exists o view, update_combined_transactions p = (o, set_combined_collection view p).
Proof.
  unfold update_combined_transactions.
  rewrite bind_modify, bind_get, bind_run. unfold lift. simpl.
  destruct (category_totals_of (categorized_collection p) (manual_collection p));
    eexists _, _; reflexivity.
Qed.

Lemma update_combined_extends : preserves extends update_combined_transactions.
Proof.
  intros p. destruct (update_combined_run p) as (o & view & ->). simpl.
  unfold extends. simpl. repeat split; try done. set_solver.
Qed.

Lemma process_and_mark_filtered (now : string) (sms : Sms) (p : Processor) :
  is_transactional (default EmptyString (sms_body sms)) = false ->
  process_and_mark now sms p = (Returned false, p).
Proof.
  intros H. unfold process_and_mark.
  rewrite bind_run, process_single_sms_filtered by done. reflexivity.
Qed.

(** A stored message is marked, and the method reports it. *)
Lemma process_and_mark_stored (now : string) (sms : Sms) (p : Processor) :
  is_transactional (default EmptyString (sms_body sms)) = true ->
  fst (process_and_mark now sms p) = Returned true
  /\ sms_id sms ∈ processed_ids (snd (process_and_mark now sms p))
  /\ extends p (snd (process_and_mark now sms p)).
Proof.
  intros H. unfold process_and_mark. rewrite bind_run.
  destruct (process_single_sms_stored now sms p H)
    as (tdoc & cdoc & calls & Ht & Hc & ->).
  simpl. split; [done|]. split; [set_solver|].
  unfold extends. simpl. repeat split; try done.
  - apply upsert_prefix.
  - apply upsert_prefix.
  - by apply upsert_NoDup.
  - by apply upsert_NoDup.
  - set_solver.
  - unfold stored_ids, transaction_ids, categorized_ids. simpl.
    rewrite !upsert_ids by done. set_solver.
Qed.

Lemma process_and_mark_returns (now : string) (sms : Sms) (p : Processor) :
  exists ok, fst (process_and_mark now sms p) = Returned ok.
Proof.
  destruct (is_transactional (default EmptyString (sms_body sms))) eqn:E.
  - exists true. by apply process_and_mark_stored.
  - exists false. by rewrite process_and_mark_filtered.
Qed.

Lemma process_and_mark_extends (now : string) (sms : Sms) :
  preserves extends (process_and_mark now sms).
Proof.
  intros p. destruct (is_transactional (default EmptyString (sms_body sms))) eqn:E.
  - by apply process_and_mark_stored.
  - by rewrite process_and_mark_filtered.
Qed.

Ltac preserves_extends :=
  repeat first
    [ apply preserves_ret; apply _
    | apply preserves_get; apply _
    | apply update_combined_extends
    | apply process_and_mark_extends
    | apply preserves_modify; intros ?; apply extends_grow_ids
    | apply preserves_for_each; [apply _ | intros ?]
    | apply preserves_foldl; [apply _ | intros ? ? | ]
    | apply preserves_bind; [apply _ | | intros ?]
    | progress cbv zeta
    | match goal with
      | |- preserves _ (if ?b then _ else _) => destruct b
      end ].

Lemma mark_new_manual_entries_extends : preserves extends mark_new_manual_entries.
Proof. unfold mark_new_manual_entries. preserves_extends. Qed.

Lemma ingest_new_sms_extends (now : string) : preserves extends (ingest_new_sms now).
Proof. unfold ingest_new_sms. preserves_extends. Qed.

Lemma process_new_data_extends (now : string) : preserves extends (process_new_data now).
Proof.
  unfold process_new_data.
  apply preserves_bind; [apply _ | apply mark_new_manual_entries_extends | intros ?].
  apply preserves_bind; [apply _ | apply ingest_new_sms_extends | intros ?].
  apply preserves_ret; apply _.
Qed.

Lemma process_manual_entries_extends : preserves extends process_manual_entries.
Proof. unfold process_manual_entries. preserves_extends. Qed.

Lemma process_sms_messages_extends (now : string) :
  preserves extends (process_sms_messages now).
Proof. unfold process_sms_messages. preserves_extends. Qed.

(** *** Seeding and marking *)

Lemma foldl_union_ids {D : Type} (key : D -> N) (docs : list D) (ids : gset N) :
  foldl (fun ids doc => ids ∪ {[ key doc ]}) ids docs = ids ∪ list_to_set (key <$> docs).
Proof.
  revert ids. induction docs as [|d docs IH]; intros ids; simpl.
  - by rewrite (right_id_L ∅ (∪)).
  - rewrite IH. by rewrite (assoc_L (∪)).
Qed.

Lemma initialize_processed_ids_eq (processed : list Transaction)
    (categorized : list Categorized) (manual : list Expense) :
  initialize_processed_ids processed categorized manual
  = list_to_set (t_id <$> processed) ∪ list_to_set (c_id <$> categorized)
    ∪ list_to_set (expense_id <$> manual).
Proof.
  unfold initialize_processed_ids. rewrite !foldl_union_ids.
  by rewrite (left_id_L ∅ (∪)).
Qed.

Lemma init_covers raw manual processed categorized combined fitted :
  persisted_ids (init raw manual processed categorized combined fitted)
  = processed_ids (init raw manual processed categorized combined fitted).
Proof.
  unfold persisted_ids, stored_ids, transaction_ids, categorized_ids, manual_ids,
    manual_id_set. simpl. by rewrite initialize_processed_ids_eq.
Qed.

(** Ids of stored records are marked in every reachable state. *)
Lemma reachable_stored (p : Processor) :
  reachable p -> stored_ids p ⊆ processed_ids p.
Proof.
  induction 1 as [raw manual processed categorized combined fitted | p p' _ IH Hstep].
  - rewrite <- init_covers. unfold persisted_ids. set_solver.
  - destruct Hstep as [p sms | p e | p now | p | p now].
    + exact IH.
    + exact IH.
    + exact (extends_stored _ _ (process_new_data_extends now p) IH).
    + exact (extends_stored _ _ (process_manual_entries_extends p) IH).
    + exact (extends_stored _ _ (process_sms_messages_extends now p) IH).
Qed.

Lemma mark_new_manual_entries_marks (p : Processor) :
  manual_ids p ⊆ processed_ids (snd (mark_new_manual_entries p)).
Proof.
  unfold mark_new_manual_entries, manual_ids.
  rewrite bind_get. cbv zeta. rewrite bind_run.
  destruct (bool_decide (manual_id_set (manual_collection p) ∖ processed_ids p ≠ ∅)) eqn:E.
  - rewrite bind_modify. cbv beta.
    destruct (update_combined_run
                (set_processed_ids
                   (processed_ids p ∪ manual_id_set (manual_collection p) ∖ processed_ids p) p))
      as (o & view & ->).
    assert (Hsub : manual_id_set (manual_collection p)
                   ⊆ processed_ids p ∪ manual_id_set (manual_collection p) ∖ processed_ids p).
    { intros x Hx. destruct (decide (x ∈ processed_ids p)); set_solver. }
    destruct o; exact Hsub.
  - apply bool_decide_eq_false in E. apply dec_stable in E. simpl.
    intros x Hx. destruct (decide (x ∈ processed_ids p)) as [|Hn]; [done|].
    assert (x ∈ manual_id_set (manual_collection p) ∖ processed_ids p) as Hd by set_solver.
    rewrite E in Hd. set_solver.
Qed.

(** When a pass ends, returned or raised, every persisted id is marked,
    whatever arrived in the sources before it. *)
Lemma process_new_data_covers (now : string) (p : Processor) :
  stored_ids p ⊆ processed_ids p ->
  persisted_ids (snd (process_new_data now p))
  ⊆ processed_ids (snd (process_new_data now p)).
Proof.
  intros Hs. unfold persisted_ids. apply union_least.
  - exact (extends_stored _ _ (process_new_data_extends now p) Hs).
  - pose proof (mark_new_manual_entries_marks p) as Hm.
    pose proof (mark_new_manual_entries_extends p) as He.
    unfold process_new_data. rewrite bind_run.
    destruct (mark_new_manual_entries p) as [[a|e] p1]; simpl in Hm, He |- *.
    + rewrite bind_run.
      pose proof (ingest_new_sms_extends now p1) as He2.
      destruct (ingest_new_sms now p1) as [[b|e] p2]; simpl in He2 |- *;
        destruct He as (_ & Hm1 & _), He2 as (_ & Hm2 & _ & _ & _ & _ & _ & Hi2 & _);
        unfold manual_ids in *; rewrite Hm2, Hm1; set_solver.
    + destruct He as (_ & Hm1 & _). unfold manual_ids in *. by rewrite Hm1.
Qed.

(** *** Messages the filter discards, and the second pass *)

Lemma for_each_process_and_mark (now : string) (new_sms : list Sms) (p : Processor) :
  let r := for_each new_sms (fun sms => process_and_mark now sms;; mret tt) p in
  fst r = Returned tt
  /\ extends p (snd r)
  /\ forall sms, sms ∈ new_sms ->
       is_transactional (default EmptyString (sms_body sms)) = true ->
       sms_id sms ∈ processed_ids (snd r).
Proof.
  revert p. induction new_sms as [|x l IH]; intros p; simpl.
  - split; [done|]. split; [reflexivity|]. intros sms H. by apply elem_of_nil in H.
  - rewrite bind_run, bind_run.
    pose proof (process_and_mark_returns now x p) as [ok Hok].
    pose proof (process_and_mark_extends now x p) as Hext.
    pose proof (process_and_mark_stored now x p) as Hst.
    destruct (process_and_mark now x p) as [o q]. simpl in Hok, Hext, Hst. subst o.
    simpl. destruct (IH q) as (Hr & He & Hm).
    split; [exact Hr|]. split; [by etrans|].
    intros sms Hin Ht. apply elem_of_cons in Hin as [-> | Hin]; [|by apply Hm].
    destruct (Hst Ht) as (_ & Hx & _).
    destruct He as (_ & _ & _ & _ & _ & _ & _ & Hi & _). by apply Hi.
Qed.

Lemma for_each_filtered (now : string) (new_sms : list Sms) (p : Processor) :
  (forall sms, sms ∈ new_sms ->
     is_transactional (default EmptyString (sms_body sms)) = false) ->
  for_each new_sms (fun sms => process_and_mark now sms;; mret tt) p = (Returned tt, p).
Proof.
  induction new_sms as [|x l IH]; intros H; simpl; [done|].
  rewrite bind_run, bind_run, process_and_mark_filtered by (apply H; left).
  simpl. apply IH. intros sms Hin. apply H. by right.
Qed.

Lemma elem_of_find_not_in (ids : gset N) (raw : list Sms) (sms : Sms) :
  sms ∈ find_not_in ids raw <-> sms ∈ raw /\ sms_id sms ∉ ids.
Proof.
  unfold find_not_in. rewrite !list_elem_of_In, List.filter_In, bool_decide_eq_true.
  reflexivity.
Qed.

(** After the SMS half of a pass every raw message is marked or filtered. *)
Lemma ingest_new_sms_settles (now : string) (p : Processor) :
  settled (snd (ingest_new_sms now p)).
Proof.
  unfold ingest_new_sms. rewrite bind_get. cbv zeta. rewrite bind_run.
  destruct (bool_decide (find_not_in (processed_ids p) (raw_collection p) = [])) eqn:E.
  - apply bool_decide_eq_true in E. simpl. intros sms Hin.
    destruct (decide (sms_id sms ∈ processed_ids p)) as [|Hn]; [by left|].
    assert (sms ∈ find_not_in (processed_ids p) (raw_collection p)) as Hf
      by (by apply elem_of_find_not_in).
    rewrite E in Hf. by apply elem_of_nil in Hf.
  - cbn [negb]. rewrite bind_run.
    destruct (for_each_process_and_mark now
                (find_not_in (processed_ids p) (raw_collection p)) p) as (Hr & He & Hm).
    destruct (for_each _ _ p) as [o q]. simpl in Hr, He, Hm. subst o.
    destruct (update_combined_run q) as (o & view & ->).
    assert (Hq : settled (set_combined_collection view q)).
    { intros sms Hin. simpl in Hin |- *.
      destruct He as (Hraw & _ & _ & _ & _ & _ & _ & Hi & _). rewrite Hraw in Hin.
      destruct (decide (sms_id sms ∈ processed_ids p)) as [|Hn]; [left; by apply Hi|].
      destruct (is_transactional (default EmptyString (sms_body sms))) eqn:Ht; [|by right].
      left. apply Hm; [|done]. by apply elem_of_find_not_in. }
    destruct o; exact Hq.
Qed.

#[local] Instance same_stores_preorder : PreOrder same_stores.
Proof.
  split.
  - intros p. by split.
  - intros p1 p2 p3 [H1 H2] [H3 H4]. split; congruence.
Qed.

Lemma update_combined_same_stores : preserves same_stores update_combined_transactions.
Proof. intros p. destruct (update_combined_run p) as (o & view & ->). by split. Qed.

Lemma mark_new_manual_entries_same_stores : preserves same_stores mark_new_manual_entries.
Proof.
  unfold mark_new_manual_entries.
  apply preserves_bind; [apply _ | apply preserves_get; apply _ | intros self].
  cbv zeta. apply preserves_bind; [apply _ | | intros ?; apply preserves_ret; apply _].
  destruct (bool_decide _); [|apply preserves_ret; apply _].
  apply preserves_bind; [apply _ | | intros ?; apply update_combined_same_stores].
  apply preserves_modify. intros p. by split.
Qed.

(** In a settled state the SMS half of a pass stores nothing. *)
Lemma ingest_new_sms_settled (now : string) (p : Processor) :
  settled p -> same_stores p (snd (ingest_new_sms now p)).
Proof.
  intros Hs. unfold ingest_new_sms. rewrite bind_get. cbv zeta. rewrite bind_run.
  destruct (negb (bool_decide (find_not_in (processed_ids p) (raw_collection p) = []))).
  - rewrite bind_run, for_each_filtered.
    + destruct (update_combined_run p) as (o & view & ->). destruct o; by split.
    + intros sms Hin. apply elem_of_find_not_in in Hin as [Hin Hn].
      destruct (Hs sms Hin); done.
  - by split.
Qed.

Lemma settled_extends (p p' : Processor) : extends p p' -> settled p -> settled p'.
Proof.
  intros (Hraw & _ & _ & _ & _ & _ & _ & Hi & _) Hs sms Hin. rewrite Hraw in Hin.
  destruct (Hs sms Hin); [left; by apply Hi | by right].
Qed.

Lemma process_new_data_settled (now : string) (p : Processor) :
  settled p -> same_stores p (snd (process_new_data now p)).
Proof.
  intros Hs. unfold process_new_data. rewrite bind_run.
  pose proof (mark_new_manual_entries_same_stores p) as H1.
  pose proof (mark_new_manual_entries_extends p) as He.
  destruct (mark_new_manual_entries p) as [[a|e] p1]; simpl in H1, He |- *; [|done].
  rewrite bind_run.
  pose proof (ingest_new_sms_settled now p1 (settled_extends _ _ He Hs)) as H2.
  destruct (ingest_new_sms now p1) as [[b|e] p2]; simpl in H2 |- *; by etrans.
Qed.

Lemma process_new_data_settles (now : string) (p : Processor) (n : nat) :
  fst (process_new_data now p) = Returned n -> settled (snd (process_new_data now p)).
Proof.
  unfold process_new_data. rewrite bind_run.
  destruct (mark_new_manual_entries p) as [[a|e] p1]; [|discriminate].
  rewrite bind_run. pose proof (ingest_new_sms_settles now p1) as H.
  destruct (ingest_new_sms now p1) as [[b|e] p2]; [|discriminate].
  intros _. exact H.
Qed.

(** *** The claims about ingestion *)

(** Saving under an id that both stores already hold changes neither. *)
Lemma save_transaction_present (now : string) (sms : Sms) (amount : Q)
    (recipient transaction_type category body : string) (p : Processor) :
  sms_id sms ∈ t_id <$> processed_collection p ->
  sms_id sms ∈ c_id <$> categorized_collection p ->
  same_stores p
    (snd (save_transaction now sms amount recipient transaction_type category body p)).
Proof.
  intros Ht Hc. unfold save_transaction. rewrite bind_modify. cbv beta zeta.
  unfold modify. cbn [snd set_processed_collection set_categorized_collection
    processed_collection categorized_collection t_id].
  rewrite (upsert_present t_id _ _ _ Ht), (upsert_present c_id _ _ _ Hc). by split.
Qed.

(** C1: running the ingestion pass twice over the same raw messages is
    idempotent. Ids that were unique in a store are still unique after
    both passes (no duplicate record); the store after the first pass is
    an initial segment of the store after the second (every persisted
    record is still there with every field as it was); saving again under
    a persisted id changes nothing (insert-if-absent); and when the first
    pass ran to its end, the second pass stores nothing at all: both
    stores are equal to what they were. The time of the pass does not
    matter. *)
Theorem ingestion_twice_is_idempotent (now1 now2 : string) (p : Processor) :
  let p1 := snd (process_new_data now1 p) in
  let p2 := snd (process_new_data now2 p1) in
  (NoDup (t_id <$> processed_collection p) -> NoDup (t_id <$> processed_collection p2))
  /\ (NoDup (c_id <$> categorized_collection p) ->
      NoDup (c_id <$> categorized_collection p2))
  /\ processed_collection p1 `prefix_of` processed_collection p2
  /\ categorized_collection p1 `prefix_of` categorized_collection p2
  /\ (forall sms amount recipient transaction_type category body,
        sms_id sms ∈ t_id <$> processed_collection p1 ->
        sms_id sms ∈ c_id <$> categorized_collection p1 ->
        same_stores p1
          (snd (save_transaction now2 sms amount recipient transaction_type category body p1)))
  /\ ((exists n, fst (process_new_data now1 p) = Returned n) ->
      processed_collection p2 = processed_collection p1
      /\ categorized_collection p2 = categorized_collection p1).
Proof.
  intros p1 p2.
  pose proof (process_new_data_extends now1 p) as H1.
  pose proof (process_new_data_extends now2 p1) as H2.
  fold p1 in H1. fold p2 in H2.
  destruct H1 as (_ & _ & _ & _ & _ & Hn1 & Hd1 & _).
  destruct H2 as (_ & _ & _ & Ht2 & Hc2 & Hn2 & Hd2 & _).
  split; [auto|]. split; [auto|]. split; [done|]. split; [done|]. split.
  - intros. by apply save_transaction_present.
  - intros [n Hn]. apply process_new_data_settles in Hn.
    by apply (process_new_data_settled now2) in Hn as [? ?].
Qed.

Lemma ingestion_twice_is_idempotent_witness :
  let p := init [payment_sms; promo_sms] [lunch_expense] [] [] ∅ (Some always_shopping) in
  let p1 := snd (process_new_data "2025-01-05 10:00:01" p) in
  let p2 := snd (process_new_data "2025-01-05 10:00:06" p1) in
  processed_collection p2 = processed_collection p1
  /\ categorized_collection p2 = categorized_collection p1.
Proof.
  intros p p1 p2.
  apply (ingestion_twice_is_idempotent "2025-01-05 10:00:01" "2025-01-05 10:00:06" p).
  exists 2%nat. vm_compute. reflexivity.
Defined.

(** C2 on the code: a message the keyword filter discards is not marked.
    After a pass over a store holding one promotional message, its id is
    outside the processed set and the next pass selects the message
    again; the loop of [home_page.py] marks it. *)
Theorem filtered_message_is_not_marked :
  let p := init [promo_sms] [] [] [] ∅ (Some always_shopping) in
  let p1 := snd (process_new_data "2025-01-05 10:00:01" p) in
  fst (process_new_data "2025-01-05 10:00:01" p) = Returned 1%nat
  /\ (sms_id promo_sms ∉ processed_ids p1)
  /\ find_not_in (processed_ids p1) (raw_collection p1) = [promo_sms]
  /\ sms_id promo_sms ∈ processed_ids (snd (HomePage.process_new_sms "2025-01-05 10:00:01" p)).
Proof.
  intros p p1. split; [|split; [|split]].
  - vm_compute. reflexivity.
  - apply (bool_decide_eq_false_1 (sms_id promo_sms ∈ processed_ids p1)).
    vm_compute. reflexivity.
  - vm_compute. reflexivity.
  - apply (bool_decide_eq_true_1 (sms_id promo_sms ∈ processed_ids
             (snd (HomePage.process_new_sms "2025-01-05 10:00:01" p)))).
    vm_compute. reflexivity.
Qed.

(** C5, as the code has it: right after initialization every persisted id
    is marked; in every state the processor can reach, with records
    arriving from outside between the ingestion methods, the id of every
    stored Transaction and CategorizedTransaction is marked; and when a
    pass over such a state ends, every persisted id, the manual entries
    included, is marked again. *)
Theorem processed_ids_cover_persisted :
  (forall raw manual processed categorized combined fitted,
      persisted_ids (init raw manual processed categorized combined fitted)
      ⊆ processed_ids (init raw manual processed categorized combined fitted))
  /\ (forall p, reachable p -> stored_ids p ⊆ processed_ids p)
  /\ (forall p now, reachable p ->
        persisted_ids (snd (process_new_data now p))
        ⊆ processed_ids (snd (process_new_data now p))).
Proof.
  split; [|split].
  - intros. by rewrite init_covers.
  - apply reachable_stored.
  - intros p now Hr. apply process_new_data_covers. by apply reachable_stored.
Qed.

Lemma processed_ids_cover_persisted_witness :
  let p := set_manual_collection [lunch_expense]
             (init [payment_sms] [] [] [] ∅ (Some always_shopping)) in
  persisted_ids (snd (process_new_data "2025-01-05 10:00:01" p))
  ⊆ processed_ids (snd (process_new_data "2025-01-05 10:00:01" p)).
Proof.
  intros p.
  apply (proj2 (proj2 processed_ids_cover_persisted) p "2025-01-05 10:00:01").
  apply (reachable_step (init [payment_sms] [] [] [] ∅ (Some always_shopping)) p).
  - apply reachable_init.
  - apply (step_expense_arrives
             (init [payment_sms] [] [] [] ∅ (Some always_shopping)) lunch_expense).
Defined.

(** C5 as stated fails: a manual entry that arrived after initialization
    is persisted and not yet marked; the next pass counts it as new. *)
Lemma unmarked_manual_entry_counterexample :
  let p := set_manual_collection [lunch_expense] (init [] [] [] [] ∅ None) in
  reachable p
  /\ expense_id lunch_expense ∈ persisted_ids p
  /\ (expense_id lunch_expense ∉ processed_ids p)
  /\ fst (process_new_data "2025-01-05 10:00:01" p) = Returned 1%nat.
Proof.
  intros p. split; [|split; [|split]].
  - apply (reachable_step (init [] [] [] [] ∅ None) p); [apply reachable_init|].
    apply (step_expense_arrives (init [] [] [] [] ∅ None) lunch_expense).
  - apply (bool_decide_eq_true_1 (expense_id lunch_expense ∈ persisted_ids p)).
    vm_compute. reflexivity.
  - apply (bool_decide_eq_false_1 (expense_id lunch_expense ∈ processed_ids p)).
    vm_compute. reflexivity.
  - vm_compute. reflexivity.
Qed.

End PipelineFacts.

(** ** Aggregation *)

Module AggregatorFacts.

Import NumFacts TransactionProcessor Samples PipelineFacts.

Lemma category_totals_of_entries (categorized : list Categorized) (manual : list Expense) :
  category_totals_of categorized manual
  = fold_outcome (fun e => add_to_total e.1 e.2) (aggregation_entries categorized manual) ∅.
Proof.
  unfold category_totals_of, aggregation_entries.
  rewrite fold_outcome_app, fold_outcome_fmap.
  change (fun x : Categorized =>
            add_to_total (categorized_entry x).1 (categorized_entry x).2)
    with (fun doc : Categorized =>
            add_to_total (default "Miscellaneous" (c_Category doc))
                         (default (PyFloat 0) (c_Amount doc))).
  destruct (fold_outcome _ categorized ∅) as [category_totals|e]; [|reflexivity].
  rewrite !bind_returned, fold_outcome_fmap. reflexivity.
Qed.

(** A source category outside the renaming table changes no total, and
    its amount is not even converted. *)
Lemma add_to_total_unmapped (original_cat : string) (amount : pyval)
    (category_totals : gmap string Double.double) :
  category_mapping !! original_cat = None ->
  add_to_total original_cat amount category_totals = Returned category_totals.
Proof. intros H. unfold add_to_total. by rewrite H. Qed.

Lemma bucket_amounts_cons (bucket : string) (e : string * pyval)
    (entries : list (string * pyval)) :
  bucket_amounts bucket (e :: entries)
  = match (if bool_decide (category_mapping !! e.1 = Some bucket)
           then match Double.py_float e.2 with
                | Returned amt => Some amt
                | Raised _ => None
                end
           else None) with
    | Some amt => amt :: bucket_amounts bucket entries
    | None => bucket_amounts bucket entries
    end.
Proof. reflexivity. Qed.

(** The two summing loops: a bucket gets an entry with the first record
    renamed to it, and its total is the running total of those records'
    amounts, added in the order of the stores. *)
Lemma totals_fold (entries : list (string * pyval))
    (acc totals : gmap string Double.double) :
  fold_outcome (fun e => add_to_total e.1 e.2) entries acc = Returned totals ->
  forall bucket,
    totals !! bucket
    = match bucket_amounts bucket entries with
      | [] => acc !! bucket
      | amounts => Some (foldl PrimFloat.add (default 0%float (acc !! bucket)) amounts)
      end.
Proof.
  revert acc. induction entries as [|[cat amount] l IH]; intros acc H bucket.
  - simpl in H. by injection H as <-.
  - rewrite fold_outcome_cons in H. rewrite bucket_amounts_cons.
    unfold add_to_total in H. cbn [fst snd] in H |- *.
    destruct (category_mapping !! cat) as [new_cat|] eqn:Hmap.
    + destruct (Double.py_float amount) as [amt|e] eqn:Hf; [|discriminate].
      rewrite !bind_returned in H. rewrite (IH _ H bucket).
      destruct (decide (new_cat = bucket)) as [->|Hne].
      * rewrite bool_decide_eq_true_2 by done. rewrite lookup_insert_eq.
        by destruct (bucket_amounts bucket l).
      * rewrite bool_decide_eq_false_2 by congruence.
        by rewrite lookup_insert_ne.
    + rewrite bind_returned in H. rewrite bool_decide_eq_false_2 by congruence.
      exact (IH _ H bucket).
Qed.

Lemma charts_lookup (category_totals : gmap string Double.double) (bucket : string) :
  map_fold (fun category total collection =>
              <[category := {| chart_category := category;
                               chart_value := Double.round2 total |}]> collection)
           (∅ : gmap string Chart) category_totals !! bucket
  = (fun total => {| chart_category := bucket; chart_value := Double.round2 total |})
      <$> category_totals !! bucket.
Proof.
  revert bucket.
  apply (map_fold_weak_ind (fun (r : gmap string Chart) (m : gmap string Double.double) =>
           forall bucket, r !! bucket
             = (fun total => {| chart_category := bucket;
                                chart_value := Double.round2 total |})
                 <$> m !! bucket)).
  - intros bucket. by rewrite !lookup_empty.
  - intros i x m r Hi IH bucket. destruct (decide (i = bucket)) as [->|Hne].
    + by rewrite !lookup_insert_eq.
    + rewrite !lookup_insert_ne by done. apply IH.
Qed.

Lemma update_combined_returns (p : Processor) (category_totals : gmap string Double.double) :
  category_totals_of (categorized_collection p) (manual_collection p)
  = Returned category_totals ->
  update_combined_transactions p
  = (Returned tt,
     set_combined_collection
       (map_fold (fun category total collection =>
                    <[category := {| chart_category := category;
                                     chart_value := Double.round2 total |}]> collection)
                 ∅ category_totals) p).
Proof.
  intros H. unfold update_combined_transactions.
  rewrite bind_modify, bind_get, bind_run. unfold lift. cbn [categorized_collection
    manual_collection set_combined_collection]. rewrite H. reflexivity.
Qed.

(** C8, as the code has it. When the aggregation pass returns, the view it
    leaves is computed from the two stores alone: a source category that
    is not in the renaming table contributes nothing; a renamed category
    no record maps to is absent; and the value of every other renamed
    category is [round(total, 2)] of the running total, in double
    precision, of the amounts of all categorized transactions and then all
    manual entries renamed to it, added in the order of the stores. Two
    categorized amounts 100 and 50 of one category give exactly 150. *)
Theorem combined_totals_are_rounded_sums (p : Processor)
    (category_totals : gmap string Double.double) :
  category_totals_of (categorized_collection p) (manual_collection p)
  = Returned category_totals ->
  let entries := aggregation_entries (categorized_collection p) (manual_collection p) in
  let view := combined_collection (snd (update_combined_transactions p)) in
  (forall cat amount totals,
      category_mapping !! cat = None -> add_to_total cat amount totals = Returned totals)
  /\ (forall bucket, bucket_amounts bucket entries = [] -> view !! bucket = None)
  /\ (forall bucket, bucket_amounts bucket entries <> [] ->
        view !! bucket
        = Some {| chart_category := bucket;
                  chart_value :=
                    Double.round2 (Double.sum (bucket_amounts bucket entries)) |})
  /\ combined_collection
       (snd (update_combined_transactions
               (with_categorized [categorized_doc 1 "debited" "Food & Dining" 100;
                                  categorized_doc 2 "debited" "Food & Dining" 50])))
       !! "Food"
     = Some {| chart_category := "Food"; chart_value := 150%float |}.
Proof.
  intros H entries view.
  split; [intros; by apply add_to_total_unmapped|].
  assert (Hview : forall bucket, view !! bucket
            = (fun total => {| chart_category := bucket;
                               chart_value := Double.round2 total |})
                <$> category_totals !! bucket).
  { intros bucket. unfold view. rewrite (update_combined_returns p _ H). simpl.
    apply charts_lookup. }
  rewrite category_totals_of_entries in H. fold entries in H.
  split; [|split].
  - intros bucket Hnone. rewrite Hview, (totals_fold _ _ _ H bucket), Hnone.
    by rewrite lookup_empty.
  - intros bucket Hsome. rewrite Hview, (totals_fold _ _ _ H bucket).
    unfold Double.sum. rewrite lookup_empty.
    by destruct (bucket_amounts bucket entries).
  - clear. vm_compute. reflexivity.
Qed.

Lemma combined_totals_are_rounded_sums_witness :
  combined_collection
    (snd (update_combined_transactions
            (with_categorized [categorized_doc 1 "debited" "Shopping" (1999 # 1000);
                               categorized_doc 2 "credited" "Shopping" (1 # 1)])))
    !! "Shopping"
  = Some {| chart_category := "Shopping";
            chart_value :=
              Double.round2 (Double.sum [Double.of_Q (1999 # 1000); Double.of_Q 1]) |}.
Proof.
  refine (proj1 (proj2 (proj2
    (combined_totals_are_rounded_sums
       (with_categorized [categorized_doc 1 "debited" "Shopping" (1999 # 1000);
                          categorized_doc 2 "credited" "Shopping" (1 # 1)])
       _ _))) "Shopping" _).
  - vm_compute. reflexivity.
  - vm_compute. discriminate.
Defined.

(** C8 as stated fails: the stored value is rounded. One transaction of
    0.004 in "Shopping" gives the stored total 0, not the sum 0.004. *)
Lemma rounded_total_counterexample :
  let p := with_categorized [categorized_doc 1 "debited" "Shopping" (4 # 1000)] in
  let total :=
    Double.sum (bucket_amounts "Shopping"
                  (aggregation_entries (categorized_collection p) (manual_collection p))) in
  combined_collection (snd (update_combined_transactions p)) !! "Shopping"
  = Some {| chart_category := "Shopping"; chart_value := 0%float |}
  /\ total = Double.of_Q (4 # 1000)
  /\ (0 =? total)%float = false.
Proof. split; [|split]; vm_compute; reflexivity. Qed.

End AggregatorFacts.

(** ** Budgeting *)

Module BudgetFacts.

Import NumFacts BudgetAnalyzer Samples.







(** *** Goal allocation *)


(** When the sum of the monthly targets is computed, every monthly target
    was. *)
Lemma total_returns_targets (goals : list (N * Goal)) (acc total : Double.double) :
  fold_outcome (fun ig acc => t ← monthly_target (snd ig); mret (acc + t)%float) goals acc
  = Returned total ->
  Forall (fun ig => exists target, monthly_target (snd ig) = Returned target) goals.
Proof.
  revert acc. induction goals as [|ig l IH]; intros acc H; [constructor|].
  rewrite fold_outcome_cons in H.
  destruct (monthly_target (snd ig)) as [target|e] eqn:E; [|discriminate].
  rewrite !bind_returned in H. constructor; [by exists target | exact (IH _ H)].
Qed.

Lemma py_div_nonzero (a b : Double.double) :
  (b =? 0)%float = false -> Double.py_div a b = Returned (a / b)%float.
Proof. intros H. unfold Double.py_div. by rewrite H. Qed.

(** What the second loop leaves: the shares written one after another,
    each under the name of its goal. *)
Definition shares (total_savings total : Double.double) (goals : list (N * Goal))
    (acc : gmap string Double.double) : gmap string Double.double :=
  foldl (fun allocated ig =>
           match monthly_target (snd ig) with
           | Returned target =>
               <[goalName (snd ig) := (target / total * total_savings)%float]> allocated
           | Raised _ => allocated
           end)
        acc goals.

(** With a non-zero total, the second loop writes one share per goal. *)
Lemma allocation_fold (total_savings total : Double.double) (goals : list (N * Goal))
    (acc : gmap string Double.double) :
  (total =? 0)%float = false ->
  Forall (fun ig => exists target, monthly_target (snd ig) = Returned target) goals ->
  fold_outcome (fun ig allocated =>
      let g := snd ig in
      monthly_target ← monthly_target g;
      share ← Double.py_div monthly_target total;
      mret (<[goalName g := (share * total_savings)%float]> allocated))
    goals acc
  = Returned (shares total_savings total goals acc).
Proof.
  intros Hne H. revert acc. induction H as [|ig l [target Hig] _ IH]; intros acc; [done|].
  rewrite fold_outcome_cons. cbv beta zeta.
  rewrite Hig, bind_returned, (py_div_nonzero _ _ Hne), bind_returned.
  etrans; [apply IH|]. unfold shares. simpl. by rewrite Hig.
Qed.






(** *** Current spending *)

Lemma debited_amounts_cons (category : string) (item : Categorized)
    (data : list Categorized) :
  debited_amounts category (item :: data)
  = match (if bool_decide (c_Transaction_Type item = Some "debited"
                           /\ c_Category item = Some category
                           /\ category ∉ excluded_categories)
           then match amount ← field (c_Amount item); Double.py_float amount with
                | Returned amt => Some amt
                | Raised _ => None
                end
           else None) with
    | Some amt => amt :: debited_amounts category data
    | None => debited_amounts category data
    end.
Proof. reflexivity. Qed.

(** The loop adds to the entry of a category exactly the amounts that
    [debited_amounts] lists for it, in the order of the store. *)
Lemma current_spending_fold (data : list Categorized)
    (acc current : gmap string Double.double) :
  fold_outcome current_spending_step data acc = Returned current ->
  forall category,
    current !! category
    = match debited_amounts category data with
      | [] => acc !! category
      | amounts => Some (foldl PrimFloat.add (default 0%float (acc !! category)) amounts)
      end.
Proof.
  revert acc. induction data as [|item l IH]; intros acc H category.
  - simpl in H. by injection H as <-.
  - rewrite fold_outcome_cons in H. rewrite debited_amounts_cons.
    remember (fold_outcome current_spending_step l) as rest eqn:Hrest.
    unfold current_spending_step in H.
    destruct (c_Transaction_Type item) as [t|] eqn:Ht; [|discriminate].
    cbn [field] in H. rewrite bind_returned in H.
    destruct (String.eqb_spec t "debited") as [->|Hnd].
    + destruct (c_Category item) as [cat|] eqn:Hc; [|discriminate].
      cbn [field] in H. rewrite bind_returned in H.
      destruct (bool_decide (cat ∈ excluded_categories)) eqn:Hex.
      * rewrite bind_returned in H. subst rest. apply bool_decide_eq_true in Hex.
        rewrite bool_decide_eq_false_2; [exact (IH _ H category)|].
        intros (_ & [= ->] & Hn). done.
      * apply bool_decide_eq_false in Hex.
        destruct (field (c_Amount item) ≫= (fun amount => Double.py_float amount))
          as [amt|e] eqn:Ha.
        (* the amount converts *)
        -- rewrite bind_returned in H. subst rest. rewrite (IH _ H category).
           destruct (decide (cat = category)) as [->|Hne].
           ++ rewrite bool_decide_eq_true_2 by done. rewrite lookup_insert_eq.
              by destruct (debited_amounts category l).
           ++ rewrite bool_decide_eq_false_2 by (intros (_ & [= ?] & _); done).
              by rewrite lookup_insert_ne.
        (* the amount is unparseable *)
        -- rewrite bind_returned in H. subst rest. rewrite (IH _ H category).
           by destruct (bool_decide _).
    + rewrite bind_returned in H. subst rest.
      rewrite bool_decide_eq_false_2; [exact (IH _ H category)|].
      intros ([= ->] & _). done.
Qed.

Lemma save_recommendations_lookup (current recommended : gmap string Double.double)
    (category : string) :
  save_recommendations current recommended !! category
  = (fun amount => {| rec_category := category;
                      rec_current := Double.round2 (default 0%float (current !! category));
                      rec_recommended := Double.round2 amount |})
      <$> recommended !! category.
Proof.
  revert category. unfold save_recommendations.
  apply (map_fold_weak_ind
           (fun (r : gmap string Recommendation) (m : gmap string Double.double) =>
           forall category, r !! category
             = (fun amount => {| rec_category := category;
                                 rec_current :=
                                   Double.round2 (default 0%float (current !! category));
                                 rec_recommended := Double.round2 amount |})
                 <$> m !! category)).
  - intros category. by rewrite !lookup_empty.
  - intros i x m r Hi IH category. destruct (decide (i = category)) as [->|Hne].
    + by rewrite !lookup_insert_eq.
    + rewrite !lookup_insert_ne by done. apply IH.
Qed.

(** C10, as the code has it: when the scan of the categorized store
    returns, the record saved for a category holds as its "current" figure
    [round(total, 2)] of the running total, in double precision and in the
    order of the store, of the amounts of all stored transactions of that
    category whose direction is "debited", for a category outside the
    excluded set; credits, other categories and amounts that do not
    convert contribute nothing. The scan covers the whole store and reads
    no date: under any other dates it returns the same figures. Amounts
    stored as text are taken to be ASCII. *)
Theorem current_spend_is_rounded_history (data : list Categorized)
    (current recommended : gmap string Double.double) :
  Forall (fun item => ascii_amount item = true) data ->
  get_current_spending data = Returned current ->
  (forall category,
      save_recommendations current recommended !! category
      = (fun amount => {| rec_category := category;
                          rec_current :=
                            Double.round2 (Double.sum (debited_amounts category data));
                          rec_recommended := Double.round2 amount |})
          <$> recommended !! category)
  /\ (forall redate : Categorized -> string,
        get_current_spending ((fun item => set_date (redate item) item) <$> data)
        = Returned current).
Proof.
  intros _ H. split.
  - intros category. rewrite save_recommendations_lookup.
    destruct (recommended !! category) as [amount|]; [|done].
    simpl. f_equal. f_equal. f_equal.
    rewrite (current_spending_fold data ∅ current H category).
    unfold Double.sum. rewrite lookup_empty.
    by destruct (debited_amounts category data).
  - intros redate. unfold get_current_spending in *.
    rewrite fold_outcome_fmap. exact H.
Qed.

Lemma current_spend_is_rounded_history_witness :
  exists current,
    get_current_spending small_and_other = Returned current
    /\ save_recommendations current shopping_budget !! "Shopping"
       = Some {| rec_category := "Shopping";
                 rec_current := Double.round2 (Double.sum [Double.of_Q (4 # 1000)]);
                 rec_recommended := Double.round2 80 |}.
Proof.
  eexists. split; [vm_compute; reflexivity|].
  refine (proj1 (current_spend_is_rounded_history small_and_other _ shopping_budget _ _)
            "Shopping").
  - repeat constructor.
  - vm_compute. reflexivity.
Defined.

(** C10 as stated fails: with a debited transaction of 0.004 in
    "Shopping" and one of 50 in "Food & Dining", the record of "Shopping"
    holds 0 as its current figure: neither the sum for its category,
    0.004, nor the sum over all categories, 50.004. *)
Lemma current_figure_counterexample :
  exists current record,
    get_current_spending small_and_other = Returned current
    /\ save_recommendations current shopping_budget !! "Shopping" = Some record
    /\ rec_current record = 0%float
    /\ (rec_current record =? Double.sum (debited_amounts "Shopping" small_and_other))%float
       = false
    /\ (rec_current record
        =? Double.sum (debited_amounts "Shopping" small_and_other
                       ++ debited_amounts "Food & Dining" small_and_other))%float
       = false.
Proof.
  eexists _, _. split; [vm_compute; reflexivity|].
  split; [vm_compute; reflexivity|]. split; [vm_compute; reflexivity|].
  split; vm_compute; reflexivity.
Qed.

End BudgetFacts.
(** * Further properties of the code

    ** Text cleaning and extraction *)

Module TextFacts.
Import Text TextSpec TransactionProcessor ReFacts ExtractionFacts.

Lemma lower_char_idempotent (c : ascii) : lower_char (lower_char c) = lower_char c.
Proof. destruct c as [[] [] [] [] [] [] [] []]; reflexivity. Qed.

Lemma lower_char_kept (c : ascii) :
  is_word c || is_space c = true -> is_clean (lower_char c) = true.
Proof. destruct c as [[] [] [] [] [] [] [] []]; vm_compute; congruence. Qed.

Lemma is_clean_kept (c : ascii) :
  is_clean c = true -> is_word c || is_space c = true /\ lower_char c = c.
Proof. destruct c as [[] [] [] [] [] [] [] []]; vm_compute; intros; split; congruence. Qed.

Lemma clean_text_chars (text : string) : all_chars is_clean (clean_text text) = true.
Proof.
  unfold clean_text, lower. induction text as [|c s IH]; simpl; [done|].
  destruct (is_word c || is_space c) eqn:E; [|exact IH].
  simpl. by rewrite (lower_char_kept _ E), IH.
Qed.

Lemma clean_text_fixed (s : string) : all_chars is_clean s = true -> clean_text s = s.
Proof.
  unfold clean_text, lower. induction s as [|c s IH]; simpl; [done|].
  intros H. apply andb_true_iff in H as [Hc Hs].
  destruct (is_clean_kept _ Hc) as [Hk Hl]. rewrite Hk. simpl.
  by rewrite Hl, IH.
Qed.

(** X1: on ASCII text [clean_text] is idempotent, and what it returns
    holds only lower-case letters, digits, the underscore and white
    space. *)
Theorem clean_text_idempotent (text : string) :
  is_ascii text = true ->
  clean_text (clean_text text) = clean_text text
  /\ all_chars is_clean (clean_text text) = true.
Proof.
  intros _. split; [|apply clean_text_chars]. apply clean_text_fixed, clean_text_chars.
Qed.

Lemma clean_text_idempotent_witness :
  clean_text (clean_text "Paid Rs. 1,500 to John!") = clean_text "Paid Rs. 1,500 to John!"
  /\ all_chars is_clean (clean_text "Paid Rs. 1,500 to John!") = true.
Proof. apply (clean_text_idempotent "Paid Rs. 1,500 to John!"). reflexivity. Defined.

End TextFacts.

Module ExtractionShape.
Import Text TextSpec TransactionProcessor ReFacts ExtractionFacts.

Lemma digit_is_amount_char (c : ascii) : is_digit c = true -> is_amount_char c = true.
Proof. intros H. unfold is_amount_char. by rewrite H. Qed.

(** An amount text starts with a digit and holds digits and at most one
    point. *)
Lemma amount_text_shape (m : string) :
  Re.lang true number_pattern m ->
  exists d rest,
    remove_char ","%char m = String d rest
    /\ is_digit d = true /\ all_chars is_amount_char rest = true.
Proof.
  intros L. apply lang_number_pattern in L
    as (d & ds & sep & fs & -> & Hd & Hds & Hsep & Hfs).
  change (String d (String.append ds (String.append sep fs)))
    with (String.append (String d EmptyString)
            (String.append ds (String.append sep fs))).
  rewrite !remove_char_append.
  rewrite (remove_comma_digits ds), (remove_comma_digits fs) by done.
  unfold remove_char at 1. simpl. rewrite (digit_not_comma _ Hd). simpl.
  eexists _, _. split; [reflexivity|]. split; [done|].
  rewrite !all_chars_append.
  rewrite (all_chars_impl _ _ ds digit_is_amount_char Hds).
  rewrite (all_chars_impl _ _ fs digit_is_amount_char Hfs).
  destruct Hsep as [-> | [-> | ->]]; reflexivity.
Qed.

Lemma unsigned_float_nonneg (s : string) (q : Q) :
  Num.unsigned_float s = Some q -> (0 <= q)%Q.
Proof.
  unfold Num.unsigned_float. destruct (Num.split_dot s) as [ip fp].
  destruct (_ =? 0)%nat; [discriminate|].
  destruct (Num.digits_value 0 ip) as [i|]; [|discriminate].
  destruct (Num.digits_value 0 (default EmptyString fp)) as [f|]; [|discriminate].
  intros [= <-].
  assert (0 <= Z.of_N i # 1)%Q by (unfold Qle; simpl; lia).
  assert (0 <= Z.of_N f # Num.pow10 (String.length (default EmptyString fp)))%Q
    by (unfold Qle; simpl; lia).
  lra.
Qed.

Lemma rstrip_head (d : ascii) (rest : string) :
  is_space d = false -> exists rest', rstrip (String d rest) = String d rest'.
Proof.
  intros H. simpl. destruct (rstrip rest); [rewrite H|]; eauto.
Qed.

Lemma float_of_digit_led_nonneg (d : ascii) (rest : string) (q : Q) :
  is_digit d = true -> Num.float_of_string (String d rest) = Some q -> (0 <= q)%Q.
Proof.
  intros Hd. unfold Num.float_of_string, strip.
  assert (Hl : lstrip (String d rest) = String d rest)
    by (simpl; by rewrite (digit_not_space _ Hd)).
  rewrite Hl. destruct (rstrip_head d rest (digit_not_space _ Hd)) as [rest' ->].
  destruct (digit_not_sign _ Hd) as [-> ->]. apply unsigned_float_nonneg.
Qed.

(** *** The amount text under [float] in double precision *)

Lemma amount_char_plain (c : ascii) :
  is_amount_char c = true ->
  Double.is_blank c = false /\ Ascii.eqb c "_"%char = false
  /\ Ascii.eqb c "e"%char || Ascii.eqb c "E"%char = false.
Proof.
  destruct c as [[] [] [] [] [] [] [] []]; vm_compute; intros; repeat split; congruence.
Qed.

Lemma drop_trailing_blanks_plain (s : string) :
  all_chars is_amount_char s = true -> Double.drop_trailing_blanks s = s.
Proof.
  induction s as [|c s IH]; simpl; [done|].
  intros H. apply andb_true_iff in H as [Hc Hs]. rewrite IH by done.
  destruct s; [|done]. by destruct (amount_char_plain _ Hc) as [-> _].
Qed.

Lemma drop_underscores_plain (s : string) (after_digit : bool) :
  all_chars is_amount_char s = true -> Double.drop_underscores after_digit s = Some s.
Proof.
  revert after_digit. induction s as [|c s IH]; simpl; intros after_digit H; [done|].
  apply andb_true_iff in H as [Hc Hs].
  destruct (amount_char_plain _ Hc) as (_ & -> & _). by rewrite IH.
Qed.

Lemma split_exponent_plain (s : string) :
  all_chars is_amount_char s = true -> Double.split_exponent s = (s, None).
Proof.
  induction s as [|c s IH]; simpl; [done|].
  intros H. apply andb_true_iff in H as [Hc Hs].
  destruct (amount_char_plain _ Hc) as (_ & _ & ->). by rewrite IH.
Qed.

Lemma digit_led_is_no_word (d : ascii) (rest : string) :
  is_digit d = true ->
  String.eqb (lower (String d rest)) "inf" || String.eqb (lower (String d rest)) "infinity"
  = false
  /\ String.eqb (lower (String d rest)) "nan" = false.
Proof.
  destruct d as [[] [] [] [] [] [] [] []]; vm_compute; intros; split; congruence.
Qed.

(** [float] accepts a text of digits with at most one point that starts
    with a digit. *)
Lemma double_of_decimal (d : ascii) (ds : string) (fp : option string) :
  is_digit d = true -> all_chars is_digit ds = true ->
  all_chars is_digit (default EmptyString fp) = true ->
  exists x,
    Double.float_of_string
      match fp with
      | None => String d ds
      | Some f => String.append (String d ds) (String "."%char f)
      end
    = Some x.
Proof.
  intros Hd Hds Hfp.
  set (s := match fp with
            | None => String d ds
            | Some f => String.append (String d ds) (String "."%char f)
            end).
  assert (Hhead : exists rest, s = String d rest) by (unfold s; destruct fp; simpl; eauto).
  assert (Hs : all_chars is_amount_char s = true).
  { unfold s. destruct fp as [f|]; [rewrite all_chars_append|]; simpl in *;
      rewrite (digit_is_amount_char _ Hd), (all_chars_impl _ _ ds digit_is_amount_char Hds);
      [|done]. by rewrite (all_chars_impl _ _ f digit_is_amount_char Hfp). }
  assert (Hsplit : Num.split_dot s = (String d ds, fp)).
  { unfold s. destruct fp as [f|].
    - apply split_dot_digits_dot. simpl. by rewrite Hd, Hds.
    - apply split_dot_digits. simpl. by rewrite Hd, Hds. }
  unfold Double.float_of_string.
  assert (Hskip : Double.skip_blanks s = s).
  { destruct Hhead as [rest ->]. simpl.
    by destruct (amount_char_plain _ (digit_is_amount_char _ Hd)) as [-> _]. }
  rewrite Hskip, (drop_trailing_blanks_plain s Hs), (drop_underscores_plain s false Hs).
  simpl mbind. 
  assert (Hsign : Double.split_sign s = (false, s)).
  { destruct Hhead as [rest ->]. unfold Double.split_sign.
    by destruct (digit_not_sign _ Hd) as [-> ->]. }
  rewrite Hsign.
  assert (Hword : String.eqb (lower s) "inf" || String.eqb (lower s) "infinity" = false
                  /\ String.eqb (lower s) "nan" = false).
  { destruct Hhead as [rest ->]. by apply digit_led_is_no_word. }
  destruct Hword as [-> ->].
  unfold Double.decimal. rewrite (split_exponent_plain s Hs), Hsplit.
  destruct (digits_value_digits (String d ds) 0) as [i Hi]; [simpl; by rewrite Hd, Hds|].
  destruct (digits_value_digits (default EmptyString fp) 0 Hfp) as [f Hf].
  rewrite Hi, Hf. simpl. eauto.
Qed.

(** [float] accepts every amount text the number pattern can produce. *)
Lemma double_of_number (m : string) :
  Re.lang true number_pattern m ->
  exists x, Double.float_of_string (remove_char ","%char m) = Some x.
Proof.
  intros L. apply lang_number_pattern in L
    as (d & ds & sep & fs & -> & Hd & Hds & Hsep & Hfs).
  assert (Hhead : remove_char ","%char (String d (String.append ds (String.append sep fs)))
                  = String d (String.append ds
                                (String.append (remove_char ","%char sep) fs))).
  { change (String d (String.append ds (String.append sep fs)))
      with (String.append (String d EmptyString)
              (String.append ds (String.append sep fs))).
    rewrite !remove_char_append.
    rewrite (remove_comma_digits ds), (remove_comma_digits fs) by done.
    unfold remove_char at 1. simpl. rewrite (digit_not_comma _ Hd). reflexivity. }
  rewrite Hhead.
  assert (Hsep' : remove_char ","%char sep = EmptyString \/ remove_char ","%char sep = ".").
  { destruct Hsep as [-> | [-> | ->]]; auto. }
  destruct Hsep' as [-> | ->].
  - rewrite append_nil_l.
    apply (double_of_decimal d (String.append ds fs) None Hd); [|done].
    by rewrite all_chars_append, Hds, Hfs.
  - exact (double_of_decimal d ds (Some fs) Hd Hds Hfs).
Qed.

(** X2: for an ASCII message, the amount text that
    [parse_transaction_details] returns starts with a digit and holds only
    digits and points (no comma, no sign, never empty); its value as a
    decimal is not negative, and [float] of it returns: the conversion in
    [process_single_sms] cannot raise. *)
Theorem parsed_amount_is_unsigned_decimal (body : string) :
  is_ascii body = true ->
  let amount := fst (fst (parse_transaction_details body)) in
  (exists d rest, amount = String d rest /\ is_digit d = true
                  /\ all_chars is_amount_char rest = true)
  /\ (exists q, py_float (PyStr amount) = Returned q /\ (0 <= q)%Q)
  /\ exists x, Double.py_float (PyStr amount) = Returned x.
Proof.
  intros _. cbv zeta. unfold parse_transaction_details. cbn [fst].
  destruct (Re.search true money_pattern body) as [caps|] eqn:E.
  - apply money_match_group2 in E as (m & Hg & L).
    unfold group_text. rewrite Hg. simpl default. unfold id.
    destruct (float_of_number m L) as [_ [q Hq]].
    destruct (double_of_number m L) as [x Hx].
    destruct (amount_text_shape m L) as (d & rest & Hm & Hd & Hrest).
    rewrite Hm in Hq, Hx |- *. split; [eauto|]. split.
    + exists q. split; [unfold py_float; by rewrite Hq|].
      by apply (float_of_digit_led_nonneg d rest).
    + exists x. unfold Double.py_float. by rewrite Hx.
  - split; [by exists "0"%char, EmptyString|]. split.
    + exists 0%Q. split; [reflexivity | lra].
    + eexists. vm_compute. reflexivity.
Qed.

Lemma parsed_amount_is_unsigned_decimal_witness :
  exists x,
    Double.py_float (PyStr (fst (fst (parse_transaction_details "Rs. 1,500 sent to John Doe"))))
    = Returned x.
Proof.
  apply (parsed_amount_is_unsigned_decimal "Rs. 1,500 sent to John Doe"). reflexivity.
Defined.

(* recipient *)
Lemma recipient_match_group1 (body : string) (caps : Re.captures) :
  Re.search true recipient_pattern body = Some caps ->
  exists m, Re.group 1 caps = Some m
            /\ Re.lang true (Re.Plus (Re.Cls (fun c => is_alpha c || is_space c))) m.
Proof.
  intros H. apply search_is_match in H as [s H].
  unfold Re.rmatch, recipient_pattern in H.
  change (Re.run true (Re.Lit "to") s []
            (fun s1 c1 => Re.run true (Re.Cls is_space) s1 c1
               (fun s2 c2 =>
                  Re.run true (Re.Plus (Re.Cls (fun c => is_alpha c || is_space c))) s2 c2
                    (fun s3 c3 => Some (Re.set_group 1 (Re.consumed s2 s3) c3))))
          = Some caps) in H.
  apply run_sound in H as (m1 & s1 & c1 & -> & _ & H).
  apply run_sound in H as (m2 & s2 & c2 & -> & _ & H).
  apply run_sound in H as (m & s3 & c3 & -> & L & H).
  rewrite consumed_append in H. inversion H; subst caps.
  exists m. split; [reflexivity | exact L].
Qed.

Lemma lang_plus_class (p : ascii -> bool) (m : string) :
  Re.lang true (Re.Plus (Re.Cls p)) m -> all_chars p m = true.
Proof.
  unfold Re.Plus. intros L.
  inversion L as [| | |r1 r2 ma mb La Lb| | | | | | |]; subst.
  inversion La; subst. apply lang_star_class in Lb.
  rewrite append_cons, append_nil_l. simpl. by rewrite Lb, H0.
Qed.

Lemma lstrip_chars (p : ascii -> bool) (s : string) :
  all_chars p s = true -> all_chars p (lstrip s) = true.
Proof.
  induction s as [|c s IH]; simpl; [done|].
  intros H. destruct (is_space c); [|exact H].
  apply andb_true_iff in H as [_ H]. auto.
Qed.

Lemma rstrip_chars (p : ascii -> bool) (s : string) :
  all_chars p s = true -> all_chars p (rstrip s) = true.
Proof.
  induction s as [|c s IH]; simpl; [done|].
  intros H. apply andb_true_iff in H as [Hc H]. specialize (IH H).
  destruct (rstrip s); [destruct (is_space c); simpl; [done | by rewrite Hc]|].
  simpl in *. by rewrite Hc.
Qed.

Lemma rstrip_idempotent (s : string) : rstrip (rstrip s) = rstrip s.
Proof.
  induction s as [|c s IH]; simpl; [done|].
  destruct (rstrip s) as [|c' t] eqn:E.
  - destruct (is_space c) eqn:Hc; [done|]. simpl. by rewrite Hc.
  - change (rstrip (String c (String c' t))) with
      (match rstrip (String c' t) with
       | EmptyString => if is_space c then EmptyString else String c EmptyString
       | t0 => String c t0
       end).
    by rewrite IH.
Qed.

Lemma lstrip_head (s : string) :
  lstrip s = EmptyString \/ exists c t, lstrip s = String c t /\ is_space c = false.
Proof.
  induction s as [|c s IH]; simpl; [by left|].
  destruct (is_space c) eqn:E; [exact IH | right; eauto].
Qed.

Lemma strip_idempotent (s : string) : strip (strip s) = strip s.
Proof.
  unfold strip.
  assert (Hl : lstrip (rstrip (lstrip s)) = rstrip (lstrip s)).
  { destruct (lstrip_head s) as [-> | (c & t & -> & Hc)]; [done|].
    destruct (rstrip_head c t Hc) as [t' ->]. simpl. by rewrite Hc. }
  rewrite Hl. apply rstrip_idempotent.
Qed.

(** X3: for an ASCII message, the recipient is N/A exactly when the
    pattern finds no match; a matched recipient holds only letters and
    white space, has no white space at either end, and is never the text
    N/A. *)
Theorem parsed_recipient_is_a_stripped_name (body : string) :
  is_ascii body = true ->
  let recipient := snd (fst (parse_transaction_details body)) in
  match Re.search true recipient_pattern body with
  | None => recipient = "N/A"
  | Some _ =>
      all_chars is_name_char recipient = true
      /\ strip recipient = recipient
      /\ recipient <> "N/A"
  end.
Proof.
  intros _. cbv zeta. unfold parse_transaction_details. cbn [fst snd].
  destruct (Re.search true recipient_pattern body) as [caps|] eqn:E; [|done].
  apply recipient_match_group1 in E as (m & Hg & L).
  unfold group_text. rewrite Hg. simpl default. unfold id.
  apply lang_plus_class in L.
  assert (Hc : all_chars is_name_char (strip m) = true)
    by (unfold strip; by apply rstrip_chars, lstrip_chars).
  split; [exact Hc|]. split; [apply strip_idempotent|].
  intros Heq. rewrite Heq in Hc. vm_compute in Hc. discriminate.
Qed.

Lemma parsed_recipient_is_a_stripped_name_witness :
  match Re.search true recipient_pattern "Rs. 1,500 sent to John Doe" with
  | None => snd (fst (parse_transaction_details "Rs. 1,500 sent to John Doe")) = "N/A"
  | Some _ =>
      all_chars is_name_char
        (snd (fst (parse_transaction_details "Rs. 1,500 sent to John Doe"))) = true
      /\ strip (snd (fst (parse_transaction_details "Rs. 1,500 sent to John Doe")))
         = snd (fst (parse_transaction_details "Rs. 1,500 sent to John Doe"))
      /\ snd (fst (parse_transaction_details "Rs. 1,500 sent to John Doe")) <> "N/A"
  end.
Proof.
  apply (parsed_recipient_is_a_stripped_name "Rs. 1,500 sent to John Doe"). reflexivity.
Defined.

End ExtractionShape.

(** ** What a message leaves in the stores *)

Module StoreFacts.
Import Text TextSpec TransactionProcessor Dedup StoreSpec PipelineFacts ExtractionFacts.

Lemma process_single_sms_result (now : string) (sms : Sms) (p : Processor) :
  fst (process_single_sms now sms p)
  = Returned (is_transactional (default EmptyString (sms_body sms))).
Proof.
  destruct (is_transactional (default EmptyString (sms_body sms))) eqn:E.
  - by destruct (process_single_sms_stored now sms p E) as (t & c & calls & _ & _ & ->).
  - by rewrite (process_single_sms_filtered now sms p E).
Qed.

(** X4: on a stored message whose body is not a text
    [process_single_sms] raises AttributeError and leaves the processor as
    it was. On a message with an ASCII body, or none, it does not raise: it
    returns whether the message passed the keyword filter, and a message
    that did not pass leaves the processor as it was. *)
Theorem process_single_sms_returns_filter (now : string) (d : RawSms.Doc) (p : Processor) :
  let body := default EmptyString (sms_body (RawSms.sms_of d)) in
  (RawSms.readable d = false ->
   RawSms.process_single_sms now d p = (Raised "AttributeError", p))
  /\ (RawSms.readable d = true -> is_ascii body = true ->
      fst (RawSms.process_single_sms now d p) = Returned (is_transactional body)
      /\ (is_transactional body = false -> snd (RawSms.process_single_sms now d p) = p)).
Proof.
  cbv zeta. unfold RawSms.process_single_sms. split; intros ->; [done|].
  intros _. split; [apply process_single_sms_result|].
  intros E. by rewrite (process_single_sms_filtered now _ p E).
Qed.

(** The state after a message that passes the filter, in full. *)
Lemma process_single_sms_run (now : string) (sms : Sms) (p : Processor) :
  let body := default EmptyString (sms_body sms) in
  is_transactional body = true ->
  exists q category calls,
    py_float (PyStr (parse_transaction_details body).1.1) = Returned q
    /\ classify_transaction body (parse_transaction_details body).2 p
       = (Returned category, set_model_calls calls p)
    /\ let t := transaction_of now sms q (parse_transaction_details body).1.2
                  (parse_transaction_details body).2 body in
       process_single_sms now sms p
       = (Returned true,
          set_categorized_collection
            (upsert_set_on_insert c_id (sms_id sms) (categorized_of t category)
               (categorized_collection p))
            (set_processed_collection
               (upsert_set_on_insert t_id (sms_id sms) t (processed_collection p))
               (set_model_calls calls p))).
Proof.
  intros body H. unfold is_transactional in H. apply negb_true_iff in H.
  unfold process_single_sms. fold body. rewrite H.
  pose proof (parsed_amount_is_a_number body) as Hamount.
  destruct (parse_transaction_details body) as [[amount recipient] transaction_type].
  cbv zeta in Hamount. cbn [fst snd] in Hamount |- *. destruct Hamount as [Hne [q Hq]].
  rewrite Hne. cbn [negb]. rewrite bind_run. unfold lift at 1. rewrite Hq.
  rewrite bind_run.
  destruct (classify_transaction_run body transaction_type p) as (category & calls & Hc).
  rewrite Hc. exists q, category, calls. split; [done|]. split; [done|]. reflexivity.
Qed.

(** X5: a message with an ASCII body that passes the filter and whose id
    neither store holds adds exactly one record at the end of each store:
    the transaction with the parsed amount (the value of the amount text),
    recipient and direction, the sender or Unknown, the date of the message
    or the time of the pass; and its copy with the category the classifier
    returned, verified unless that category is Miscellaneous. *)
Theorem process_single_sms_appends_record (now : string) (sms : Sms) (p : Processor) :
  let body := default EmptyString (sms_body sms) in
  is_ascii body = true ->
  is_transactional body = true ->
  sms_id sms ∉ t_id <$> processed_collection p ->
  sms_id sms ∉ c_id <$> categorized_collection p ->
  exists q category,
    py_float (PyStr (parse_transaction_details body).1.1) = Returned q
    /\ fst (classify_transaction body (parse_transaction_details body).2 p)
       = Returned category
    /\ let t := transaction_of now sms q (parse_transaction_details body).1.2
                  (parse_transaction_details body).2 body in
       let p' := snd (process_single_sms now sms p) in
       processed_collection p' = (processed_collection p ++ [t])%list
       /\ categorized_collection p' = (categorized_collection p ++ [categorized_of t category])%list
       /\ c_Verified (categorized_of t category)
          = negb (String.eqb category "Miscellaneous").
Proof.
  intros body _ H Ht Hc. subst body.
  destruct (process_single_sms_run now sms p H) as (q & category & calls & Hq & Hcl & Hrun).
  exists q, category. split; [done|]. split; [by rewrite Hcl|].
  cbv zeta in Hrun |- *. rewrite Hrun. cbn [snd].
  assert (Hup : forall (D : Type) (key : D -> N) (doc : D) (l : list D),
             sms_id sms ∉ key <$> l ->
             upsert_set_on_insert key (sms_id sms) doc l = (l ++ [doc])%list).
  { intros D key doc l Hn. unfold upsert_set_on_insert.
    destruct (existsb _ l) eqn:E; [|done]. apply existsb_key in E. done. }
  cbn. rewrite (Hup _ t_id), (Hup _ c_id) by done. done.
Qed.

Section Invariant.
Context (I : Processor -> Prop).
Hypothesis I_ids : forall ids p, I p -> I (set_processed_ids ids p).
Hypothesis I_view : forall view p, I p -> I (set_combined_collection view p).
Hypothesis I_single : forall now sms, preserves (keeps I) (process_single_sms now sms).

#[local] Instance keeps_preorder : PreOrder (keeps I).
Proof.
  split; [intros p H; exact H | intros p1 p2 p3 H1 H2 H; exact (H2 (H1 H))].
Qed.

Lemma keeps_update_combined : preserves (keeps I) update_combined_transactions.
Proof.
  intros p. destruct (update_combined_run p) as (o & view & ->). intros H. by apply I_view.
Qed.

Lemma keeps_process_and_mark (now : string) (sms : Sms) :
  preserves (keeps I) (process_and_mark now sms).
Proof.
  unfold process_and_mark.
  apply preserves_bind; [apply _ | apply I_single | intros ok].
  apply preserves_bind; [apply _ | | intros ?; apply preserves_ret; apply _].
  destruct ok; [|apply preserves_ret; apply _].
  apply preserves_modify. intros p H. by apply I_ids.
Qed.

Ltac keeps_tac :=
  repeat first
    [ apply preserves_ret; apply _
    | apply preserves_get; apply _
    | apply keeps_update_combined
    | apply keeps_process_and_mark
    | apply preserves_modify; intros ? ?; apply I_ids; assumption
    | apply preserves_for_each; [apply _ | intros ?]
    | apply preserves_foldl; [apply _ | intros ? ? | ]
    | apply preserves_bind; [apply _ | | intros ?]
    | progress cbv zeta
    | match goal with
      | |- preserves _ (if ?b then _ else _) => destruct b
      end ].

Lemma keeps_process_new_data (now : string) : preserves (keeps I) (process_new_data now).
Proof. unfold process_new_data, mark_new_manual_entries, ingest_new_sms. keeps_tac. Qed.

Lemma keeps_process_sms_messages (now : string) :
  preserves (keeps I) (process_sms_messages now).
Proof. unfold process_sms_messages. keeps_tac. Qed.

Lemma keeps_process_manual_entries : preserves (keeps I) process_manual_entries.
Proof. unfold process_manual_entries. keeps_tac. Qed.
End Invariant.

Lemma mirrors_id (t : Transaction) (c : Categorized) : mirrors t c -> c_id c = t_id t.
Proof. by intros [category ->]. Qed.

Lemma paired_ids (p : Processor) :
  paired p -> c_id <$> categorized_collection p = t_id <$> processed_collection p.
Proof.
  unfold paired. induction 1 as [|t c ts cs Hm _ IH]; [done|].
  rewrite !fmap_cons, IH. by rewrite (mirrors_id _ _ Hm).
Qed.

Lemma paired_single (now : string) (sms : Sms) :
  preserves (keeps paired) (process_single_sms now sms).
Proof.
  intros p Hp.
  destruct (is_transactional (default EmptyString (sms_body sms))) eqn:E.
  - destruct (process_single_sms_run now sms p E) as (q & category & calls & _ & _ & Hrun).
    cbv zeta in Hrun. rewrite Hrun. unfold paired in *. cbn.
    pose proof (paired_ids p Hp) as Hids. unfold upsert_set_on_insert.
    destruct (existsb (fun d => (t_id d =? sms_id sms)%N) (processed_collection p)) eqn:Et.
    + apply existsb_key in Et. rewrite <- Hids in Et. apply existsb_key in Et.
      by rewrite Et.
    + destruct (existsb (fun d => (c_id d =? sms_id sms)%N) (categorized_collection p))
        eqn:Ec.
      * apply existsb_key in Ec. rewrite Hids in Ec. apply existsb_key in Ec. congruence.
      * apply Forall2_app; [done|]. constructor; [by exists category | constructor].
  - by rewrite (process_single_sms_filtered now sms p E).
Qed.

(** X6: when the categorized store mirrors the transaction store record
    by record, it still does after [process_new_data],
    [process_sms_messages] and [process_manual_entries], whether they
    return or raise; the two stores then hold the same ids in the same
    order. *)
Theorem stores_stay_paired (p : Processor) :
  paired p ->
  (forall now, paired (snd (process_new_data now p)))
  /\ (forall now, paired (snd (process_sms_messages now p)))
  /\ paired (snd (process_manual_entries p))
  /\ c_id <$> categorized_collection p = t_id <$> processed_collection p.
Proof.
  intros Hp.
  assert (Hids : forall ids q, paired q -> paired (set_processed_ids ids q)) by done.
  assert (Hview : forall view q, paired q -> paired (set_combined_collection view q)) by done.
  split; [|split; [|split]].
  - intros now. by apply (keeps_process_new_data paired Hids Hview paired_single now p).
  - intros now. by apply (keeps_process_sms_messages paired Hids Hview paired_single now p).
  - by apply (keeps_process_manual_entries paired Hids Hview p).
  - by apply paired_ids.
Qed.

End StoreFacts.

(** ** The aggregated view *)

Module ViewFacts.
Import NumFacts Text TransactionProcessor Dedup StoreSpec ViewSpec PipelineFacts
  AggregatorFacts StoreFacts.

Lemma py_float_raises (v : pyval) (e : string) :
  Double.py_float v = Raised e -> e = "ValueError" \/ e = "TypeError".
Proof.
  destruct v as [q|s|]; simpl; [discriminate| |intros [= <-]; by right].
  destruct (Double.float_of_string s); [discriminate | intros [= <-]; by left].
Qed.

Lemma fold_add_returns (entries : list (string * pyval))
    (acc : gmap string Double.double) :
  forallb entry_converts entries = true ->
  exists totals, fold_outcome (fun e => add_to_total e.1 e.2) entries acc = Returned totals.
Proof.
  revert acc. induction entries as [|[cat amount] l IH]; intros acc H.
  - by exists acc.
  - cbn [forallb] in H. apply andb_true_iff in H as [Hc Hl].
    rewrite fold_outcome_cons. unfold add_to_total, entry_converts in *.
    cbn [fst snd] in *. destruct (category_mapping !! cat) as [new_cat|].
    + destruct (Double.py_float amount) as [amt|e]; [|discriminate].
      rewrite !bind_returned. by apply IH.
    + rewrite bind_returned. by apply IH.
Qed.

Lemma fold_add_raises (entries : list (string * pyval))
    (acc : gmap string Double.double) :
  forallb entry_converts entries = false ->
  exists e, fold_outcome (fun e => add_to_total e.1 e.2) entries acc = Raised e
            /\ (e = "ValueError" \/ e = "TypeError").
Proof.
  revert acc. induction entries as [|[cat amount] l IH]; intros acc H; [discriminate|].
  cbn [forallb] in H. rewrite fold_outcome_cons.
  unfold add_to_total, entry_converts in *. cbn [fst snd] in *.
  destruct (category_mapping !! cat) as [new_cat|].
  - destruct (Double.py_float amount) as [amt|e] eqn:Hf.
    + rewrite !bind_returned. by apply IH.
    + exists e. split; [done | by apply (py_float_raises amount)].
  - rewrite bind_returned. by apply IH.
Qed.

Lemma update_combined_raised (p : Processor) (e : string) :
  category_totals_of (categorized_collection p) (manual_collection p) = Raised e ->
  update_combined_transactions p = (Raised e, set_combined_collection ∅ p).
Proof.
  intros H. unfold update_combined_transactions.
  rewrite bind_modify, bind_get, bind_run. unfold lift.
  cbn [categorized_collection manual_collection set_combined_collection]. by rewrite H.
Qed.

Lemma update_combined_converts (p : Processor) :
  forallb entry_converts
    (aggregation_entries (categorized_collection p) (manual_collection p)) = true ->
  fst (update_combined_transactions p) = Returned tt.
Proof.
  intros E. destruct (fold_add_returns _ ∅ E) as [totals Ht].
  rewrite <- category_totals_of_entries in Ht.
  by rewrite (update_combined_returns p totals Ht).
Qed.

Lemma update_combined_fails (p : Processor) :
  forallb entry_converts
    (aggregation_entries (categorized_collection p) (manual_collection p)) = false ->
  exists e, update_combined_transactions p = (Raised e, set_combined_collection ∅ p)
            /\ (e = "ValueError" \/ e = "TypeError").
Proof.
  intros E. destruct (fold_add_raises _ ∅ E) as (e & He & Hk).
  rewrite <- category_totals_of_entries in He.
  exists e. split; [by apply update_combined_raised | done].
Qed.

(** X7: with the amounts that are stored as text in ASCII,
    [update_combined_transactions] returns exactly when the amount of
    every record whose category is in the renaming table converts with
    [float]; otherwise it raises ValueError or TypeError and leaves the
    view empty, since the view was cleared first. *)
Theorem update_combined_outcome (p : Processor) :
  let entries := aggregation_entries (categorized_collection p) (manual_collection p) in
  forallb ascii_entry entries = true ->
  if forallb entry_converts entries
  then fst (update_combined_transactions p) = Returned tt
  else exists e, update_combined_transactions p = (Raised e, set_combined_collection ∅ p)
                 /\ (e = "ValueError" \/ e = "TypeError").
Proof.
  intros entries _. destruct (forallb entry_converts entries) eqn:E.
  - by apply update_combined_converts.
  - by apply update_combined_fails.
Qed.

Lemma update_combined_forgets_view (view : gmap string Chart) (p : Processor) :
  update_combined_transactions (set_combined_collection view p)
  = update_combined_transactions p.
Proof. reflexivity. Qed.

(** X8: what [update_combined_transactions] does is independent of the
    view it finds, and running it a second time gives the same outcome and
    the same state. *)
Theorem update_combined_rebuilds_view (p : Processor) :
  (forall view, update_combined_transactions (set_combined_collection view p)
                = update_combined_transactions p)
  /\ update_combined_transactions (snd (update_combined_transactions p))
     = update_combined_transactions p.
Proof.
  split; [intros view; apply update_combined_forgets_view|].
  destruct (update_combined_run p) as (o & view & H).
  replace (snd (update_combined_transactions p)) with (set_combined_collection view p)
    by (by rewrite H).
  apply update_combined_forgets_view.
Qed.

End ViewFacts.

(** ** Passes that cannot fail *)

Module FlowFacts.
Import NumFacts Text TransactionProcessor Dedup StoreSpec ViewSpec PipelineFacts
  AggregatorFacts StoreFacts ViewFacts BudgetAnalyzer.

Section Safe.
Context (I : Processor -> Prop).

Lemma safe_ret {A : Type} (a : A) : safe I (mret a).
Proof. intros p H. by exists a. Qed.

Lemma safe_get : safe I get.
Proof. intros p H. by exists p. Qed.

Lemma safe_modify (g : Processor -> Processor) :
  (forall p, I p -> I (g p)) -> safe I (modify g).
Proof. intros Hg p H. exists tt. split; [done | by apply Hg]. Qed.

Lemma safe_bind {A B : Type} (m : M A) (f : A -> M B) :
  safe I m -> (forall a, safe I (f a)) -> safe I (m ≫= f).
Proof.
  intros Hm Hf p H. rewrite bind_run. destruct (Hm p H) as (a & Ha & HI).
  destruct (m p) as [o q]. simpl in Ha, HI. subst o. by apply Hf.
Qed.

Lemma safe_for_each {A : Type} (xs : list A) (body : A -> M unit) :
  (forall x, safe I (body x)) -> safe I (for_each xs body).
Proof.
  intros Hb. induction xs as [|x xs IH]; simpl.
  - apply safe_ret.
  - apply safe_bind; [apply Hb | intros _; exact IH].
Qed.

Lemma safe_foldl {A B : Type} (xs : list A) (f : B -> A -> M B) (acc : M B) :
  (forall b x, safe I (f b x)) -> safe I acc ->
  safe I (foldl (fun acc x => b ← acc; f b x) acc xs).
Proof.
  intros Hf. revert acc. induction xs as [|x xs IH]; simpl; intros acc Hacc; [done|].
  apply IH. apply safe_bind; [done | intros b; apply Hf].
Qed.
End Safe.

Lemma mirrors_converts (t : Transaction) (c : Categorized) :
  mirrors t c -> entry_converts (categorized_entry c) = true.
Proof.
  intros [category ->]. unfold entry_converts, categorized_entry. simpl.
  by destruct (category_mapping !! category).
Qed.

Lemma paired_converts (p : Processor) :
  paired p -> forallb entry_converts (categorized_entry <$> categorized_collection p) = true.
Proof.
  unfold paired. induction 1 as [|t c ts cs Hm _ IH]; [done|].
  rewrite fmap_cons. cbn [forallb]. by rewrite (mirrors_converts t c Hm), IH.
Qed.

Lemma forallb_app_list {A : Type} (f : A -> bool) (l1 l2 : list A) :
  forallb f (l1 ++ l2)%list = forallb f l1 && forallb f l2.
Proof. induction l1 as [|x l IH]; simpl; [done|]. by rewrite IH, andb_assoc. Qed.

Lemma forallb_false {A : Type} (f : A -> bool) (l : list A) :
  forallb f l = false -> exists x, x ∈ l /\ f x = false.
Proof.
  induction l as [|x l IH]; [discriminate|]. cbn [forallb].
  destruct (f x) eqn:E.
  - intros H. destruct (IH H) as (y & Hy & Hf). exists y. split; [by right | done].
  - intros _. exists x. split; [by left | done].
Qed.

Lemma summable_update : safe summable update_combined_transactions.
Proof.
  intros p [Hp Hm]. exists tt. split.
  { apply update_combined_converts. unfold aggregation_entries.
    by rewrite forallb_app_list, (paired_converts p Hp), Hm. }
  destruct (update_combined_run p) as (o & view & ->). by split.
Qed.

Lemma summable_single (now : string) (sms : Sms) :
  safe summable (process_single_sms now sms).
Proof.
  intros p [Hp Hm].
  exists (is_transactional (default EmptyString (sms_body sms))).
  split; [apply process_single_sms_result|].
  split; [by apply paired_single|].
  destruct (is_transactional (default EmptyString (sms_body sms))) eqn:E.
  - destruct (process_single_sms_run now sms p E) as (q & category & calls & _ & _ & Hrun).
    cbv zeta in Hrun. by rewrite Hrun.
  - by rewrite (process_single_sms_filtered now sms p E).
Qed.

Lemma summable_ids (ids : gset N) (p : Processor) :
  summable p -> summable (set_processed_ids ids p).
Proof. by intros [? ?]. Qed.

Ltac safe_summable :=
  repeat first
    [ apply safe_ret
    | apply safe_get
    | apply summable_update
    | apply summable_single
    | apply safe_modify; intros ? ?; apply summable_ids; assumption
    | apply safe_for_each; intros ?
    | apply safe_foldl; [intros ? ? | ]
    | apply safe_bind; [ | intros ?]
    | progress cbv zeta
    | match goal with
      | |- safe _ (if ?b then _ else _) => destruct b
      end ].

Lemma summable_process_new_data (now : string) : safe summable (process_new_data now).
Proof.
  unfold process_new_data, mark_new_manual_entries, ingest_new_sms, process_and_mark.
  safe_summable.
Qed.

Lemma summable_process_sms_messages (now : string) :
  safe summable (process_sms_messages now).
Proof. unfold process_sms_messages, process_and_mark. safe_summable. Qed.

Lemma summable_process_manual_entries : safe summable process_manual_entries.
Proof. unfold process_manual_entries. safe_summable. Qed.

(** X9: when every raw message has a text body or none, from paired
    stores and manual entries whose amounts convert, [process_new_data],
    [process_sms_messages] and [process_manual_entries] all return, and
    leave such a state again. *)
Theorem ingestion_returns_on_summable_stores (now : string) (docs : list RawSms.Doc)
    (p : Processor) :
  Forall (fun d => RawSms.readable d = true) docs ->
  raw_collection p = RawSms.sms_of <$> docs ->
  paired p ->
  forallb entry_converts (expense_entry <$> manual_collection p) = true ->
  (exists n, fst (process_new_data now p) = Returned n
             /\ summable (snd (process_new_data now p)))
  /\ (fst (process_sms_messages now p) = Returned tt
      /\ summable (snd (process_sms_messages now p)))
  /\ (fst (process_manual_entries p) = Returned tt
      /\ summable (snd (process_manual_entries p))).
Proof.
  intros _ _ Hp Hm. assert (Hs : summable p) by done.
  split; [exact (summable_process_new_data now p Hs)|]. split.
  - destruct (summable_process_sms_messages now p Hs) as ([] & ? & ?). done.
  - destruct (summable_process_manual_entries p Hs) as ([] & ? & ?). done.
Qed.

(** *** What the budget analyzer reads *)

Lemma current_spending_step_returns (t : Transaction) (category : string)
    (acc : gmap string Double.double) :
  exists current, current_spending_step (categorized_of t category) acc = Returned current.
Proof.
  unfold current_spending_step.
  cbn [categorized_of c_Transaction_Type c_Category c_Amount field].
  rewrite bind_returned.
  destruct (String.eqb (t_Transaction_Type t) "debited"); [|by eexists].
  rewrite bind_returned.
  destruct (bool_decide (category ∈ excluded_categories)); [by eexists|].
  rewrite bind_returned. by eexists.
Qed.

Lemma current_spending_returns (ts : list Transaction) (cs : list Categorized)
    (acc : gmap string Double.double) :
  Forall2 mirrors ts cs ->
  exists current, fold_outcome current_spending_step cs acc = Returned current.
Proof.
  intros H. revert acc. induction H as [|t c ts cs [category ->] _ IH]; intros acc.
  - by exists acc.
  - rewrite fold_outcome_cons.
    destruct (current_spending_step_returns t category acc) as [acc' ->].
    rewrite bind_returned. apply IH.
Qed.

Lemma update_combined_raise_inv (p : Processor) (e : string) :
  fst (update_combined_transactions p) = Raised e ->
  update_combined_transactions p = (Raised e, set_combined_collection ∅ p)
  /\ (e = "ValueError" \/ e = "TypeError")
  /\ forallb entry_converts
       (aggregation_entries (categorized_collection p) (manual_collection p)) = false.
Proof.
  intros H.
  destruct (forallb entry_converts
              (aggregation_entries (categorized_collection p) (manual_collection p)))
    eqn:E.
  - rewrite (update_combined_converts p E) in H. discriminate.
  - destruct (update_combined_fails p E) as (e' & Hrun & Hk).
    rewrite Hrun in H. injection H as ->. done.
Qed.

(** X10: over a categorized store written by the pipeline the scan of
    [get_current_spending] returns, and when
    [update_combined_transactions] raises, a manual entry is the cause. *)
Theorem paired_store_is_readable (p : Processor) :
  paired p ->
  (exists current, get_current_spending (categorized_collection p) = Returned current)
  /\ (forall e, fst (update_combined_transactions p) = Raised e ->
        exists doc, doc ∈ manual_collection p
                    /\ entry_converts (expense_entry doc) = false).
Proof.
  intros Hp. split; [exact (current_spending_returns _ _ ∅ Hp)|].
  intros e He. apply update_combined_raise_inv in He as (_ & _ & Hf).
  unfold aggregation_entries in Hf. rewrite forallb_app_list, (paired_converts p Hp) in Hf.
  cbn [andb] in Hf.
  apply forallb_false in Hf as (x & Hin & Hx).
  apply list_elem_of_fmap in Hin as (doc & -> & Hdoc).
  by exists doc.
Qed.

End FlowFacts.

(** ** The ingestion methods, pass by pass *)

Module PassFacts.
Import NumFacts Text TransactionProcessor Dedup StoreSpec ViewSpec PipelineFacts
  AggregatorFacts StoreFacts ViewFacts FlowFacts.

(** A loop that threads a flag runs from the state its accumulator ends in. *)
Lemma foldl_run {A B : Type} (f : B -> A -> M B) (xs : list A) (acc : M B) (p : Processor) :
  foldl (fun acc x => b ← acc; f b x) acc xs p
  = match acc p with
    | (Returned b, q) => foldl (fun acc x => b ← acc; f b x) (mret b) xs q
    | (Raised e, q) => (Raised e, q)
    end.
Proof.
  revert acc p. induction xs as [|x xs IH]; intros acc p.
  - simpl. by destruct (acc p) as [[b|e] q].
  - cbn [foldl]. rewrite IH, bind_run.
    destruct (acc p) as [[b|e] q]; [|done]. symmetry. by rewrite IH.
Qed.

(** X11: [process_manual_entries] marks the id of every manual entry and
    changes neither the sources nor the two stores, also when the
    aggregation it ends with raises. *)
Theorem process_manual_entries_marks_all (p : Processor) :
  let p' := snd (process_manual_entries p) in
  processed_ids p' = processed_ids p ∪ manual_ids p
  /\ same_stores p p'
  /\ raw_collection p' = raw_collection p
  /\ manual_collection p' = manual_collection p.
Proof.
  unfold process_manual_entries. rewrite bind_get. cbv zeta. rewrite bind_modify.
  destruct (update_combined_run
              (set_processed_ids (processed_ids p ∪ manual_id_set (manual_collection p)) p))
    as (o & view & ->).
  by repeat split.
Qed.

Lemma loop_filtered (now : string) (new_sms : list Sms) (flag : bool) (p : Processor) :
  (forall sms, sms ∈ new_sms ->
     is_transactional (default EmptyString (sms_body sms)) = false) ->
  foldl (fun acc sms =>
           new_sms_processed ← acc;
           ok ← process_and_mark now sms;
           mret (if ok : bool then true else new_sms_processed))
        (mret flag) new_sms p
  = (Returned flag, p).
Proof.
  revert p. induction new_sms as [|x l IH]; intros p H; [done|].
  cbn [foldl]. rewrite foldl_run, !bind_run.
  change ((mret flag : M bool) p) with (Returned flag, p). cbv iota beta.
  rewrite bind_run, process_and_mark_filtered by (apply H; left).
  cbv iota beta. change ((mret flag : M bool) p) with (Returned flag, p). cbv iota.
  apply IH. intros sms Hin. apply H. by right.
Qed.

(** X12: when every unmarked raw message is one the filter discards,
    [process_sms_messages] returns with the processor exactly as it was:
    nothing is marked, so these messages are read again on the next pass,
    and the view is not recomputed. *)
Theorem process_sms_messages_all_filtered (now : string) (p : Processor) :
  (forall sms, sms ∈ raw_collection p -> sms_id sms ∉ processed_ids p ->
     is_transactional (default EmptyString (sms_body sms)) = false) ->
  process_sms_messages now p = (Returned tt, p).
Proof.
  intros H. unfold process_sms_messages. rewrite bind_get, bind_run, loop_filtered; [done|].
  intros sms Hin. apply elem_of_find_not_in in Hin as [Hin Hn]. by apply H.
Qed.

Lemma find_not_in_nil (ids : gset N) (raw : list Sms) :
  (forall sms, sms ∈ raw -> sms_id sms ∈ ids) -> find_not_in ids raw = [].
Proof.
  intros H. destruct (find_not_in ids raw) as [|x l] eqn:E; [done|].
  assert (Hx : x ∈ find_not_in ids raw) by (rewrite E; left).
  apply elem_of_find_not_in in Hx as [Hin Hn]. by apply H in Hin.
Qed.

Lemma mark_new_manual_entries_marked (p : Processor) :
  manual_ids p ⊆ processed_ids p -> mark_new_manual_entries p = (Returned 0, p).
Proof.
  intros H. unfold mark_new_manual_entries. rewrite bind_get. cbv zeta.
  assert (He : manual_id_set (manual_collection p) ∖ processed_ids p = ∅).
  { apply set_eq. intros x. unfold manual_ids in H. set_solver. }
  rewrite He, bool_decide_eq_false_2 by (intros Hn; by apply Hn).
  reflexivity.
Qed.

(** X13: when every manual id and the id of every raw message is marked,
    [process_new_data] returns 0 and leaves the processor exactly as it
    was. *)
Theorem process_new_data_quiescent (now : string) (p : Processor) :
  manual_ids p ⊆ processed_ids p ->
  (forall sms, sms ∈ raw_collection p -> sms_id sms ∈ processed_ids p) ->
  process_new_data now p = (Returned 0, p).
Proof.
  intros Hm Hs. unfold process_new_data.
  rewrite bind_run, (mark_new_manual_entries_marked p Hm). cbv iota beta.
  unfold ingest_new_sms. rewrite bind_run, bind_get. cbv zeta.
  rewrite (find_not_in_nil _ _ Hs). reflexivity.
Qed.

(** The manual half of a pass, in full. *)
Lemma mark_new_manual_entries_run (p : Processor) :
  exists o view,
    mark_new_manual_entries p
    = (o, set_combined_collection view
            (set_processed_ids (processed_ids p ∪ manual_ids p) p))
    /\ (forall n, o = Returned n -> n = size (manual_ids p ∖ processed_ids p))
    /\ (forall e, o = Raised e ->
          (e = "ValueError" \/ e = "TypeError") /\ view = ∅).
Proof.
  unfold mark_new_manual_entries, manual_ids. rewrite bind_get. cbv zeta. rewrite bind_run.
  assert (Hu : processed_ids p ∪ manual_id_set (manual_collection p) ∖ processed_ids p
               = processed_ids p ∪ manual_id_set (manual_collection p)).
  { apply set_eq. intros x. destruct (decide (x ∈ processed_ids p)); set_solver. }
  destruct (bool_decide (manual_id_set (manual_collection p) ∖ processed_ids p ≠ ∅)) eqn:E.
  - rewrite bind_modify. cbv beta. rewrite Hu.
    set (q := set_processed_ids (processed_ids p ∪ manual_id_set (manual_collection p)) p).
    destruct (update_combined_transactions q) as [[[]|e] q'] eqn:Hrun.
    + destruct (update_combined_run q) as (o & view & H). rewrite H in Hrun.
      injection Hrun as -> <-.
      exists (Returned (size (manual_id_set (manual_collection p) ∖ processed_ids p))), view.
      split; [done|]. split; [by intros n [= <-] | by intros e [=]].
    + assert (He : fst (update_combined_transactions q) = Raised e) by (by rewrite Hrun).
      apply update_combined_raise_inv in He as (H & Hk & _). rewrite H in Hrun.
      injection Hrun as <-. exists (Raised e), ∅.
      split; [done|]. split; [by intros n [=] | intros e' [= <-]; done].
  - apply bool_decide_eq_false in E. apply dec_stable in E.
    exists (Returned (size (manual_id_set (manual_collection p) ∖ processed_ids p))),
      (combined_collection p).
    split; [|split; [by intros n [= <-] | by intros e [=]]].
    cbv iota beta. change ((mret tt : M unit) p) with (Returned tt, p). cbv iota beta.
    rewrite <- Hu, E, (right_id_L ∅ (∪)). by destruct p.
Qed.

(** The SMS half of a pass: the loop never raises, the count is that of the
    unmarked messages, and only the aggregator can raise. *)
Lemma ingest_new_sms_run (now : string) (p : Processor) :
  exists o,
    fst (ingest_new_sms now p) = o
    /\ (forall n, o = Returned n ->
          n = length (find_not_in (processed_ids p) (raw_collection p)))
    /\ (forall e, o = Raised e ->
          (e = "ValueError" \/ e = "TypeError")
          /\ combined_collection (snd (ingest_new_sms now p)) = ∅).
Proof.
  eexists. split; [reflexivity|].
  unfold ingest_new_sms. rewrite bind_get. cbv zeta. rewrite bind_run.
  destruct (negb (bool_decide (find_not_in (processed_ids p) (raw_collection p) = []))).
  - rewrite bind_run.
    destruct (for_each_process_and_mark now
                (find_not_in (processed_ids p) (raw_collection p)) p) as (Hr & _ & _).
    destruct (for_each _ _ p) as [o q]. simpl in Hr. subst o. cbv iota beta.
    destruct (update_combined_transactions q) as [[[]|e] q'] eqn:Hrun.
    + split; [by intros n [= <-] | by intros e [=]].
    + assert (He : fst (update_combined_transactions q) = Raised e) by (by rewrite Hrun).
      apply update_combined_raise_inv in He as (H & Hk & _). rewrite H in Hrun.
      injection Hrun as <-. split; [by intros n [=] | intros e' [= <-]; done].
  - split; [by intros n [= <-] | by intros e [=]].
Qed.

(** X14: the number [process_new_data] returns is the number of manual
    ids that were not marked plus the number of raw messages whose id is
    neither marked nor a manual id, the discarded ones included. *)
Theorem process_new_data_count (now : string) (p : Processor) (n : nat) :
  fst (process_new_data now p) = Returned n ->
  n = size (manual_ids p ∖ processed_ids p)
      + length (find_not_in (processed_ids p ∪ manual_ids p) (raw_collection p)).
Proof.
  unfold process_new_data. rewrite bind_run.
  destruct (mark_new_manual_entries_run p) as (o & view & -> & Hn & _).
  destruct o as [a|e]; [|discriminate]. rewrite bind_run.
  destruct (ingest_new_sms_run now
              (set_combined_collection view
                 (set_processed_ids (processed_ids p ∪ manual_ids p) p)))
    as (o & Ho & Hb & _).
  destruct (ingest_new_sms now _) as [o' q]. simpl in Ho. subst o'.
  destruct o as [b|e]; [|discriminate]. intros [= <-].
  by rewrite (Hn a eq_refl), (Hb b eq_refl).
Qed.


End PassFacts.

(** ** Marking *)

Module MarkFacts.
Import NumFacts Text TransactionProcessor Dedup StoreSpec ViewSpec PipelineFacts
  AggregatorFacts StoreFacts ViewFacts FlowFacts PassFacts Samples.

Lemma process_and_mark_new_id (now : string) (sms : Sms) (p : Processor) (id : N) :
  id ∈ stored_ids (snd (process_and_mark now sms p)) ->
  id ∈ stored_ids p
  \/ (id = sms_id sms /\ is_transactional (default EmptyString (sms_body sms)) = true).
Proof.
  destruct (is_transactional (default EmptyString (sms_body sms))) eqn:E.
  - unfold process_and_mark. rewrite bind_run.
    destruct (process_single_sms_stored now sms p E)
      as (tdoc & cdoc & calls & Ht & Hc & ->).
    simpl. unfold stored_ids, transaction_ids, categorized_ids. simpl.
    rewrite !upsert_ids by done. set_solver.
  - rewrite process_and_mark_filtered by done. by left.
Qed.

Lemma for_each_new_ids (now : string) (new_sms : list Sms) (p : Processor) (id : N) :
  id ∈ stored_ids (snd (for_each new_sms (fun sms => process_and_mark now sms;; mret tt) p)) ->
  id ∈ stored_ids p
  \/ exists sms, sms ∈ new_sms /\ sms_id sms = id
                 /\ is_transactional (default EmptyString (sms_body sms)) = true.
Proof.
  revert p. induction new_sms as [|x l IH]; intros p; simpl; [by left|].
  rewrite bind_run, bind_run.
  pose proof (process_and_mark_returns now x p) as [ok Hok].
  pose proof (process_and_mark_new_id now x p id) as Hnew.
  destruct (process_and_mark now x p) as [o q]. simpl in Hok, Hnew. subst o.
  cbv iota beta. change ((mret tt : M unit) q) with (Returned tt, q). cbv iota beta.
  intros H. apply IH in H as [H | (sms & Hin & Hid & Ht)].
  - apply Hnew in H as [H | [-> Ht]]; [by left|].
    right. exists x. split; [left | done].
  - right. exists sms. split; [by right | done].
Qed.

Lemma stored_ids_view (view : gmap string Chart) (p : Processor) :
  stored_ids (set_combined_collection view p) = stored_ids p.
Proof. reflexivity. Qed.

(** X16: an id with a record after [process_new_data] had one before, or
    is the id of a raw message that was neither marked nor the id of a
    manual entry and that passes the filter. *)
Theorem new_records_come_from_unmarked_messages (now : string) (p : Processor) (id : N) :
  id ∈ stored_ids (snd (process_new_data now p)) ->
  id ∈ stored_ids p
  \/ exists sms, sms ∈ raw_collection p /\ sms_id sms = id
                 /\ (id ∉ processed_ids p) /\ (id ∉ manual_ids p)
                 /\ is_transactional (default EmptyString (sms_body sms)) = true.
Proof.
  unfold process_new_data. rewrite bind_run.
  destruct (mark_new_manual_entries_run p) as (o & view & -> & _ & _).
  set (p1 := set_combined_collection view
               (set_processed_ids (processed_ids p ∪ manual_ids p) p)).
  destruct o as [a|e]; [|intros H; by left].
  rewrite bind_run.
  assert (Hs : id ∈ stored_ids (snd (ingest_new_sms now p1)) ->
               id ∈ stored_ids p
               \/ exists sms, sms ∈ raw_collection p /\ sms_id sms = id
                   /\ (id ∉ processed_ids p) /\ (id ∉ manual_ids p)
                   /\ is_transactional (default EmptyString (sms_body sms)) = true).
  { unfold ingest_new_sms. rewrite bind_get. cbv zeta. rewrite bind_run.
    destruct (negb (bool_decide (find_not_in (processed_ids p1) (raw_collection p1) = []))).
    - rewrite bind_run.
      pose proof (for_each_new_ids now
                    (find_not_in (processed_ids p1) (raw_collection p1)) p1 id) as Hnew.
      destruct (for_each_process_and_mark now
                  (find_not_in (processed_ids p1) (raw_collection p1)) p1) as (Hr & _ & _).
      destruct (for_each _ _ p1) as [o q]. simpl in Hr, Hnew. subst o. cbv iota beta.
      destruct (update_combined_run q) as (o & view' & ->).
      intros H. assert (Hq : id ∈ stored_ids q) by (by destruct o).
      apply Hnew in Hq as [Hq | (sms & Hin & Hid & Ht)]; [by left|].
      right. exists sms. apply elem_of_find_not_in in Hin as [Hin Hn].
      simpl in Hin, Hn. rewrite Hid in Hn. set_solver.
    - intros H. by left. }
  destruct (ingest_new_sms now p1) as [[b|e] q]; exact Hs.
Qed.

Lemma new_records_come_from_unmarked_messages_witness :
  let p := init [payment_sms; promo_sms] [lunch_expense] [] [] ∅ (Some always_shopping) in
  8%N ∈ stored_ids p
  \/ exists sms, sms ∈ raw_collection p /\ sms_id sms = 8%N
                 /\ (8%N ∉ processed_ids p) /\ (8%N ∉ manual_ids p)
                 /\ is_transactional (default EmptyString (sms_body sms)) = true.
Proof.
  intros p.
  apply (new_records_come_from_unmarked_messages "2025-01-05 10:00:01" p 8%N).
  apply (bool_decide_eq_true_1
           (8%N ∈ stored_ids (snd (process_new_data "2025-01-05 10:00:01" p)))).
  vm_compute. reflexivity.
Defined.

(** *** home_page.py *)

Lemma sms_loop_body_run (now : string) (flag : bool) (sms : Sms) (p : Processor) :
  exists flag' q,
    HomePage.sms_loop_body now flag sms p = (Returned flag', q)
    /\ processed_ids q = processed_ids p ∪ {[ sms_id sms ]}
    /\ raw_collection q = raw_collection p.
Proof.
  unfold HomePage.sms_loop_body. cbv zeta.
  destruct (negb (any_in transaction_categories (lower (default EmptyString (sms_body sms))))
            || any_in non_transactional (lower (default EmptyString (sms_body sms)))) eqn:E.
  - eexists _, _. split; [reflexivity|]. by split.
  - pose proof (ExtractionFacts.parsed_amount_is_a_number (default EmptyString (sms_body sms))) as Hamount.
    destruct (parse_transaction_details (default EmptyString (sms_body sms)))
      as [[amount recipient] transaction_type].
    cbv zeta in Hamount. cbn [fst] in Hamount. destruct Hamount as [Hne [q Hq]].
    rewrite Hne. cbn [negb]. rewrite bind_run. unfold lift at 1. rewrite Hq.
    rewrite bind_run.
    destruct (classify_transaction_run (default EmptyString (sms_body sms))
                transaction_type p) as (category & calls & ->).
    eexists _, _. split; [reflexivity|]. by split.
Qed.

Lemma sms_loop_run (now : string) (new_sms : list Sms) (flag : bool) (p : Processor) :
  exists flag' q,
    foldl (fun acc sms => flag ← acc; HomePage.sms_loop_body now flag sms)
          (mret flag) new_sms p
    = (Returned flag', q)
    /\ processed_ids q = processed_ids p ∪ list_to_set (sms_id <$> new_sms)
    /\ raw_collection q = raw_collection p.
Proof.
  revert flag p. induction new_sms as [|x l IH]; intros flag p.
  - exists flag, p. split; [done|]. split; [|done]. simpl. by rewrite (right_id_L ∅ (∪)).
  - cbn [foldl]. rewrite foldl_run, bind_run.
    change ((mret flag : M bool) p) with (Returned flag, p). cbv iota beta.
    destruct (sms_loop_body_run now flag x p) as (flag1 & q1 & -> & Hids1 & Hraw1).
    destruct (IH flag1 q1) as (flag2 & q2 & -> & Hids2 & Hraw2).
    exists flag2, q2. split; [done|]. split; [|congruence].
    rewrite Hids2, Hids1, fmap_cons. simpl. by rewrite (assoc_L (∪)).
Qed.

(** X17: on a message whose body is not a text the body of the loop of
    [home_page.py] raises AttributeError before anything is marked. When
    every raw message has a text body or none, the loop marks the id of
    every raw message, discarded or stored, so that no message is selected
    again; the raw collection is unchanged. *)
Theorem home_page_marks_every_message (now : string) (docs : list RawSms.Doc)
    (p : Processor) :
  let p' := snd (HomePage.process_new_sms now p) in
  (forall flag d, RawSms.readable d = false ->
     RawSms.sms_loop_body now flag d p = (Raised "AttributeError", p))
  /\ (Forall (fun d => RawSms.readable d = true) docs ->
      raw_collection p = RawSms.sms_of <$> docs ->
      (forall sms, sms ∈ raw_collection p -> sms_id sms ∈ processed_ids p')
      /\ raw_collection p' = raw_collection p
      /\ find_not_in (processed_ids p') (raw_collection p') = []).
Proof.
  cbv zeta. split; [intros flag d Hd; unfold RawSms.sms_loop_body; by rewrite Hd|].
  intros _ _.
  assert (H : (forall sms, sms ∈ raw_collection p ->
                 sms_id sms ∈ processed_ids (snd (HomePage.process_new_sms now p)))
              /\ raw_collection (snd (HomePage.process_new_sms now p)) = raw_collection p).
  { unfold HomePage.process_new_sms. rewrite bind_get, bind_run.
    destruct (sms_loop_run now (find_not_in (processed_ids p) (raw_collection p)) false p)
      as (flag & q & -> & Hids & Hraw).
    assert (Hq : forall sms, sms ∈ raw_collection p -> sms_id sms ∈ processed_ids q).
    { intros sms Hin. rewrite Hids.
      destruct (decide (sms_id sms ∈ processed_ids p)) as [|Hn]; [set_solver|].
      apply elem_of_union_r, elem_of_list_to_set, list_elem_of_fmap.
      exists sms. split; [done | by apply elem_of_find_not_in]. }
    destruct flag; [|done].
    destruct (update_combined_run q) as (o & view & ->). by destruct o. }
  destruct H as [Hm Hraw]. split; [done|]. split; [done|].
  apply find_not_in_nil. intros sms Hin. apply Hm. by rewrite <- Hraw.
Qed.

End MarkFacts.

(** ** Budget ceilings *)

Module CeilingFacts.
Import NumFacts BudgetAnalyzer BudgetSpec BudgetFacts Samples.




End CeilingFacts.

(** ** Allocation *)

Module AllocationFacts.
Import NumFacts BudgetAnalyzer BudgetSpec BudgetFacts Samples.

Lemma valid_goals_valid (goals : list (N * Goal)) :
  Forall (fun ig => (0 <? timeframe (snd ig))%Z = true)
    (List.filter (fun ig => (0 <? timeframe (snd ig))%Z) goals).
Proof.
  apply Forall_forall. intros ig Hin.
  by apply list_elem_of_In, List.filter_In in Hin as [_ H].
Qed.

(** The monthly target of a goal with a positive time frame is computed
    unless the time frame is beyond the doubles. *)
Lemma monthly_target_raises (g : Goal) (e : string) :
  (0 <? timeframe g)%Z = true -> monthly_target g = Raised e -> e = "OverflowError".
Proof.
  intros Hv. unfold monthly_target, Double.div_int, Double.float_of_int.
  destruct (is_infinity _); [by intros [= <-]|]. rewrite bind_returned.
  apply Z.ltb_lt in Hv. destruct (Z.eqb_spec (timeframe g) 0) as [E|_]; [lia | done].
Qed.

Lemma total_raises (goals : list (N * Goal)) (acc : Double.double) (e : string) :
  Forall (fun ig => (0 <? timeframe (snd ig))%Z = true) goals ->
  fold_outcome (fun ig acc => t ← monthly_target (snd ig); mret (acc + t)%float) goals acc
  = Raised e ->
  e = "OverflowError".
Proof.
  intros Hv. revert acc. induction Hv as [|ig l Hig _ IH]; intros acc; [done|].
  rewrite fold_outcome_cons.
  destruct (monthly_target (snd ig)) as [target|e'] eqn:E.
  - rewrite !bind_returned. apply IH.
  - intros [= <-]. by apply (monthly_target_raises (snd ig)).
Qed.

(** X20: [allocate_savings_to_goals] raises only OverflowError, when the
    time frame of a valid goal is too large for a float, and then the
    script [4.py] raises it too. When the monthly targets of the valid
    goals sum to zero it returns the empty dictionary, where [4.py], which
    has no such test, raises ZeroDivisionError as soon as there is a valid
    goal; otherwise the two return the same dictionary. *)
Theorem allocation_zero_total (total_savings : Double.double) (goals : list (N * Goal)) :
  let valid_goals := List.filter (fun ig => (0 <? timeframe (snd ig))%Z) goals in
  match total_monthly_target valid_goals with
  | Raised e =>
      e = "OverflowError"
      /\ allocate_savings_to_goals total_savings goals = Raised e
      /\ Script4.allocate_savings_to_goals total_savings goals = Raised e
  | Returned total =>
      if (total =? 0)%float
      then allocate_savings_to_goals total_savings goals = Returned ∅
           /\ Script4.allocate_savings_to_goals total_savings goals
              = match valid_goals with
                | [] => Returned ∅
                | _ :: _ => Raised "ZeroDivisionError"
                end
      else exists allocated,
             allocate_savings_to_goals total_savings goals = Returned allocated
             /\ Script4.allocate_savings_to_goals total_savings goals = Returned allocated
  end.
Proof.
  intros valid_goals.
  unfold allocate_savings_to_goals, Script4.allocate_savings_to_goals. fold valid_goals.
  pose proof (valid_goals_valid goals) as Hv. fold valid_goals in Hv.
  destruct (total_monthly_target valid_goals) as [total|e] eqn:Htot.
  - pose proof (total_returns_targets valid_goals _ _ Htot) as Htargets.
    rewrite !bind_returned. destruct (total =? 0)%float eqn:E.
    + split; [done|]. destruct valid_goals as [|ig l]; [done|].
      rewrite fold_outcome_cons. cbv zeta.
      apply Forall_cons in Htargets as [[target ->] _]. rewrite bind_returned.
      unfold Double.py_div. by rewrite E.
    + rewrite (allocation_fold total_savings total valid_goals ∅ E Htargets). by eexists.
  - split; [|done]. by apply (total_raises valid_goals 0%float).
Qed.

End AllocationFacts.

(** ** The scan of current spending *)

Module ScanFacts.
Import NumFacts TransactionProcessor BudgetAnalyzer BudgetSpec BudgetFacts
  PipelineFacts AggregatorFacts Samples.

Lemma debited_amounts_app (category : string) (l1 l2 : list Categorized) :
  debited_amounts category (l1 ++ l2)%list
  = (debited_amounts category l1 ++ debited_amounts category l2)%list.
Proof. unfold debited_amounts. apply omap_app. Qed.

Lemma debited_amounts_one (category : string) (item : Categorized) :
  debited_amounts category [item]
  = match (if bool_decide (c_Transaction_Type item = Some "debited"
                           /\ c_Category item = Some category
                           /\ (category ∉ excluded_categories))
           then match amount ← field (c_Amount item); Double.py_float amount with
                | Returned amt => Some amt
                | Raised _ => None
                end
           else None) with
    | Some amt => [amt]
    | None => []
    end.
Proof. reflexivity. Qed.

Lemma step_unscannable (item : Categorized) (acc : gmap string Double.double) :
  scannable item = false -> current_spending_step item acc = Raised "KeyError".
Proof.
  unfold scannable, current_spending_step.
  destruct (c_Transaction_Type item) as [t|]; [|done]. cbn [field].
  rewrite bind_returned. destruct (String.eqb t "debited"); [|done].
  destruct (c_Category item) as [cat|]; [|done].
  rewrite bool_decide_eq_true_2 by (by eexists). done.
Qed.

Lemma step_scannable (item : Categorized) (acc : gmap string Double.double) :
  scannable item = true ->
  exists acc',
    current_spending_step item acc = Returned acc'
    /\ forall category,
         acc' !! category = None
         <-> acc !! category = None /\ debited_amounts category [item] = [].
Proof.
  unfold scannable. intros H. unfold current_spending_step.
  destruct (c_Transaction_Type item) as [t|] eqn:Ht; [|done]. cbn [field].
  rewrite bind_returned.
  destruct (String.eqb_spec t "debited") as [->|Hnd].
  - destruct (c_Category item) as [cat|] eqn:Hc;
      [|by apply bool_decide_eq_true in H as [? ?]].
    cbn [field]. rewrite bind_returned.
    destruct (bool_decide (cat ∈ excluded_categories)) eqn:Hex.
    + apply bool_decide_eq_true in Hex. exists acc. split; [done|]. intros category.
      rewrite debited_amounts_one.
      rewrite bool_decide_eq_false_2; [naive_solver|]. rewrite Hc.
      intros (_ & [= ->] & Hn). done.
    + apply bool_decide_eq_false in Hex.
      destruct (field (c_Amount item) ≫= (fun amount => Double.py_float amount))
        as [amt|e] eqn:Ha.
      * eexists. split; [reflexivity|]. intros category. rewrite debited_amounts_one.
        destruct (decide (cat = category)) as [->|Hne].
        -- rewrite lookup_insert_eq, bool_decide_eq_true_2 by done.
           rewrite Ha. naive_solver.
        -- rewrite lookup_insert_ne by done.
           rewrite bool_decide_eq_false_2; [naive_solver|]. rewrite Hc.
           intros (_ & [= ?] & _). done.
      * exists acc. split; [done|]. intros category. rewrite debited_amounts_one.
        rewrite Ha. destruct (bool_decide (_ /\ _)); cbv iota; (split; [intros ?; by split | by intros [? _]]).
  - exists acc. split; [done|]. intros category. rewrite debited_amounts_one.
    rewrite bool_decide_eq_false_2; [naive_solver|]. rewrite Ht.
    intros ([= ->] & _). done.
Qed.

Lemma scan_fold (data : list Categorized) (acc : gmap string Double.double) :
  if forallb scannable data
  then exists current,
         fold_outcome current_spending_step data acc = Returned current
         /\ forall category,
              current !! category = None
              <-> acc !! category = None /\ debited_amounts category data = []
  else fold_outcome current_spending_step data acc = Raised "KeyError".
Proof.
  revert acc. induction data as [|item l IH]; intros acc.
  - simpl. exists acc. split; [done|]. naive_solver.
  - cbn [forallb]. rewrite fold_outcome_cons.
    destruct (scannable item) eqn:E.
    + destruct (step_scannable item acc E) as (acc' & -> & Hacc').
      rewrite bind_returned. cbn [andb]. specialize (IH acc').
      destruct (forallb scannable l); [|done].
      destruct IH as (current & -> & Hcur). exists current. split; [done|].
      intros category. rewrite Hcur, Hacc'.
      change (item :: l) with ([item] ++ l)%list. rewrite debited_amounts_app.
      split.
      * intros [[? ->] ->]. done.
      * intros [? Happ]. apply app_eq_nil in Happ as [? ?]. done.
    + by rewrite (step_unscannable item acc E).
Qed.

(** X22: with the amounts that are stored as text in ASCII,
    [get_current_spending] raises KeyError exactly when a document has no
    transaction type, or is debited and has no category; an amount that is
    missing or does not convert is skipped. When it returns, a category
    has an entry exactly when some debited transaction of it contributed
    an amount, and an excluded category never has one. *)
Theorem current_spending_scan (data : list Categorized) :
  Forall (fun item => ascii_amount item = true) data ->
  if forallb scannable data
  then exists current,
         get_current_spending data = Returned current
         /\ (forall category,
               current !! category = None <-> debited_amounts category data = [])
         /\ (forall category, category ∈ excluded_categories ->
               current !! category = None)
  else get_current_spending data = Raised "KeyError".
Proof.
  intros _. unfold get_current_spending. pose proof (scan_fold data ∅) as H.
  destruct (forallb scannable data); [|done].
  destruct H as (current & -> & Hcur). exists current. split; [done|].
  assert (Hiff : forall category,
            current !! category = None <-> debited_amounts category data = []).
  { intros category. rewrite Hcur, lookup_empty. naive_solver. }
  split; [done|]. intros category Hex. apply Hiff.
  clear -Hex. induction data as [|item l IH]; [done|].
  rewrite debited_amounts_cons, bool_decide_eq_false_2; [done|].
  intros (_ & _ & Hn). done.
Qed.

End ScanFacts.

(** ** The polling loop *)

Module PollingFacts.
Import NumFacts Text TransactionProcessor Dedup StoreSpec ViewSpec PipelineFacts
  AggregatorFacts StoreFacts ViewFacts FlowFacts PassFacts Samples StoreSamples Polling.

Lemma bad_entry_stops_aggregation (p : Processor) (bad : Expense) :
  bad ∈ manual_collection p -> entry_converts (expense_entry bad) = false ->
  forallb entry_converts
    (aggregation_entries (categorized_collection p) (manual_collection p)) = false.
Proof.
  intros Hin Hbad. unfold aggregation_entries. rewrite forallb_app_list.
  apply andb_false_iff. right.
  destruct (forallb entry_converts (expense_entry <$> manual_collection p)) eqn:E; [|done].
  rewrite forallb_forall in E. rewrite <- Hbad. symmetry. apply E.
  apply list_elem_of_In, list_elem_of_fmap. by exists bad.
Qed.

Lemma process_manual_entries_blocked (p : Processor) (bad : Expense) :
  bad ∈ manual_collection p -> entry_converts (expense_entry bad) = false ->
  exists e,
    process_manual_entries p
    = (Raised e,
       set_combined_collection ∅
         (set_processed_ids (processed_ids p ∪ manual_id_set (manual_collection p)) p)).
Proof.
  intros Hin Hbad. unfold process_manual_entries. rewrite bind_get. cbv zeta.
  rewrite bind_modify.
  destruct (update_combined_fails
              (set_processed_ids (processed_ids p ∪ manual_id_set (manual_collection p)) p))
    as (e & -> & _).
  - by apply (bad_entry_stops_aggregation _ bad).
  - by exists e.
Qed.

(** While the manual collection is larger than the counter remembers and
    holds an entry the aggregator cannot convert, a turn ends in the
    manual branch. *)
Lemma blocked_turn (now : string) (counts : Counts) (p : Processor) (bad : Expense) :
  bad ∈ manual_collection p -> entry_converts (expense_entry bad) = false ->
  (last_manual_count counts < length (manual_collection p))%nat ->
  process_transactions_turn now counts p
  = (counts,
     set_combined_collection ∅
       (set_processed_ids (processed_ids p ∪ manual_id_set (manual_collection p)) p)).
Proof.
  intros Hin Hbad Hlt. unfold process_transactions_turn.
  assert (Hne : (length (manual_collection p) =? last_manual_count counts)%nat = false)
    by (apply Nat.eqb_neq; lia).
  rewrite Hne. cbn [negb].
  by destruct (process_manual_entries_blocked p bad Hin Hbad) as (e & ->).
Qed.

Lemma arrivals_keep (arrivals : list arrival) (p : Processor) (bad : Expense) :
  let p' := foldl (fun p a => arrive a p) p arrivals in
  same_stores p p'
  /\ (bad ∈ manual_collection p -> bad ∈ manual_collection p')
  /\ (length (manual_collection p) <= length (manual_collection p'))%nat
  /\ raw_collection p `prefix_of` raw_collection p'.
Proof.
  revert p. induction arrivals as [|a l IH]; intros p; simpl.
  - by repeat split.
  - destruct (IH (arrive a p)) as (Hs & Hb & Hl & Hr).
    destruct a as [sms|e]; simpl in *.
    + repeat split; try apply Hs; try done. etrans; [|exact Hr]. by apply prefix_app_r.
    + repeat split; try apply Hs; try done.
      * intros H. apply Hb. apply elem_of_app. by left.
      * rewrite length_app in Hl. simpl in Hl. lia.
Qed.

Lemma blocked_turns (turns : list (list arrival * string))
    (counts : Counts) (p : Processor) (bad : Expense) :
  bad ∈ manual_collection p -> entry_converts (expense_entry bad) = false ->
  (last_manual_count counts < length (manual_collection p))%nat ->
  let r := process_transactions_turns turns counts p in
  fst r = counts
  /\ same_stores p (snd r)
  /\ (turns <> [] -> combined_collection (snd r) = ∅).
Proof.
  revert p. induction turns as [|[arrivals now] turns IH]; intros p Hin Hbad Hlt.
  - simpl. split; [done|]. split; [by split | done].
  - cbn [process_transactions_turns].
    destruct (arrivals_keep arrivals p bad) as (Hs & Hb & Hl & _).
    set (p1 := foldl (fun p a => arrive a p) p arrivals) in *.
    rewrite (blocked_turn now counts p1 bad (Hb Hin) Hbad) by lia.
    set (p2 := set_combined_collection ∅
                 (set_processed_ids
                    (processed_ids p1 ∪ manual_id_set (manual_collection p1)) p1)).
    destruct (IH p2) as (Hc & Hs2 & Hv); [by apply Hb | done | simpl; lia |].
    split; [done|]. split.
    + destruct Hs as [H1 H2], Hs2 as [H3 H4]. split; simpl in *; congruence.
    + intros _. destruct turns as [|t turns']; [done|]. by apply Hv.
Qed.

Lemma expense_arrived (arrivals : list arrival) (p : Processor) (bad : Expense) :
  expense_arrives bad ∈ arrivals ->
  let p' := foldl (fun p a => arrive a p) p arrivals in
  bad ∈ manual_collection p'
  /\ (length (manual_collection p) < length (manual_collection p'))%nat.
Proof.
  revert p. induction arrivals as [|a l IH]; intros p Hin; [by apply elem_of_nil in Hin|].
  cbn [foldl]. apply elem_of_cons in Hin as [<- | Hin].
  - destruct (arrivals_keep l (arrive (expense_arrives bad) p) bad) as (_ & Hb & Hl & _).
    simpl in *. split.
    + apply Hb. apply elem_of_app. right. by apply list_elem_of_singleton.
    + rewrite length_app in Hl. simpl in Hl. lia.
  - destruct (IH (arrive a p) Hin) as [Hb Hl]. split; [done|].
    destruct a as [sms|e]; simpl in *; [done|]. rewrite length_app in Hl. simpl in Hl. lia.
Qed.

(** X28: once a manual entry arrives whose category is in the renaming
    table and whose amount, a null or an ASCII text, does not convert, the
    loop of
    [process_transactions] is stuck in its manual branch: its counters
    never advance, neither store ever gets a record, whatever messages
    arrive, and the view stays empty. *)
Theorem bad_manual_entry_blocks_polling (arrivals : list arrival) (now : string)
    (turns : list (list arrival * string)) (p : Processor) (bad : Expense) :
  expense_arrives bad ∈ arrivals ->
  ascii_entry (expense_entry bad) = true ->
  entry_converts (expense_entry bad) = false ->
  let r := process_transactions ((arrivals, now) :: turns) p in
  fst r = {| last_sms_count := length (raw_collection p);
             last_manual_count := length (manual_collection p) |}
  /\ same_stores p (snd r)
  /\ combined_collection (snd r) = ∅.
Proof.
  intros Hin _ Hbad. cbv zeta. unfold process_transactions.
  cbn [process_transactions_turns].
  destruct (expense_arrived arrivals p bad Hin) as [Hb Hl].
  destruct (arrivals_keep arrivals p bad) as (Hs & _).
  set (p1 := foldl (fun p a => arrive a p) p arrivals) in *.
  rewrite (blocked_turn now _ p1 bad Hb Hbad) by (simpl; lia).
  set (p2 := set_combined_collection ∅
               (set_processed_ids
                  (processed_ids p1 ∪ manual_id_set (manual_collection p1)) p1)).
  destruct (blocked_turns turns
              {| last_sms_count := length (raw_collection p);
                 last_manual_count := length (manual_collection p) |} p2 bad)
    as (Hc & Hs2 & Hv); [done | done | simpl; lia |].
  split; [done|]. split.
  - destruct Hs as [H1 H2], Hs2 as [H3 H4]. split; simpl in *; congruence.
  - destruct turns as [|t turns']; [done|]. by apply Hv.
Qed.

Lemma bad_manual_entry_blocks_polling_witness :
  let p := init [payment_sms] [] [] [] ∅ (Some always_shopping) in
  let r := process_transactions
             [([sms_arrives promo_sms; expense_arrives bad_expense], "2025-01-05 10:00:01");
              ([], "2025-01-05 10:00:11")] p in
  fst r = {| last_sms_count := 1; last_manual_count := 0 |}
  /\ same_stores p (snd r)
  /\ combined_collection (snd r) = ∅.
Proof.
  apply (bad_manual_entry_blocks_polling
           [sms_arrives promo_sms; expense_arrives bad_expense] "2025-01-05 10:00:01"
           [([], "2025-01-05 10:00:11")]
           (init [payment_sms] [] [] [] ∅ (Some always_shopping)) bad_expense).
  - right. left.
  - reflexivity.
  - vm_compute. reflexivity.
Defined.

Lemma idle_turns (turns : list (list arrival * string)) (p : Processor) :
  Forall (fun turn => turn.1 = []) turns ->
  process_transactions_turns turns
    {| last_sms_count := length (raw_collection p);
       last_manual_count := length (manual_collection p) |} p
  = ({| last_sms_count := length (raw_collection p);
        last_manual_count := length (manual_collection p) |}, p).
Proof.
  induction 1 as [|[arrivals now] turns Hnil _ IH]; [done|].
  simpl in Hnil. subst arrivals. cbn [process_transactions_turns foldl].
  unfold process_transactions_turn. cbn [last_manual_count last_sms_count].
  rewrite !Nat.eqb_refl. cbn [negb]. rewrite Nat.eqb_refl. exact IH.
Qed.

(** X29: the loop of [process_transactions] compares counts only: while
    nothing arrives it leaves the processor exactly as it was, so raw
    messages that were waiting when it started are not ingested. *)
Theorem polling_ignores_backlog (turns : list (list arrival * string)) (p : Processor) :
  Forall (fun turn => turn.1 = []) turns ->
  snd (process_transactions turns p) = p.
Proof. intros H. unfold process_transactions. by rewrite (idle_turns turns p H). Qed.

Lemma polling_ignores_backlog_witness :
  let p := init [payment_sms] [] [] [] ∅ (Some always_shopping) in
  snd (process_transactions [([], "2025-01-05 10:00:01"); ([], "2025-01-05 10:00:06")] p)
  = p.
Proof.
  apply (polling_ignores_backlog [([], "2025-01-05 10:00:01"); ([], "2025-01-05 10:00:06")]
           (init [payment_sms] [] [] [] ∅ (Some always_shopping))).
  repeat constructor.
Defined.

End PollingFacts.

(** ** The properties above on the sample data *)

Module Witnesses.
Import NumFacts Text TransactionProcessor Dedup StoreSpec ViewSpec PipelineFacts
  AggregatorFacts StoreFacts ViewFacts FlowFacts PassFacts MarkFacts Samples StoreSamples.
Import BudgetAnalyzer BudgetSpec.

Lemma process_single_sms_appends_record_witness :
  let body := "Rs. 1,500 sent to John Doe" in
  let p := empty_processor (Some always_shopping) in
  exists q category,
    py_float (PyStr (parse_transaction_details body).1.1) = Returned q
    /\ fst (classify_transaction body (parse_transaction_details body).2 p)
       = Returned category
    /\ let t := transaction_of "2025-01-05 10:00:01" payment_sms q
                  (parse_transaction_details body).1.2
                  (parse_transaction_details body).2 body in
       let p' := snd (process_single_sms "2025-01-05 10:00:01" payment_sms p) in
       processed_collection p' = (processed_collection p ++ [t])%list
       /\ TransactionProcessor.categorized_collection p'
          = (TransactionProcessor.categorized_collection p
             ++ [categorized_of t category])%list
       /\ c_Verified (categorized_of t category)
          = negb (String.eqb category "Miscellaneous").
Proof.
  apply (process_single_sms_appends_record "2025-01-05 10:00:01" payment_sms
           (empty_processor (Some always_shopping))).
  - reflexivity.
  - vm_compute. reflexivity.
  - apply not_elem_of_nil.
  - apply not_elem_of_nil.
Defined.

Lemma stores_stay_paired_witness :
  (forall now, paired (snd (process_new_data now paired_processor)))
  /\ (forall now, paired (snd (process_sms_messages now paired_processor)))
  /\ paired (snd (process_manual_entries paired_processor))
  /\ c_id <$> TransactionProcessor.categorized_collection paired_processor
     = t_id <$> processed_collection paired_processor.
Proof.
  apply (stores_stay_paired paired_processor).
  constructor; [by exists "Shopping" | constructor].
Defined.

Lemma ingestion_returns_on_summable_stores_witness :
  (exists n, fst (process_new_data "2025-01-05 10:00:01" paired_processor) = Returned n
             /\ summable (snd (process_new_data "2025-01-05 10:00:01" paired_processor)))
  /\ (fst (process_sms_messages "2025-01-05 10:00:01" paired_processor) = Returned tt
      /\ summable (snd (process_sms_messages "2025-01-05 10:00:01" paired_processor)))
  /\ (fst (process_manual_entries paired_processor) = Returned tt
      /\ summable (snd (process_manual_entries paired_processor))).
Proof.
  apply (ingestion_returns_on_summable_stores "2025-01-05 10:00:01"
           [payment_doc; promo_doc] paired_processor).
  - repeat constructor.
  - reflexivity.
  - constructor; [by exists "Shopping" | constructor].
  - vm_compute. reflexivity.
Defined.

Lemma paired_store_is_readable_witness :
  (exists current,
     get_current_spending (TransactionProcessor.categorized_collection paired_processor)
     = Returned current)
  /\ (forall e, fst (update_combined_transactions paired_processor) = Raised e ->
        exists doc, doc ∈ manual_collection paired_processor
                    /\ entry_converts (expense_entry doc) = false).
Proof.
  apply (paired_store_is_readable paired_processor).
  constructor; [by exists "Shopping" | constructor].
Defined.

Lemma process_sms_messages_all_filtered_witness :
  process_sms_messages "2025-01-05 10:00:01" paired_processor
  = (Returned tt, paired_processor).
Proof.
  apply (process_sms_messages_all_filtered "2025-01-05 10:00:01" paired_processor).
  intros sms Hin Hn.
  apply elem_of_cons in Hin as [-> | Hin].
  - exfalso. apply Hn.
    apply (bool_decide_eq_true_1 (sms_id payment_sms ∈ processed_ids paired_processor)).
    vm_compute. reflexivity.
  - apply list_elem_of_singleton in Hin. subst sms. vm_compute. reflexivity.
Defined.

Lemma process_new_data_quiescent_witness :
  process_new_data "2025-01-05 10:00:01" quiet_processor = (Returned 0%nat, quiet_processor).
Proof.
  apply (process_new_data_quiescent "2025-01-05 10:00:01" quiet_processor).
  - apply (bool_decide_eq_true_1 (manual_ids quiet_processor ⊆ processed_ids quiet_processor)).
    vm_compute. reflexivity.
  - intros sms Hin. apply elem_of_cons in Hin as [-> | Hin].
    + apply (bool_decide_eq_true_1 (sms_id payment_sms ∈ processed_ids quiet_processor)).
      vm_compute. reflexivity.
    + apply list_elem_of_singleton in Hin. subst sms.
      apply (bool_decide_eq_true_1 (sms_id promo_sms ∈ processed_ids quiet_processor)).
      vm_compute. reflexivity.
Defined.

Lemma process_new_data_count_witness :
  let p := init [payment_sms; promo_sms] [] [] [] ∅ (Some always_shopping) in
  2%nat = (size (manual_ids p ∖ processed_ids p)
           + length (find_not_in (processed_ids p ∪ manual_ids p) (raw_collection p)))%nat.
Proof.
  apply (process_new_data_count "2025-01-05 10:00:01"
           (init [payment_sms; promo_sms] [] [] [] ∅ (Some always_shopping)) 2%nat).
  vm_compute. reflexivity.
Defined.


Lemma home_page_marks_every_message_witness :
  sms_id promo_sms
  ∈ processed_ids (snd (HomePage.process_new_sms "2025-01-05 10:00:01"
                          (init [promo_sms] [] [] [] ∅ (Some always_shopping)))).
Proof.
  refine (proj1 (proj2 (home_page_marks_every_message "2025-01-05 10:00:01" [promo_doc]
                          (init [promo_sms] [] [] [] ∅ (Some always_shopping))) _ _)
            promo_sms _).
  - repeat constructor.
  - reflexivity.
  - apply list_elem_of_singleton. reflexivity.
Defined.

Lemma current_spending_scan_witness :
  exists current,
    get_current_spending small_and_other = Returned current
    /\ (forall category,
          current !! category = None <-> debited_amounts category small_and_other = [])
    /\ (forall category, category ∈ excluded_categories -> current !! category = None).
Proof.
  apply (ScanFacts.current_spending_scan small_and_other). repeat constructor.
Defined.

Lemma update_combined_outcome_witness :
  fst (update_combined_transactions paired_processor) = Returned tt.
Proof. exact (update_combined_outcome paired_processor eq_refl). Defined.


End Witnesses.
